(** * instatory: the image-to-catalog pipeline of [main.py]

    A shallow embedding of [src/main.py] and the properties of its
    retrying extractor, its insert operation and its ingestion run, and of
    the initialisation of its database and its entry point.

    A Python [str] is a [string]: the bytes of its UTF-8 encoding.  A [str]
    can hold code points that UTF-8 does not encode, the lone surrogates: a
    JSON escape gives one, and so does a byte of a file name that is no
    UTF-8.  They are kept as bytes that are no UTF-8 either: the three bytes
    a surrogate would have for the first, the byte of the file name itself
    for the second.  So a path is the bytes the file system has for it, two
    [str] are equal when their bytes are, and a [str] can be encoded as
    UTF-8 ([Str.encodable]) exactly when its bytes are UTF-8.

    The file system is a finite map from paths to files, the set of known
    image references is a [gset string], the products table is a list of
    rows with its AUTOINCREMENT counter.  The functions that touch the
    outside world thread a [state] and may raise; they live in the small
    monad [M] below. *)

From Stdlib Require Import String Ascii ZArith List Bool Lia DecimalString.
From Stdlib.Strings Require Import Byte.
From stdpp Require Import gmap strings.

Local Open Scope string_scope.
Local Open Scope list_scope.

#[local] Arguments String.append !s1 s2 : simpl nomatch.
#[local] Arguments ascii_dec : simpl never.

(* ===================================================================== *)
(** ** Python [str] methods used by the script *)
(* ===================================================================== *)

Module Str.

(** The line feed and the double quote. *)
Definition LF : ascii := "010"%char.
Definition DQ : ascii := "034"%char.

(** [s.startswith(p)] *)
Definition startswith (p s : string) : bool := String.prefix p s.

Fixpoint map (f : ascii -> ascii) (s : string) : string :=
  match s with
  | EmptyString => EmptyString
  | String c s' => String (f c) (map f s')
  end.

Fixpoint rev_onto (s acc : string) : string :=
  match s with
  | EmptyString => acc
  | String c s' => rev_onto s' (String c acc)
  end.

Definition rev (s : string) : string := rev_onto s EmptyString.

(** [s.endswith(suf)] *)
Definition endswith (suf s : string) : bool := String.prefix (rev suf) (rev s).

(** [str.lower] on the ASCII letters: A-Z are shifted by 32.  The other
    bytes are left as they are; the script lowers a file name only to ask
    whether it ends with an ASCII extension, and the lower case of a
    character that is not ASCII never ends with a letter of one. *)
Definition lower_char (c : ascii) : ascii :=
  let n := N_of_ascii c in
  if ((65 <=? n) && (n <=? 90))%N then ascii_of_N (n + 32) else c.

Definition lower (s : string) : string := map lower_char s.

(** The code points for which [str.isspace] holds, by the bytes of their
    encoding.  One byte: TAB, LF, VT, FF, CR, the separators 0x1c-0x1f and
    the space. *)
Definition isspace (c : ascii) : bool :=
  let n := N_of_ascii c in
  (((9 <=? n) && (n <=? 13)) || ((28 <=? n) && (n <=? 32)))%N.

(** Two bytes: U+0085 and U+00A0. *)
Definition isspace2 (a b : ascii) : bool :=
  let x := N_of_ascii a in
  let y := N_of_ascii b in
  ((x =? 194) && ((y =? 133) || (y =? 160)))%N.

(** Three bytes: U+1680, U+2000 to U+200A, U+2028, U+2029, U+202F, U+205F
    and U+3000. *)
Definition isspace3 (a b c : ascii) : bool :=
  let x := N_of_ascii a in
  let y := N_of_ascii b in
  let z := N_of_ascii c in
  (((x =? 225) && (y =? 154) && (z =? 128))
   || ((x =? 226) && (y =? 128)
       && (((128 <=? z) && (z <=? 138)) || (z =? 168) || (z =? 169) || (z =? 175)))
   || ((x =? 226) && (y =? 129) && (z =? 159))
   || ((x =? 227) && (y =? 128) && (z =? 128)))%N.

(** The string without the white space it starts with; [sp2] and [sp3]
    tell the white space of two and of three bytes. *)
Fixpoint lstrip_with (sp2 : ascii -> ascii -> bool)
    (sp3 : ascii -> ascii -> ascii -> bool) (s : string) : string :=
  match s with
  | EmptyString => EmptyString
  | String a s1 =>
      if isspace a then lstrip_with sp2 sp3 s1
      else match s1 with
           | EmptyString => s
           | String b s2 =>
               if sp2 a b then lstrip_with sp2 sp3 s2
               else match s2 with
                    | EmptyString => s
                    | String c s3 =>
                        if sp3 a b c then lstrip_with sp2 sp3 s3 else s
                    end
           end
  end.

Definition lstrip (s : string) : string := lstrip_with isspace2 isspace3 s.

(** At the end the bytes of a code point are met last byte first. *)
Definition rstrip (s : string) : string :=
  rev (lstrip_with (fun b a => isspace2 a b) (fun c b a => isspace3 a b c)
         (rev s)).

(** [s.strip()] *)
Definition strip (s : string) : string := rstrip (lstrip s).

(** Whether the bytes are UTF-8: each code point in its shortest form, none
    above U+10FFFF, no surrogate.  It is what [s.encode('utf-8')] asks of
    [s]; [UnicodeEncodeError] is raised otherwise. *)
Definition continuation (c : ascii) : bool :=
  let n := N_of_ascii c in ((128 <=? n) && (n <=? 191))%N.

Fixpoint encodable (s : string) : bool :=
  match s with
  | EmptyString => true
  | String a s1 =>
      let x := N_of_ascii a in
      if (x <? 128)%N then encodable s1
      else match s1 with
           | EmptyString => false
           | String b s2 =>
               let y := N_of_ascii b in
               if ((194 <=? x) && (x <=? 223))%N
               then continuation b && encodable s2
               else match s2 with
                    | EmptyString => false
                    | String c s3 =>
                        if ((224 <=? x) && (x <=? 239))%N
                        then continuation b && continuation c
                             && (if (x =? 224)%N then (160 <=? y)%N else true)
                             && (if (x =? 237)%N then (y <=? 159)%N else true)
                             && encodable s3
                        else match s3 with
                             | EmptyString => false
                             | String d s4 =>
                                 ((240 <=? x) && (x <=? 244))%N
                                 && continuation b && continuation c
                                 && continuation d
                                 && (if (x =? 240)%N then (144 <=? y)%N else true)
                                 && (if (x =? 244)%N then (y <=? 143)%N else true)
                                 && encodable s4
                             end
                    end
           end
  end.

(** [s.replace(a, b)] for one-character [a] and [b]. *)
Definition replace_char (a b : ascii) (s : string) : string :=
  map (fun c => if Ascii.eqb c a then b else c) s.

(** [sep.join(l)] *)
Definition join (sep : string) (l : list string) : string :=
  String.concat sep l.

Definition cons_head (c : ascii) (l : list string) : list string :=
  match l with
  | [] => [String c EmptyString]
  | h :: t => String c h :: t
  end.

(** [s.split(sep)] for a non-empty [sep]: the occurrences of [sep] are
    found from the left and do not overlap.  [skip] counts the characters
    of an occurrence that are still to be dropped. *)
Fixpoint split_from (sep : string) (skip : nat) (s : string) : list string :=
  match s with
  | EmptyString => [EmptyString]
  | String c s' =>
      match skip with
      | S k => split_from sep k s'
      | O =>
          if String.prefix sep s
          then EmptyString :: split_from sep (String.length sep - 1) s'
          else cons_head c (split_from sep 0 s')
      end
  end.

Definition split (sep s : string) : list string := split_from sep 0 s.

(** [s.split(c, 1)]: at most one cut, at the first [c]. *)
Fixpoint split_once (c : ascii) (s : string) : list string :=
  match s with
  | EmptyString => [EmptyString]
  | String x s' =>
      if Ascii.eqb x c then [EmptyString; s']
      else match split_once c s' with
           | h :: t => String x h :: t
           | [] => [String x EmptyString]
           end
  end.

(** [s.rsplit(c, 1)]: at most one cut, at the last [c]. *)
Definition rsplit_once (c : ascii) (s : string) : list string :=
  match split_once c (rev s) with
  | [a] => [rev a]
  | a :: b :: _ => [rev b; rev a]
  | [] => [s]
  end.

(** [needle in s] *)
Fixpoint contains (needle s : string) : bool :=
  String.prefix needle s
  || match s with
     | EmptyString => false
     | String _ s' => contains needle s'
     end.

End Str.

(* ===================================================================== *)
(** ** [os.path] on POSIX path strings *)
(* ===================================================================== *)

Module Path.

Definition sep : string := "/".

(** [os.path.join(a, b)] *)
Definition join (a b : string) : string :=
  if Str.startswith sep b then b
  else if String.eqb a "" || Str.endswith sep a then a ++ b
  else a ++ sep ++ b.

(** [os.path.join(a, b, c)] *)
Definition join3 (a b c : string) : string := join (join a b) c.

(** The loop of [posixpath.normpath] over the components of a relative
    path: empty and [.] components are dropped, [..] removes the
    component before it when there is one to remove. *)
Fixpoint norm_comps (comps acc : list string) : list string :=
  match comps with
  | [] => acc
  | comp :: rest =>
      if String.eqb comp "" || String.eqb comp "." then norm_comps rest acc
      else if negb (String.eqb comp "..") then norm_comps rest (acc ++ [comp])
      else match List.rev acc with
           | [] => norm_comps rest (acc ++ [comp])
           | last :: _ =>
               if String.eqb last ".." then norm_comps rest (acc ++ [comp])
               else norm_comps rest (removelast acc)
           end
  end.

(** The components of [normpath(p)] for a relative path [p]. *)
Definition components (p : string) : list string :=
  norm_comps (Str.split sep p) [].

Fixpoint common_prefix_length (a b : list string) : nat :=
  match a, b with
  | x :: a', y :: b' =>
      if String.eqb x y then S (common_prefix_length a' b') else O
  | _, _ => O
  end.

(** [os.path.relpath(path, start)] for two relative paths that do not
    climb above the current directory.  The library first makes both
    absolute under the current directory; that shared prefix is common to
    both component lists and is dropped again by the common-prefix step, so
    it is left out here. *)
Definition relpath (path start : string) : string :=
  let start_list := components start in
  let path_list := components path in
  let i := common_prefix_length start_list path_list in
  let rel_list :=
    List.repeat ".." (List.length start_list - i) ++ List.skipn i path_list in
  match rel_list with
  | [] => "."
  | _ => Str.join sep rel_list
  end.

End Path.

(* ===================================================================== *)
(** ** Values, exceptions and the state of the outside world *)
(* ===================================================================== *)

(** What [json.loads] returns.  A [float] is the finite binary64 value
    [m * 2^e]; a [dict] is the list of its items in insertion order, with
    pairwise distinct keys. *)
#[warning="-register-all"]
Inductive json : Type :=
| JNull
| JBool (b : bool)
| JInt (z : Z)
| JFloat (m e : Z)
| JStr (s : string)
| JArr (l : list json)
| JObj (kv : list (string * json)).

(** The exceptions that occur in the script. *)
Inductive exn : Type :=
| RequestException
| JSONDecodeError (doc : string)
| IndexError
| AttributeError
| KeyError (msg : string)
| TypeError
| OverflowError
| UnicodeEncodeError
| Sqlite3Error
| FileNotFoundError
| RetryError.

(** [isinstance(e, sqlite3.Error)], [isinstance(e, KeyError)] *)
Definition is_sqlite3_error (e : exn) : bool :=
  match e with Sqlite3Error => true | _ => false end.
Definition is_key_error (e : exn) : bool :=
  match e with KeyError _ => true | _ => false end.

Inductive result (A : Type) : Type :=
| Ok (a : A)
| Raise (e : exn).
Arguments Ok {A} a.
Arguments Raise {A} e.

(** A value bound to a statement parameter or stored in a column: NULL, an
    integer, the real [m * 2^e], a text.  The last two are values only a
    column holds: the text SQLite writes the real [m * 2^e] as, and the real
    SQLite reads the numeric literal [s] as; their digits are not worked
    out here. *)
Inductive sqlval : Type :=
| SNull
| SInt (z : Z)
| SReal (m e : Z)
| SText (s : string)
| STextOfReal (m e : Z)
| SRealOfText (s : string).

(** A row of the [products] table. *)
Record row : Type := Row {
  id : Z;
  name : sqlval;
  description : sqlval;
  image_url : string;
  category : sqlval;
  material : sqlval;
  color : sqlval;
  dimensions : sqlval;
  origin_source : sqlval;
  import_cost : sqlval;
  retail_price : sqlval;
  key_tags : sqlval
}.

(** The [products] table with the AUTOINCREMENT counter kept for it. *)
Record database : Type := Database {
  rows : list row;
  seq : Z
}.

(** A file of the file system: its bytes, or a file that cannot be read. *)
Inductive file : Type :=
| File (content : list byte)
| Unreadable.

(** What the HTTP POST of one attempt does: it raises (connection error,
    timeout); or a response comes back with a status and a JSON body, with
    the string at [choices[0].message.content] when there is one; or a
    response comes back with a status and a body that is not JSON. *)
Inductive http_result : Type :=
| PostRaised
| PostReturned (status : nat) (content : option string)
| PostReturnedNoJson (status : nat).

(** The body of a response as [response.json()] finds it. *)
Inductive body : Type :=
| NotJson
| Json (content : option string).

(** The calls of [logging] in the script, one constructor per call. *)
Inductive log_entry : Type :=
| LogImageNotFound (path : string)
| LogErrorEncoding (path : string)
| LogSendingRequest
| LogResponseStatus (status : nat)
| LogResponseText (text : string)
| LogRequestFailed
| LogDecodeFailed
| LogRawResponseText (text : string)
| LogUnexpected
| LogInsertedRow (img_path : string)
| LogInsertFailed
| LogStart
| LogBatchDir (dir : string)
| LogTraversing (root : string)
| LogFoundFile (filename : string)
| LogProcessing (image_path : string)
| LogProcessed (filename : string)
| LogErrorInserting (filename msg : string)
| LogFailedAnalyze (filename : string)
| LogAlreadyExists (filename : string)
| LogCouldNotEncode (filename : string)
| LogFinished (dir : string).

Inductive level : Type := DEBUG | INFO | WARNING | ERROR.

Definition level_of (l : log_entry) : level :=
  match l with
  | LogImageNotFound _ | LogErrorEncoding _ | LogRequestFailed
  | LogDecodeFailed | LogRawResponseText _ | LogUnexpected
  | LogInsertFailed | LogErrorInserting _ _ | LogFailedAnalyze _ => ERROR
  | LogCouldNotEncode _ => WARNING
  | LogSendingRequest | LogResponseStatus _ | LogResponseText _ => DEBUG
  | _ => INFO
  end.

(** What the process does to the outside world, in the order it does it. *)
Inductive event : Type :=
| Log (l : log_entry)
| FileOpen (path : string)
| HttpPost (call : nat) (image_base64 : string)
| Sleep
| MakeDirs (path : string)
| Move (src dst : string)
| SqlInsert (img_path : string).

(** The state a run works on: the files by path, the table as the open
    connection sees it, the number of requests sent so far, the local
    variable [existing_images] of [process_uploaded_images], and the events
    so far (oldest first). *)
Record state : Type := State {
  fs : gmap string file;
  db : database;
  calls : nat;
  existing_images : gset string;
  trace : list event
}.

Definition set_fs (f : gmap string file) (st : state) : state :=
  State f (db st) (calls st) (existing_images st) (trace st).
Definition set_db (d : database) (st : state) : state :=
  State (fs st) d (calls st) (existing_images st) (trace st).
Definition set_calls (n : nat) (st : state) : state :=
  State (fs st) (db st) n (existing_images st) (trace st).
Definition set_existing_images (s : gset string) (st : state) : state :=
  State (fs st) (db st) (calls st) s (trace st).
Definition add_event (e : event) (st : state) : state :=
  State (fs st) (db st) (calls st) (existing_images st) (trace st ++ [e]).

(* ===================================================================== *)
(** ** The monad of the script: state and exceptions *)
(* ===================================================================== *)

Definition M (A : Type) : Type := state -> result A * state.

Definition ret {A} (a : A) : M A := fun st => (Ok a, st).
Definition raise {A} (e : exn) : M A := fun st => (Raise e, st).
Definition bind {A B} (m : M A) (k : A -> M B) : M B :=
  fun st =>
    match m st with
    | (Ok a, st') => k a st'
    | (Raise e, st') => (Raise e, st')
    end.

(** [try: m  except <catches>: handler] *)
Definition try_except {A} (m : M A) (catches : exn -> bool) (handler : exn -> M A)
  : M A :=
  fun st =>
    match m st with
    | (Ok a, st') => (Ok a, st')
    | (Raise e, st') => if catches e then handler e st' else (Raise e, st')
    end.

Definition lift {A} (r : result A) : M A := fun st => (r, st).
Definition emit (e : event) : M unit := fun st => (Ok tt, add_event e st).
Definition logging (l : log_entry) : M unit := emit (Log l).
Definition get_state : M state := fun st => (Ok st, st).

Declare Scope py_scope.
Delimit Scope py_scope with py.
Notation "x <- m ;; k" := (bind m (fun x => k))
  (at level 100, m at next level, right associativity) : py_scope.
Notation "m ;; k" := (bind m (fun _ => k))
  (at level 100, right associativity) : py_scope.
Local Open Scope py_scope.

(* ===================================================================== *)
(** ** [encode_image_to_base64] *)
(* ===================================================================== *)

Definition b64_alphabet : string :=
  "ABCDEFGHIJKLMNOPQRSTUVWXYZabcdefghijklmnopqrstuvwxyz0123456789+/".

Definition b64_char (n : N) : ascii :=
  match String.get (N.to_nat n) b64_alphabet with
  | Some c => c
  | None => "="%char
  end.

(** [base64.b64encode(bytes).decode('utf-8')] *)
Fixpoint b64encode (bs : list byte) : string :=
  match bs with
  | [] => ""
  | [a] =>
      let x := Byte.to_N a in
      String (b64_char (x / 4)) (String (b64_char ((x mod 4) * 16)) "==")
  | [a; b] =>
      let x := Byte.to_N a in
      let y := Byte.to_N b in
      String (b64_char (x / 4))
        (String (b64_char ((x mod 4) * 16 + y / 16))
           (String (b64_char ((y mod 16) * 4)) "="))
  | a :: b :: c :: rest =>
      let x := Byte.to_N a in
      let y := Byte.to_N b in
      let z := Byte.to_N c in
      String (b64_char (x / 4))
        (String (b64_char ((x mod 4) * 16 + y / 16))
           (String (b64_char ((y mod 16) * 4 + z / 64))
              (String (b64_char (z mod 64)) (b64encode rest))))
  end%N.

(** The file is opened and read; a missing file and any other failure are
    logged and give [None]. *)
Definition encode_image_to_base64 (image_path : string) : M (option string) :=
  emit (FileOpen image_path) ;;
  st <- get_state ;;
  match fs st !! image_path with
  | Some (File content) => ret (Some (b64encode content))
  | None => logging (LogImageNotFound image_path) ;; ret None
  | Some Unreadable => logging (LogErrorEncoding image_path) ;; ret None
  end.

(* ===================================================================== *)
(** ** Configuration *)
(* ===================================================================== *)

Definition DATA_DIR : string := "data".
Definition UPLOADS_DIR : string := Path.join3 DATA_DIR "images" "uploads".
Definition INVENTORY_IMAGES_DIR : string := Path.join3 DATA_DIR "images" "inventory".

(** What [os.walk] lists below a directory: the names of its files and its
    sub-directories with what is below them. *)
#[warning="-register-all"]
Inductive dirtree : Type :=
| Dir (files : list string) (subdirs : list (string * dirtree)).

(** [os.walk(top)], top-down; the script only reads [root] and [files].
    The generator lists a directory when it reaches it; the loop of the
    script only takes files out of directories that were listed already and
    puts them outside the upload root, so the listing can be taken as a
    whole before the loop. *)
Fixpoint os_walk (top : string) (t : dirtree) : list (string * list string) :=
  match t with
  | Dir files subdirs =>
      (top, files) ::
      (fix below (l : list (string * dirtree)) : list (string * list string) :=
         match l with
         | [] => []
         | (dname, sub) :: l' => os_walk (Path.join top dname) sub ++ below l'
         end) subdirs
  end.

Section Script.

(** [json.loads]: the parsed value, or [None] when it raises. *)
Variable json_loads : string -> option json.

(** The inference service: what the POST of the [n]-th request of the
    process (counted from 0) does for a given encoded image. *)
Variable backend : nat -> string -> http_result.

(* =================================================================== *)
(** ** [analyze_image] *)
(* =================================================================== *)


(** [requests.post(..., timeout=30)] *)
Definition requests_post (image_base64 : string) : M (nat * body) :=
  fun st =>
    let st' :=
      add_event (HttpPost (calls st) image_base64) (set_calls (S (calls st)) st) in
    match backend (calls st) image_base64 with
    | PostRaised => (Raise RequestException, st')
    | PostReturned status content => (Ok (status, Json content), st')
    | PostReturnedNoJson status => (Ok (status, NotJson), st')
    end.

(** [response.raise_for_status()] *)
Definition raise_for_status (status : nat) : M unit :=
  if ((400 <=? status) && (status <? 600))%nat then raise RequestException
  else ret tt.

(** [response.json()['choices'][0]['message']['content'].strip()]: for a
    body that is not JSON [response.json()] raises the [JSONDecodeError] of
    [requests], which is a [RequestException]; a JSON body without a string
    at that place makes a subscript or [strip] raise (a [KeyError], an
    [IndexError], a [TypeError] or an [AttributeError], all of which only
    the last [except] clause catches). *)
Definition content_text (response_body : body) : M string :=
  match response_body with
  | NotJson => raise RequestException
  | Json (Some text) => ret (Str.strip text)
  | Json None => raise AttributeError
  end.

(** [response_text.split("\n", 1)[1].rsplit("\n", 1)[0]] *)
Definition strip_fence (response_text : string) : M string :=
  match Str.split_once Str.LF response_text with
  | _ :: rest :: _ =>
      match Str.rsplit_once Str.LF rest with
      | body :: _ => ret body
      | [] => raise IndexError
      end
  | _ => raise IndexError
  end.

(** The body of [analyze_image]: one request and the parse of its answer.
    Every exception of the [try] block is caught and gives [{}]. *)
Definition analyze_image_body (image_base64 : string) : M json :=
  try_except
    (logging LogSendingRequest ;;
     response <- requests_post image_base64 ;;
     raise_for_status (fst response) ;;
     logging (LogResponseStatus (fst response)) ;;
     response_text <- content_text (snd response) ;;
     logging (LogResponseText response_text) ;;
     response_text <-
       (if Str.startswith "```json" response_text
        then strip_fence response_text
        else ret response_text) ;;
     let response_text := Str.replace_char "'" Str.DQ response_text in
     match json_loads response_text with
     | Some v => ret v
     | None => raise (JSONDecodeError response_text)
     end)
    (fun _ => true)
    (fun e =>
       match e with
       | RequestException => logging LogRequestFailed ;; ret (JObj [])
       | JSONDecodeError response_text =>
           logging LogDecodeFailed ;;
           logging (LogRawResponseText response_text) ;;
           ret (JObj [])
       | _ => logging LogUnexpected ;; ret (JObj [])
       end).

(** tenacity's [retry]: the function is called again, after a wait, each
    time it raises, until [stop_after_attempt] calls have been made; the
    last failure is raised as [RetryError].  The length of the wait
    (random, between 1 and 40) is not represented. *)
Fixpoint retrying {A} (remaining : nat) (f : M A) : M A :=
  fun st =>
    match f st with
    | (Ok a, st') => (Ok a, st')
    | (Raise e, st') =>
        match remaining with
        | O => (Raise RetryError, st')
        | S r => retrying r f (add_event Sleep st')
        end
    end.

Definition retry {A} (stop_after_attempt : nat) (f : M A) : M A :=
  retrying (stop_after_attempt - 1) f.

(** [@retry(wait=wait_random_exponential(min=1, max=40),
           stop=stop_after_attempt(6))] *)
Definition analyze_image (image_base64 : string) : M json :=
  retry 6 (analyze_image_body image_base64).

(* =================================================================== *)
(** ** [insert_product_info] *)
(* =================================================================== *)

Definition required_keys : list string :=
  ["name"; "description"; "category"; "material"; "color"; "dimensions";
   "origin_source"; "import_cost"; "retail_price"; "key_tags"].

Definition is_str (key : string) (v : json) : bool :=
  match v with
  | JStr s => String.eqb s key
  | _ => false
  end.

Definition has_key (key : string) (kv : list (string * json)) : bool :=
  existsb (fun p => String.eqb (fst p) key) kv.

Fixpoint assoc (key : string) (kv : list (string * json)) : option json :=
  match kv with
  | [] => None
  | (k, v) :: kv' => if String.eqb k key then Some v else assoc key kv'
  end.

(** [key in product_info] *)
Definition contains_key (key : string) (product_info : json) : result bool :=
  match product_info with
  | JObj kv => Ok (has_key key kv)
  | JArr l => Ok (existsb (is_str key) l)
  | JStr s => Ok (Str.contains key s)
  | _ => Raise TypeError
  end.

(** [product_info[key]] *)
Definition getitem (product_info : json) (key : string) : result json :=
  match product_info with
  | JObj kv =>
      match assoc key kv with
      | Some v => Ok v
      | None => Raise (KeyError key)
      end
  | _ => Raise TypeError
  end.

(** The loop over [required_keys]. *)
Fixpoint check_required (keys : list string) (product_info : json)
  : result unit :=
  match keys with
  | [] => Ok tt
  | key :: keys' =>
      match contains_key key product_info with
      | Ok true => check_required keys' product_info
      | Ok false => Raise (KeyError ("Missing required field: " ++ key))
      | Raise e => Raise e
      end
  end.

Fixpoint strs_of (l : list json) : option (list string) :=
  match l with
  | [] => Some []
  | JStr s :: l' =>
      match strs_of l' with
      | Some ss => Some (s :: ss)
      | None => None
      end
  | _ :: _ => None
  end.

(** [sep.join(l)]: every item must be a [str]. *)
Definition py_join (sep : string) (l : list json) : result json :=
  match strs_of l with
  | Some ss => Ok (JStr (Str.join sep ss))
  | None => Raise TypeError
  end.

(** [sep.join(product_info[key]) if isinstance(product_info[key], list)
     else product_info[key]] *)
Definition list_field_to_string (sep : string) (product_info : json)
    (key : string) : result json :=
  match getitem product_info key with
  | Ok (JArr l) => py_join sep l
  | other => other
  end.

(** How [sqlite3] binds a Python value to a parameter: [None] as NULL, an
    [int] (a [bool] is one) as a 64-bit integer, a [float] as a real, a
    [str] as the text of its UTF-8 encoding.  An [int] that does not fit
    raises [OverflowError], a [str] that cannot be encoded raises
    [UnicodeEncodeError], and a list or a dict is refused with a
    [sqlite3.Error]. *)
Definition bind_param (v : json) : result sqlval :=
  match v with
  | JNull => Ok SNull
  | JBool b => Ok (SInt (if b then 1 else 0))
  | JInt z =>
      if ((- 2 ^ 63 <=? z) && (z <? 2 ^ 63))%Z then Ok (SInt z)
      else Raise OverflowError
  | JFloat m e => Ok (SReal m e)
  | JStr s => if Str.encodable s then Ok (SText s) else Raise UnicodeEncodeError
  | JArr _ | JObj _ => Raise Sqlite3Error
  end.

(** The path of the image is a [str]: bound as a text, when it can be
    encoded. *)
Definition bind_str (s : string) : result string :=
  if Str.encodable s then Ok s else Raise UnicodeEncodeError.

(** The white space of SQLite: TAB, LF, VT, FF, CR and the space. *)
Definition sqlite_isspace (c : ascii) : bool :=
  let n := N_of_ascii c in (((9 <=? n) && (n <=? 13)) || (n =? 32))%N.

Definition sqlite_isdigit (c : ascii) : bool :=
  let n := N_of_ascii c in ((48 <=? n) && (n <=? 57))%N.

Fixpoint skip_spaces (s : string) : string :=
  match s with
  | String c s' => if sqlite_isspace c then skip_spaces s' else s
  | EmptyString => s
  end.

(** The digits a string starts with: how many, and what follows them. *)
Fixpoint skip_digits (s : string) : nat * string :=
  match s with
  | String c s' =>
      if sqlite_isdigit c
      then (let r := skip_digits s' in (S (fst r), snd r))
      else (O, s)
  | EmptyString => (O, s)
  end.

Definition skip_sign (s : string) : string :=
  match s with
  | String c s' => if Ascii.eqb c "-" || Ascii.eqb c "+" then s' else s
  | EmptyString => s
  end.

(** Whether SQLite takes a text for a number: white space, a sign, digits,
    a point and digits, an exponent (the letter e, a sign, at least one
    digit), white space, each of them optional but for one digit before the
    exponent, and nothing else. *)
Definition numeric_literal (s : string) : bool :=
  let whole := skip_digits (skip_sign (skip_spaces s)) in
  let fraction :=
    match snd whole with
    | String "." s' => skip_digits s'
    | s' => (O, s')
    end in
  let exponent :=
    match snd fraction with
    | String c s' =>
        if Ascii.eqb c "e" || Ascii.eqb c "E"
        then (let digits := skip_digits (skip_sign s') in
              (Nat.ltb 0 (fst digits), snd digits))
        else (true, snd fraction)
    | EmptyString => (true, EmptyString)
    end in
  Nat.ltb 0 (fst whole + fst fraction) && fst exponent
  && String.eqb (skip_spaces (snd exponent)) "".

(** The binary64 value nearest to an integer (ties to even), as a mantissa
    and an exponent. *)
Definition real_of_int (z : Z) : Z * Z :=
  let a := Z.abs z in
  if (a <? 2 ^ 53)%Z then (z, 0%Z)
  else
    let e := (Z.log2 a - 52)%Z in
    let q := (a / 2 ^ e)%Z in
    let r := (a mod 2 ^ e)%Z in
    let half := (2 ^ (e - 1))%Z in
    let q' := if ((half <? r) || ((half =? r) && Z.odd q))%Z then (q + 1)%Z else q in
    ((Z.sgn z * q')%Z, e).

(** What a column declared TEXT stores of a value: a number as its text. *)
Definition text_affinity (v : sqlval) : sqlval :=
  match v with
  | SInt z => SText (NilZero.string_of_int (Z.to_int z))
  | SReal m e => STextOfReal m e
  | _ => v
  end.

(** What a column declared REAL stores of a value: an integer as a real,
    and a text that reads as a number as that number. *)
Definition real_affinity (v : sqlval) : sqlval :=
  match v with
  | SInt z => SReal (fst (real_of_int z)) (snd (real_of_int z))
  | SText s => if numeric_literal s then SRealOfText s else v
  | _ => v
  end.

(** The greatest id of the rows; 0 when there is none. *)
Definition max_id (rs : list row) : Z :=
  match rs with
  | [] => 0%Z
  | r :: rs' => fold_right (fun r' m => Z.max (id r') m) (id r) rs'
  end.

Definition has_image_url (img_path : string) (rs : list row) : bool :=
  existsb (fun r => String.eqb (image_url r) img_path) rs.

(** The greatest id the table has given out: the AUTOINCREMENT counter, or
    the greatest id of a row when that is more.  SQLite takes the greater of
    the two, and 1 more for the id of the next row. *)
Definition high_water (d : database) : Z := Z.max (seq d) (max_id (rows d)).

(** The greatest id a row can have. *)
Definition MAX_ROWID : Z := (2 ^ 63 - 1)%Z.

(** The INSERT statement on the table.  [id] is the next AUTOINCREMENT
    value, and the statement fails when the greatest id has been given
    out; [image_url] is UNIQUE, and the statement fails when a row has the
    reference; each column stores the value as its declared type has it. *)
Definition sql_insert (d : database)
    (v_name v_description : sqlval) (img_path : string)
    (v_category v_material v_color v_dimensions v_origin_source
       v_import_cost v_retail_price v_key_tags : sqlval)
  : result database :=
  if (MAX_ROWID <=? high_water d)%Z then Raise Sqlite3Error
  else if has_image_url img_path (rows d) then Raise Sqlite3Error
  else
    let new_id := (high_water d + 1)%Z in
    Ok (Database
          (rows d ++
             [Row new_id (text_affinity v_name) (text_affinity v_description)
                img_path (text_affinity v_category) (text_affinity v_material)
                (text_affinity v_color) (text_affinity v_dimensions)
                (text_affinity v_origin_source) (real_affinity v_import_cost)
                (real_affinity v_retail_price) (text_affinity v_key_tags)])
          new_id).

(** [cursor.execute('INSERT INTO products ...', (...))]: the parameters
    are bound in the order of the tuple, the first that cannot be bound
    raises; then the statement runs. *)
Definition cursor_execute_insert (p_name p_description : json)
    (img_path : string)
    (p_category p_material p_color p_dimensions p_origin_source
       p_import_cost p_retail_price p_key_tags : json) : M unit :=
  emit (SqlInsert img_path) ;;
  v_name <- lift (bind_param p_name) ;;
  v_description <- lift (bind_param p_description) ;;
  v_image_url <- lift (bind_str img_path) ;;
  v_category <- lift (bind_param p_category) ;;
  v_material <- lift (bind_param p_material) ;;
  v_color <- lift (bind_param p_color) ;;
  v_dimensions <- lift (bind_param p_dimensions) ;;
  v_origin_source <- lift (bind_param p_origin_source) ;;
  v_import_cost <- lift (bind_param p_import_cost) ;;
  v_retail_price <- lift (bind_param p_retail_price) ;;
  v_key_tags <- lift (bind_param p_key_tags) ;;
  st <- get_state ;;
  d <- lift (sql_insert (db st) v_name v_description v_image_url v_category
               v_material v_color v_dimensions v_origin_source v_import_cost
               v_retail_price v_key_tags) ;;
  fun st => (Ok tt, set_db d st).

Definition insert_product_info (product_info : json) (img_path : string)
  : M unit :=
  lift (check_required required_keys product_info) ;;
  description <- lift (list_field_to_string (String Str.LF "") product_info "description") ;;
  key_tags <- lift (list_field_to_string ", " product_info "key_tags") ;;
  try_except
    (p_name <- lift (getitem product_info "name") ;;
     p_category <- lift (getitem product_info "category") ;;
     p_material <- lift (getitem product_info "material") ;;
     p_color <- lift (getitem product_info "color") ;;
     p_dimensions <- lift (getitem product_info "dimensions") ;;
     p_origin_source <- lift (getitem product_info "origin_source") ;;
     p_import_cost <- lift (getitem product_info "import_cost") ;;
     p_retail_price <- lift (getitem product_info "retail_price") ;;
     cursor_execute_insert p_name description img_path p_category p_material
       p_color p_dimensions p_origin_source p_import_cost p_retail_price
       key_tags ;;
     logging (LogInsertedRow img_path))
    is_sqlite3_error
    (fun _ => logging LogInsertFailed).

(* =================================================================== *)
(** ** [process_uploaded_images] *)
(* =================================================================== *)

Definition image_extensions : list string :=
  [".png"; ".jpg"; ".jpeg"; ".gif"; ".webp"].

(** [filename.lower().endswith(('.png', '.jpg', '.jpeg', '.gif', '.webp'))] *)
Definition is_image (filename : string) : bool :=
  existsb (fun ext => Str.endswith ext (Str.lower filename)) image_extensions.

(** The truth value of a Python value in an [if]. *)
Definition truthy (v : json) : bool :=
  match v with
  | JNull => false
  | JBool b => b
  | JInt z => negb (z =? 0)%Z
  | JFloat m _ => negb (m =? 0)%Z
  | JStr s => negb (String.eqb s "")
  | JArr l => match l with [] => false | _ => true end
  | JObj kv => match kv with [] => false | _ => true end
  end.

(** [shutil.move(src, dst)] of a file onto a path that is not a directory. *)
Definition shutil_move (src dst : string) : M unit :=
  fun st =>
    match fs st !! src with
    | Some f =>
        (Ok tt, add_event (Move src dst) (set_fs (<[dst := f]> (delete src (fs st))) st))
    | None => (Raise FileNotFoundError, st)
    end.

Definition relative_path_of (root : string) : string :=
  let relative_path := Path.relpath root UPLOADS_DIR in
  if String.eqb relative_path "." then "" else relative_path.

Definition new_image_path_of (batch_dir root filename : string) : string :=
  Path.join (Path.join batch_dir (relative_path_of root)) filename.

(** The argument of the caught [KeyError], for the log. *)
Definition key_error_text (e : exn) : string :=
  match e with
  | KeyError msg => msg
  | _ => ""
  end.

(** The body of the loop over [files]. *)
Definition process_file (batch_dir root filename : string) : M unit :=
  logging (LogFoundFile filename) ;;
  if is_image filename then
    let image_path := Path.join root filename in
    logging (LogProcessing image_path) ;;
    encoded_image <- encode_image_to_base64 image_path ;;
    match encoded_image with
    | Some (String c enc) =>
        let encoded_image := String c enc in
        let relative_path := relative_path_of root in
        let new_image_dir := Path.join batch_dir relative_path in
        emit (MakeDirs new_image_dir) ;;
        let new_image_path := Path.join new_image_dir filename in
        st <- get_state ;;
        if decide (new_image_path ∉ existing_images st) then
          product_info <- analyze_image encoded_image ;;
          if truthy product_info then
            try_except
              (shutil_move image_path new_image_path ;;
               insert_product_info product_info new_image_path ;;
               logging (LogProcessed filename))
              is_key_error
              (fun e => logging (LogErrorInserting filename (key_error_text e)))
          else logging (LogFailedAnalyze filename)
        else logging (LogAlreadyExists filename)
    | _ => logging (LogCouldNotEncode filename)
    end
  else ret tt.

Fixpoint process_files (batch_dir root : string) (files : list string)
  : M unit :=
  match files with
  | [] => ret tt
  | filename :: files' =>
      process_file batch_dir root filename ;;
      process_files batch_dir root files'
  end.

(** The loop over [os.walk(UPLOADS_DIR)]. *)
Fixpoint process_walk (batch_dir : string) (walk : list (string * list string))
  : M unit :=
  match walk with
  | [] => ret tt
  | (root, files) :: walk' =>
      logging (LogTraversing root) ;;
      process_files batch_dir root files ;;
      process_walk batch_dir walk'
  end.

(** [set(row[0] for row in cursor.fetchall())] after
    [SELECT image_url FROM products] *)
Definition select_image_urls (d : database) : gset string :=
  list_to_set (List.map image_url (rows d)).

(** One run.  [timestamp] is [datetime.now().strftime("%Y%m%d-%H%M%S")]
    and [walk] what [os.walk(UPLOADS_DIR)] yields.  The connection is a
    context manager: the inserts are committed when the block ends and
    rolled back when an exception leaves it. *)
Definition process_uploaded_images (timestamp : string)
    (walk : list (string * list string)) : M unit :=
  fun st =>
    let batch_dir := Path.join INVENTORY_IMAGES_DIR timestamp in
    let body :=
      (logging LogStart ;;
       (fun s => (Ok tt, set_existing_images (select_image_urls (db s)) s)) ;;
       emit (MakeDirs batch_dir) ;;
       logging (LogBatchDir batch_dir) ;;
       process_walk batch_dir walk) in
    match body st with
    | (Ok _, st') => (Ok tt, add_event (Log (LogFinished batch_dir)) st')
    | (Raise e, st') => (Raise e, set_db (db st) st')
    end.

End Script.

(* ===================================================================== *)
(** ** The database file and [initialize_database] *)
(* ===================================================================== *)

(** A table as the database file holds it: the names of its columns in
    their order, its rows (one value for each column), and the
    AUTOINCREMENT counter kept for it.  How the columns are declared is not
    part of it: a table with the twelve columns of the CREATE statement of
    the script is taken to have been made by that statement. *)
Record table : Type := Table {
  columns : list string;
  records : list (list sqlval);
  counter : Z
}.

(** [database.sqlite3] as [sqlite3.connect] finds it: something that cannot
    be opened as a database, a database without a table [products] (a file
    that is not there is created as one), or a database with the table. *)
Inductive dbfile : Type :=
| Unusable
| NoProducts
| Products (t : table).

(** The entries [initialize_database] and [main] log. *)
Inductive startup_log : Type :=
| LogMainStart
| LogDatabaseInitialized
| LogDatabaseError
| LogFlagDetected
| LogNoArgument
| LogMainCompleted.

Definition startup_level (l : startup_log) : level :=
  match l with
  | LogDatabaseError => ERROR
  | LogNoArgument => WARNING
  | _ => INFO
  end.

(** The columns of the CREATE TABLE statement. *)
Definition products_columns : list string :=
  ["id"; "name"; "description"; "image_url"; "category"; "material"; "color";
   "dimensions"; "origin_source"; "import_cost"; "retail_price"; "key_tags"].

(** [sqlite3.connect(DB_NAME)]; [None] when it raises [sqlite3.Error]. *)
Definition connect (f : dbfile) : option dbfile :=
  match f with
  | Unusable => None
  | _ => Some f
  end.

(** [CREATE TABLE IF NOT EXISTS products (...)] on an open database: a
    table of that name is left as it is, whatever its columns. *)
Definition create_table_if_not_exists (f : dbfile) : option dbfile :=
  match f with
  | Unusable => None
  | NoProducts => Some (Products (Table products_columns [] 0))
  | Products _ => Some f
  end.

(** [PRAGMA table_info(products)] and
    [[column[1] for column in cursor.fetchall()]]: the names of the
    columns. *)
Definition table_info (f : dbfile) : option (list string) :=
  match f with
  | Unusable => None
  | NoProducts => Some []
  | Products t => Some (columns t)
  end.

(** SQLite compares the names of columns without regard to the case of
    ASCII letters. *)
Definition same_name (a b : string) : bool :=
  String.eqb (Str.lower a) (Str.lower b).

(** [ALTER TABLE products ADD COLUMN <name> TEXT]: the column is added
    after the others and is NULL in the rows there are; the statement
    fails when the table has a column of that name. *)
Definition alter_table_add_column (name : string) (f : dbfile) : option dbfile :=
  match f with
  | Products t =>
      if existsb (same_name name) (columns t) then None
      else Some (Products
                   (Table (columns t ++ [name])
                      (List.map (fun r => r ++ [SNull]) (records t))
                      (counter t)))
  | _ => None
  end.

(** [initialize_database]: the file afterwards and what is logged.  The
    statements are not in a transaction ([sqlite3] opens one before a
    statement that changes rows only), so what a statement has done stays
    when a later one fails.  Every failure is a [sqlite3.Error], which the
    function catches and logs. *)
Definition initialize_database (f : dbfile) : dbfile * list startup_log :=
  match connect f with
  | None => (f, [LogDatabaseError])
  | Some conn =>
      match create_table_if_not_exists conn with
      | None => (conn, [LogDatabaseError])
      | Some created =>
          match table_info created with
          | None => (created, [LogDatabaseError])
          | Some cols =>
              if negb (existsb (String.eqb "key_tags") cols) then
                match alter_table_add_column "key_tags" created with
                | None => (created, [LogDatabaseError])
                | Some altered => (altered, [LogDatabaseInitialized])
                end
              else (created, [LogDatabaseInitialized])
          end
      end
  end.

(* ===================================================================== *)
(** ** [main] *)
(* ===================================================================== *)

(** The values of a row of the table of the CREATE statement, in the order
    of its columns, and back. *)
Definition values_of_row (r : row) : list sqlval :=
  [SInt (id r); name r; description r; SText (image_url r); category r;
   material r; color r; dimensions r; origin_source r; import_cost r;
   retail_price r; key_tags r].

Definition row_of_values (vs : list sqlval) : option row :=
  match vs with
  | [SInt i; n; d; SText u; c; m; co; di; o; ic; rp; kt] =>
      Some (Row i n d u c m co di o ic rp kt)
  | _ => None
  end.

Fixpoint rows_of_records (l : list (list sqlval)) : option (list row) :=
  match l with
  | [] => Some []
  | vs :: l' =>
      match row_of_values vs, rows_of_records l' with
      | Some r, Some rs => Some (r :: rs)
      | _, _ => None
      end
  end.

(** The table [products] when it is the table of the CREATE statement,
    each row with an integer id and a text as image reference: the table
    the statements of [process_uploaded_images] are embedded for. *)
Definition products_table (f : dbfile) : option database :=
  match f with
  | Products t =>
      if bool_decide (columns t = products_columns)
      then option_map (fun rs => Database rs (counter t)) (rows_of_records (records t))
      else None
  | _ => None
  end.

Definition file_of_database (d : database) : dbfile :=
  Products (Table products_columns (List.map values_of_row (rows d)) (seq d)).

(** What the process works on: the database file, the other files, and
    the number of requests sent. *)
Record machine : Type := Machine {
  database_file : dbfile;
  disk : gmap string file;
  sent : nat
}.

(** What the process does, in order: the entries of [main] and of
    [initialize_database], and the events of the run. *)
Inductive step : Type :=
| Startup (l : startup_log)
| Ran (e : event).

(** [len(sys.argv) > 1 and sys.argv[1] == '--process-images'] *)
Definition process_images_flag (argv : list string) : bool :=
  match argv with
  | _ :: arg :: _ => String.eqb arg "--process-images"
  | _ => false
  end.

Section Main.

Variable json_loads : string -> option json.
Variable backend : nat -> string -> http_result.

(** [process_uploaded_images()] on the machine.  The start is logged, then
    the database is opened and the image references are read:
    [sqlite3.connect] raises when the database cannot be opened, and the
    SELECT raises when there is no table or the table has no column
    [image_url]; none of this is caught.  With the table of the CREATE
    statement the run is the one embedded above, on the table as the file
    has it, and the file has the table of the connection when the block is
    left (committed, or rolled back).  For a table that has the column
    [image_url] but is not the table of the CREATE statement nothing is said
    ([None]): what the INSERT does there depends on how its columns are
    declared, which a [table] does not tell.  [initialize_database] leaves
    no such table when it finds none. *)
Definition run_on (timestamp : string) (walk : list (string * list string))
    (m : machine) : option (result unit * machine * list event) :=
  match database_file m with
  | Unusable => Some (Raise Sqlite3Error, m, [Log LogStart])
  | NoProducts => Some (Raise Sqlite3Error, m, [Log LogStart])
  | Products t =>
      if negb (existsb (same_name "image_url") (columns t))
      then Some (Raise Sqlite3Error, m, [Log LogStart])
      else
        match products_table (Products t) with
        | Some d =>
            let r :=
              process_uploaded_images json_loads backend timestamp walk
                (State (disk m) d (sent m) ∅ []) in
            Some (fst r,
                  Machine (file_of_database (db (snd r))) (fs (snd r)) (calls (snd r)),
                  trace (snd r))
        | None => None
        end
  end.

(** [main()], for the arguments [argv] of the process. *)
Definition main (argv : list string) (timestamp : string)
    (walk : list (string * list string)) (m : machine)
  : option (result unit * machine * list step) :=
  let initialized := initialize_database (database_file m) in
  let m1 := Machine (fst initialized) (disk m) (sent m) in
  let started := Startup LogMainStart :: List.map Startup (snd initialized) in
  if process_images_flag argv then
    match run_on timestamp walk m1 with
    | Some (Ok _, m2, evs) =>
        Some (Ok tt, m2,
              started ++ [Startup LogFlagDetected] ++ List.map Ran evs ++
              [Startup LogMainCompleted])
    | Some (Raise e, m2, evs) =>
        Some (Raise e, m2,
              started ++ [Startup LogFlagDetected] ++ List.map Ran evs)
    | None => None
    end
  else
    Some (Ok tt, m1, started ++ [Startup LogNoArgument; Startup LogMainCompleted]).

End Main.

(* ===================================================================== *)
(** ** A reference [json.loads] *)
(* ===================================================================== *)

(** [json.loads] on the documents made of objects, arrays, strings without
    escape sequences, integers, [true], [false] and [null].  It is what the
    examples below run the script with; the theorems hold for every
    [json_loads]. *)
Module Json.

Definition is_ws (c : ascii) : bool :=
  let n := N_of_ascii c in
  ((n =? 32) || (n =? 9) || (n =? 10) || (n =? 13))%N.

Fixpoint skip_ws (s : string) : string :=
  match s with
  | String c s' => if is_ws c then skip_ws s' else s
  | EmptyString => EmptyString
  end.

Definition is_digit (c : ascii) : bool :=
  let n := N_of_ascii c in ((48 <=? n) && (n <=? 57))%N.

(** The characters of a string up to its closing quote. *)
Fixpoint string_body (s : string) : option (string * string) :=
  match s with
  | EmptyString => None
  | String c s' =>
      if Ascii.eqb c Str.DQ then Some (EmptyString, s')
      else if Ascii.eqb c "\" || (N_of_ascii c <? 32)%N then None
      else match string_body s' with
           | Some (body, rest) => Some (String c body, rest)
           | None => None
           end
  end.

Fixpoint digits (acc : Z) (s : string) : Z * string :=
  match s with
  | String c s' =>
      if is_digit c
      then digits (10 * acc + Z.of_N (N_of_ascii c - 48)) s'
      else (acc, s)
  | EmptyString => (acc, s)
  end.

Definition ends_number (s : string) : bool :=
  match s with
  | String c _ =>
      negb (Ascii.eqb c "." || Ascii.eqb c "e" || Ascii.eqb c "E")
  | EmptyString => true
  end.

(** An integer without sign: no leading zero, no fraction, no exponent. *)
Definition natural (s : string) : option (Z * string) :=
  match s with
  | String c s' =>
      if Ascii.eqb c "0"
      then match s' with
           | String d _ => if is_digit d then None
                           else if ends_number s' then Some (0%Z, s') else None
           | EmptyString => Some (0%Z, s')
           end
      else if is_digit c
      then let r := digits 0 s in
           if ends_number (snd r) then Some r else None
      else None
  | EmptyString => None
  end.

(** [d[k] = v] on the items of a dict. *)
Fixpoint dict_set (k : string) (v : json) (kv : list (string * json))
  : list (string * json) :=
  match kv with
  | [] => [(k, v)]
  | (k', v') :: kv' =>
      if String.eqb k' k then (k', v) :: kv' else (k', v') :: dict_set k v kv'
  end.

Definition literal (word : string) (v : json) (s : string)
  : option (json * string) :=
  if String.prefix word s
  then Some (v, String.substring (String.length word)
                  (String.length s - String.length word) s)
  else None.

Fixpoint value (fuel : nat) (s : string) : option (json * string) :=
  match fuel with
  | O => None
  | S fuel' =>
      match skip_ws s with
      | String c rest =>
          if Ascii.eqb c "{" then
            match skip_ws rest with
            | String "}" rest' => Some (JObj [], rest')
            | _ => members fuel' rest []
            end
          else if Ascii.eqb c "[" then
            match skip_ws rest with
            | String "]" rest' => Some (JArr [], rest')
            | _ => elements fuel' rest []
            end
          else if Ascii.eqb c Str.DQ then
            match string_body rest with
            | Some (str, rest') => Some (JStr str, rest')
            | None => None
            end
          else if Ascii.eqb c "t" then literal "true" (JBool true) (String c rest)
          else if Ascii.eqb c "f" then literal "false" (JBool false) (String c rest)
          else if Ascii.eqb c "n" then literal "null" JNull (String c rest)
          else if Ascii.eqb c "-" then
            match natural rest with
            | Some (z, rest') => Some (JInt (- z), rest')
            | None => None
            end
          else
            match natural (String c rest) with
            | Some (z, rest') => Some (JInt z, rest')
            | None => None
            end
      | EmptyString => None
      end
  end
with members (fuel : nat) (s : string) (acc : list (string * json))
  : option (json * string) :=
  match fuel with
  | O => None
  | S fuel' =>
      match skip_ws s with
      | String q rest =>
          match (if Ascii.eqb q Str.DQ then string_body rest else None) with
          | Some (k, rest1) =>
              match skip_ws rest1 with
              | String ":" rest2 =>
                  match value fuel' rest2 with
                  | Some (v, rest3) =>
                      match skip_ws rest3 with
                      | String "," rest4 => members fuel' rest4 (dict_set k v acc)
                      | String "}" rest4 => Some (JObj (dict_set k v acc), rest4)
                      | _ => None
                      end
                  | None => None
                  end
              | _ => None
              end
          | None => None
          end
      | _ => None
      end
  end
with elements (fuel : nat) (s : string) (acc : list json)
  : option (json * string) :=
  match fuel with
  | O => None
  | S fuel' =>
      match value fuel' s with
      | Some (v, rest) =>
          match skip_ws rest with
          | String "," rest' => elements fuel' rest' (acc ++ [v])
          | String "]" rest' => Some (JArr (acc ++ [v]), rest')
          | _ => None
          end
      | None => None
      end
  end.

Definition loads (s : string) : option json :=
  match value (S (String.length s)) s with
  | Some (v, rest) =>
      match skip_ws rest with
      | EmptyString => Some v
      | _ => None
      end
  | None => None
  end.

End Json.

(* ===================================================================== *)
(** ** The data of the examples *)
(* ===================================================================== *)

(** A response in the style the repair steps are written for: fenced, with
    single quotes. *)
Definition sample_text : string :=
  "{'name': 'Stool', 'description': ['carved', 'wood'], 'category': 'Stools', 'material': 'wood', 'color': 'brown', 'dimensions': '40cm', 'origin_source': 'Ghana', 'import_cost': 25, 'retail_price': null, 'key_tags': ['stool', 'ashanti']}".

Definition fenced (opening text : string) : string :=
  opening +:+ String Str.LF (text +:+ String Str.LF "```").

(** A backend that answers every request with [text]. *)
Definition always (text : string) (n : nat) (image_base64 : string) : http_result :=
  PostReturned 200 (Some text).

Definition bytes (s : string) : list byte := String.list_byte_of_string s.

(** The upload root of the scenario of the spec: [a/photo.jpg] and
    [b/photo.jpg]. *)
Definition sample_tree : dirtree :=
  Dir [] [("a", Dir ["photo.jpg"] []); ("b", Dir ["photo.jpg"] [])].

Definition sample_fs : gmap string file :=
  <["data/images/uploads/a/photo.jpg" := File (bytes "first image")]>
    (<["data/images/uploads/b/photo.jpg" := File (bytes "second image")]> ∅).

Definition sample_state : state := State sample_fs (Database [] 0) 0 ∅ [].

Definition sample_run (timestamp : string) (st : state) : result unit * state :=
  process_uploaded_images Json.loads (always (fenced "```json" sample_text))
    timestamp (os_walk UPLOADS_DIR sample_tree) st.

(** What [sample_text] parses to. *)
Definition sample_record : list (string * json) :=
  [("name", JStr "Stool"); ("description", JArr [JStr "carved"; JStr "wood"]);
   ("category", JStr "Stools"); ("material", JStr "wood");
   ("color", JStr "brown"); ("dimensions", JStr "40cm");
   ("origin_source", JStr "Ghana"); ("import_cost", JInt 25);
   ("retail_price", JNull); ("key_tags", JArr [JStr "stool"; JStr "ashanti"])].




(* ===================================================================== *)
(** ** What a computation leaves unchanged *)
(* ===================================================================== *)

(** A relation between the state before and the state after that holds
    across sequencing.  [frame R] says that [R] is a preorder that does not
    look at the events or at the request counter. *)
Record frame (R : state -> state -> Prop) : Prop := Frame {
  frame_refl : forall s, R s s;
  frame_trans : forall a b c, R a b -> R b c -> R a c;
  frame_event : forall e s, R s (add_event e s);
  frame_calls : forall n s, R s (set_calls n s)
}.

Definition respects {A} (R : state -> state -> Prop) (m : M A) : Prop :=
  forall st, R st (snd (m st)).

Section Respects.

Variable R : state -> state -> Prop.
Hypothesis HR : frame R.

Lemma respects_ret {A} (a : A) : respects R (ret a).
Proof. intros st. apply (frame_refl R HR). Qed.

Lemma respects_raise {A} (e : exn) : respects R (@raise A e).
Proof. intros st. apply (frame_refl R HR). Qed.

Lemma respects_lift {A} (r : result A) : respects R (lift r).
Proof. intros st. apply (frame_refl R HR). Qed.

Lemma respects_get_state : respects R get_state.
Proof. intros st. apply (frame_refl R HR). Qed.

Lemma respects_emit (e : event) : respects R (emit e).
Proof. intros st. apply (frame_event R HR). Qed.

Lemma respects_logging (l : log_entry) : respects R (logging l).
Proof. apply respects_emit. Qed.

Lemma respects_bind {A B} (m : M A) (k : A -> M B) :
  respects R m -> (forall a, respects R (k a)) -> respects R (bind m k).
Proof.
  intros Hm Hk st. unfold bind.
  specialize (Hm st). destruct (m st) as [[a | e] st1]; simpl in *.
  - eapply (frame_trans R HR); [exact Hm | apply Hk].
  - exact Hm.
Qed.

Lemma respects_try_except {A} (m : M A) (catches : exn -> bool)
    (handler : exn -> M A) :
  respects R m -> (forall e, respects R (handler e)) ->
  respects R (try_except m catches handler).
Proof.
  intros Hm Hh st. unfold try_except.
  specialize (Hm st). destruct (m st) as [[a | e] st1]; simpl in *.
  - exact Hm.
  - destruct (catches e); simpl; [| exact Hm].
    eapply (frame_trans R HR); [exact Hm | apply Hh].
Qed.

Lemma respects_encode (image_path : string) :
  respects R (encode_image_to_base64 image_path).
Proof.
  unfold encode_image_to_base64.
  apply respects_bind; [apply respects_emit |]. intros _.
  apply respects_bind; [apply respects_get_state |]. intros st.
  destruct (fs st !! image_path) as [[content |] |].
  - apply respects_ret.
  - apply respects_bind; [apply respects_logging | intros; apply respects_ret].
  - apply respects_bind; [apply respects_logging | intros; apply respects_ret].
Qed.

End Respects.

(* ===================================================================== *)
(** ** Facts about the extractor *)
(* ===================================================================== *)

(** The state [st] with more events. *)
Definition after (st : state) (evs : list event) : state :=
  State (fs st) (db st) (calls st) (existing_images st) (trace st ++ evs).

Lemma after_nil st : after st [] = st.
Proof. destruct st; unfold after; simpl. by rewrite app_nil_r. Qed.

Lemma add_event_after e st evs : add_event e (after st evs) = after st (evs ++ [e]).
Proof. unfold add_event, after; simpl. by rewrite <- app_assoc. Qed.

Lemma add_event_is_after e st : add_event e st = after st [e].
Proof. reflexivity. Qed.

Lemma after_after st evs evs' : after (after st evs) evs' = after st (evs ++ evs').
Proof. unfold after; simpl. by rewrite <- app_assoc. Qed.

Ltac norm_state :=
  unfold add_event, set_calls, set_db, set_fs, set_existing_images, after;
  cbn [fs db calls existing_images trace fst snd];
  rewrite <- ?app_assoc; cbn [app].

Section Extractor.

Variable json_loads : string -> option json.
Variable backend : nat -> string -> http_result.

Local Abbreviation analyze_image_body' := (analyze_image_body json_loads backend).
Local Abbreviation analyze_image' := (analyze_image json_loads backend).

Definition is_log (e : event) : Prop :=
  match e with Log _ => True | _ => False end.

(** The body of [analyze_image] never raises: it sends one request and
    returns a value. *)
Lemma analyze_image_body_returns image_base64 st :
  exists v evs,
    analyze_image_body' image_base64 st =
      (Ok v,
       after (set_calls (S (calls st)) st)
         (Log LogSendingRequest :: HttpPost (calls st) image_base64 :: evs))
    /\ Forall is_log evs.
Proof.
  unfold analyze_image_body, try_except, bind, logging, emit, requests_post.
  simpl.
  destruct (backend (calls st) image_base64) as [| status content | status] eqn:Hb;
    simpl.
  - eexists _, [_]. split; [norm_state; reflexivity | repeat constructor].
  - unfold raise_for_status.
    destruct ((400 <=? status)%nat && (status <? 600)%nat); simpl.
    + eexists _, [_]. split; [norm_state; reflexivity | repeat constructor].
    + destruct content as [text |]; simpl.
      2: { eexists _, [_; _]. split; [norm_state; reflexivity | repeat constructor]. }
      destruct (Str.startswith "```json" (Str.strip text)); simpl.
      * unfold strip_fence.
        destruct (Str.split_once Str.LF (Str.strip text)) as [| a [| b l]]; simpl.
        1,2: eexists _, [_; _; _]; split; [norm_state; reflexivity | repeat constructor].
        destruct (Str.rsplit_once Str.LF b) as [| body l']; simpl.
        1: eexists _, [_; _; _]; split; [norm_state; reflexivity | repeat constructor].
        destruct (json_loads _); simpl.
        -- eexists _, [_; _]. split; [norm_state; reflexivity | repeat constructor].
        -- eexists _, [_; _; _; _]. split; [norm_state; reflexivity | repeat constructor].
      * destruct (json_loads _); simpl.
        -- eexists _, [_; _]. split; [norm_state; reflexivity | repeat constructor].
        -- eexists _, [_; _; _; _]. split; [norm_state; reflexivity | repeat constructor].
  - unfold raise_for_status.
    destruct ((400 <=? status)%nat && (status <? 600)%nat); simpl.
    + eexists _, [_]. split; [norm_state; reflexivity | repeat constructor].
    + eexists _, [_; _]. split; [norm_state; reflexivity | repeat constructor].
Qed.

Lemma retrying_returns {A} (f : M A) remaining st a st' :
  f st = (Ok a, st') -> retrying remaining f st = (Ok a, st').
Proof. intros H. destruct remaining; simpl; by rewrite H. Qed.

(** The decorator never gets to retry: [analyze_image] is its body. *)
Lemma analyze_image_is_body image_base64 st :
  analyze_image' image_base64 st = analyze_image_body' image_base64 st.
Proof.
  destruct (analyze_image_body_returns image_base64 st) as (v & evs & H & _).
  unfold analyze_image, retry. rewrite H. by apply retrying_returns.
Qed.

Lemma analyze_image_returns image_base64 st :
  exists v evs,
    analyze_image' image_base64 st =
      (Ok v,
       after (set_calls (S (calls st)) st)
         (Log LogSendingRequest :: HttpPost (calls st) image_base64 :: evs))
    /\ Forall is_log evs.
Proof. rewrite analyze_image_is_body. apply analyze_image_body_returns. Qed.

(** The state with nothing in it but the number of requests sent. *)
Definition blank (n : nat) : state := State ∅ (Database [] 0) n ∅ [].

(** What [analyze_image] gives for an image when it is the [n]-th request. *)
Definition extraction (n : nat) (image_base64 : string) : result json :=
  fst (analyze_image' image_base64 (blank n)).

Lemma analyze_image_body_value image_base64 st st0 :
  calls st = calls st0 ->
  fst (analyze_image_body' image_base64 st) =
  fst (analyze_image_body' image_base64 st0).
Proof.
  intros Hc.
  unfold analyze_image_body, try_except, bind, logging, emit, requests_post.
  simpl. rewrite Hc.
  destruct (backend (calls st0) image_base64) as [| status content | status]; simpl.
  - reflexivity.
  - unfold raise_for_status.
    destruct ((400 <=? status)%nat && (status <? 600)%nat); simpl; [reflexivity |].
    destruct content as [text |]; simpl; [| reflexivity].
    destruct (Str.startswith "```json" (Str.strip text)); simpl.
    + unfold strip_fence.
      destruct (Str.split_once Str.LF (Str.strip text)) as [| a [| b l]]; simpl;
        try reflexivity.
      destruct (Str.rsplit_once Str.LF b) as [| body l']; simpl; try reflexivity.
      destruct (json_loads _); reflexivity.
    + destruct (json_loads _); reflexivity.
  - unfold raise_for_status.
    destruct ((400 <=? status)%nat && (status <? 600)%nat); reflexivity.
Qed.

Lemma analyze_image_value image_base64 st :
  fst (analyze_image' image_base64 st) = extraction (calls st) image_base64.
Proof.
  unfold extraction. rewrite !analyze_image_is_body.
  by apply analyze_image_body_value.
Qed.

(** [analyze_image] in one equation: the value is the extraction at the
    current request number, the state gains one request and some events. *)
Lemma analyze_image_spec image_base64 st :
  exists v evs,
    extraction (calls st) image_base64 = Ok v
    /\ analyze_image' image_base64 st =
         (Ok v,
          after (set_calls (S (calls st)) st)
            (Log LogSendingRequest :: HttpPost (calls st) image_base64 :: evs))
    /\ Forall is_log evs.
Proof.
  destruct (analyze_image_returns image_base64 st) as (v & evs & H & Hl).
  exists v, evs. split; [| by split].
  by rewrite <- analyze_image_value, H.
Qed.

End Extractor.

(** A backend whose first [k] requests fail and whose later ones succeed
    with [text]. *)
Definition fails_then_succeeds (k : nat) (text : string) (n : nat)
    (image_base64 : string) : http_result :=
  if (n <? k)%nat then PostRaised else PostReturned 200 (Some text).

(** C1 (the code does not retry).  The decorator on [analyze_image] asks
    for up to six attempts, but the [try] block of the function catches
    every exception and returns [{}], so the decorator never sees a
    failure: when the request fails, the empty result is returned after
    that single request, without a wait and without a second request,
    whatever the backend would have answered to later attempts. *)
Theorem analyze_image_first_failure_is_final :
  forall json_loads backend image_base64 st,
    backend (calls st) image_base64 = PostRaised ->
    analyze_image json_loads backend image_base64 st =
      (Ok (JObj []),
       after (set_calls (S (calls st)) st)
         [Log LogSendingRequest; HttpPost (calls st) image_base64;
          Log LogRequestFailed]).
Proof.
  intros json_loads backend image_base64 st Hb.
  rewrite analyze_image_is_body.
  unfold analyze_image_body, try_except, bind, logging, emit, requests_post.
  simpl. rewrite Hb. simpl. norm_state. reflexivity.
Qed.

(** The backend of the claim: attempts 1 to 5 fail, attempt 6 would succeed
    with a complete record. *)
Lemma analyze_image_first_failure_is_final_witness :
  fails_then_succeeds 5 (fenced "```json" sample_text) 5 "TWFu" =
    PostReturned 200 (Some (fenced "```json" sample_text))
  /\ fails_then_succeeds 5 (fenced "```json" sample_text) (calls (blank 0)) "TWFu" =
       PostRaised
  /\ analyze_image Json.loads (fails_then_succeeds 5 (fenced "```json" sample_text))
       "TWFu" (blank 0) =
       (Ok (JObj []),
        after (set_calls 1 (blank 0))
          [Log LogSendingRequest; HttpPost 0 "TWFu"; Log LogRequestFailed]).
Proof.
  split; [reflexivity |]. split; [reflexivity |].
  apply (analyze_image_first_failure_is_final Json.loads
           (fails_then_succeeds 5 (fenced "```json" sample_text)) "TWFu" (blank 0)).
  reflexivity.
Defined.

(* ===================================================================== *)
(** ** The branches of [process_file] *)
(* ===================================================================== *)

Lemma b64encode_nonempty (content : list byte) :
  content <> [] -> exists c enc, b64encode content = String c enc.
Proof.
  destruct content as [| x [| y [| z rest]]]; [congruence | | |];
    intros _; simpl; eauto.
Qed.

Lemma b64encode_empty : b64encode [] = "".
Proof. reflexivity. Qed.

Lemma fs_add_event e st : fs (add_event e st) = fs st.
Proof. reflexivity. Qed.

Lemma existing_images_add_event e st :
  existing_images (add_event e st) = existing_images st.
Proof. reflexivity. Qed.

Lemma encode_image_to_base64_spec image_path st :
  encode_image_to_base64 image_path st =
    match fs st !! image_path with
    | Some (File content) =>
        (Ok (Some (b64encode content)), after st [FileOpen image_path])
    | Some Unreadable =>
        (Ok None, after st [FileOpen image_path; Log (LogErrorEncoding image_path)])
    | None =>
        (Ok None, after st [FileOpen image_path; Log (LogImageNotFound image_path)])
    end.
Proof.
  unfold encode_image_to_base64. cbv [bind logging emit get_state ret].
  rewrite fs_add_event.
  destruct (fs st !! image_path) as [[content |] |]; norm_state; reflexivity.
Qed.

Section Branches.

Variable json_loads : string -> option json.
Variable backend : nat -> string -> http_result.

Local Abbreviation process_file' := (process_file json_loads backend).
Local Abbreviation analyze_image' := (analyze_image json_loads backend).
Local Abbreviation extraction' := (extraction json_loads backend).

Variables batch_dir root filename : string.

Let image_path : string := Path.join root filename.
Let new_image_dir : string := Path.join batch_dir (relative_path_of root).
Let new_image_path : string := new_image_path_of batch_dir root filename.

(** A file without an image extension is only listed. *)
Lemma process_file_not_image st :
  is_image filename = false ->
  process_file' batch_dir root filename st =
    (Ok tt, after st [Log (LogFoundFile filename)]).
Proof.
  intros H. unfold process_file. cbv [bind logging emit get_state ret].
  rewrite H. reflexivity.
Qed.

(** The events up to and including the read of the file. *)
Definition opened_events (filename image_path : string) : list event :=
  [Log (LogFoundFile filename); Log (LogProcessing image_path);
   FileOpen image_path].

(** The encoder gives nothing, or the empty string: the file is skipped. *)
Lemma process_file_not_encoded st :
  is_image filename = true ->
  (forall content, fs st !! image_path = Some (File content) -> content = []) ->
  exists l,
    process_file' batch_dir root filename st =
      (Ok tt,
       after st (opened_events filename image_path ++ l ++
                 [Log (LogCouldNotEncode filename)]))
    /\ Forall is_log l.
Proof.
  intros Himg Hfile.
  unfold process_file. cbv [bind logging emit get_state ret].
  rewrite Himg, encode_image_to_base64_spec, !fs_add_event. fold image_path.
  destruct (fs st !! image_path) as [[content |] |] eqn:Hf.
  - rewrite (Hfile content eq_refl). rewrite b64encode_empty.
    exists []. split; [norm_state; reflexivity | constructor].
  - eexists [_]. split; [norm_state; reflexivity | repeat constructor].
  - eexists [_]. split; [norm_state; reflexivity | repeat constructor].
Qed.

(** The events of a file that was read and encoded, up to the dedup test. *)
Definition encoded_events (filename image_path new_image_dir : string)
  : list event :=
  opened_events filename image_path ++ [MakeDirs new_image_dir].

(** The destination is in the dedup set: the file is skipped, after it was
    read and encoded. *)
Lemma process_file_already_exists st content :
  is_image filename = true ->
  fs st !! image_path = Some (File content) -> content <> [] ->
  new_image_path ∈ existing_images st ->
  process_file' batch_dir root filename st =
    (Ok tt,
     after st (encoded_events filename image_path new_image_dir ++
               [Log (LogAlreadyExists filename)])).
Proof.
  intros Himg Hf Hne Hin.
  destruct (b64encode_nonempty content Hne) as (c & enc & Henc).
  unfold process_file. cbv [bind logging emit get_state ret].
  rewrite Himg, encode_image_to_base64_spec, !fs_add_event. fold image_path.
  rewrite Hf, Henc. fold new_image_dir.
  destruct (decide (Path.join new_image_dir filename ∉ _)) as [Hnot | _].
  - destruct Hnot. exact Hin.
  - norm_state. reflexivity.
Qed.

(** The destination is new: the image is analysed, and the file is moved
    and inserted when the result is truthy. *)
Lemma process_file_analyzed st content :
  is_image filename = true ->
  fs st !! image_path = Some (File content) -> content <> [] ->
  new_image_path ∉ existing_images st ->
  exists product_info evs,
    let st1 :=
      after (set_calls (S (calls st)) st)
        (encoded_events filename image_path new_image_dir ++
         Log LogSendingRequest :: HttpPost (calls st) (b64encode content) :: evs) in
    extraction' (calls st) (b64encode content) = Ok product_info
    /\ Forall is_log evs
    /\ process_file' batch_dir root filename st =
         if truthy product_info then
           try_except
             (shutil_move image_path new_image_path ;;
              insert_product_info product_info new_image_path ;;
              logging (LogProcessed filename))
             is_key_error
             (fun e => logging (LogErrorInserting filename (key_error_text e)))
             st1
         else (Ok tt, after st1 [Log (LogFailedAnalyze filename)]).
Proof.
  intros Himg Hf Hne Hin.
  destruct (b64encode_nonempty content Hne) as (c & enc & Henc).
  pose (st0 := after st (encoded_events filename image_path new_image_dir)).
  destruct (analyze_image_spec json_loads backend (b64encode content) st0)
    as (v & evs & Hv & Han & Hl).
  exists v, evs. split; [exact Hv |]. split; [exact Hl |].
  unfold process_file. cbv [bind logging emit get_state ret].
  rewrite Himg, encode_image_to_base64_spec, !fs_add_event. fold image_path.
  rewrite Hf, Henc. fold new_image_dir.
  destruct (decide (Path.join new_image_dir filename ∉ _)) as [_ | Hnot].
  2: { destruct Hnot. exact Hin. }
  rewrite <- Henc.
  replace (add_event (MakeDirs new_image_dir) _) with st0
    by (unfold st0; norm_state; reflexivity).
  rewrite Han.
  replace (after (set_calls (S (calls st0)) st0) _) with
    (after (set_calls (S (calls st)) st)
       (encoded_events filename image_path new_image_dir ++
        Log LogSendingRequest :: HttpPost (calls st) (b64encode content) :: evs))
    by (unfold st0; norm_state; reflexivity).
  destruct (truthy v); reflexivity.
Qed.

End Branches.

(* ===================================================================== *)
(** ** Facts about strings: append, reverse, split and join *)
(* ===================================================================== *)

Module StrFacts.

Lemma app_nil_r (s : string) : s +:+ "" = s.
Proof. induction s as [| c s IH]; simpl; [reflexivity | by rewrite IH]. Qed.

Lemma app_assoc (a b c : string) : (a +:+ b) +:+ c = a +:+ b +:+ c.
Proof. induction a as [| x a IH]; simpl; [reflexivity | by rewrite IH]. Qed.

Lemma app_inv_head (a b c : string) : a +:+ b = a +:+ c -> b = c.
Proof.
  induction a as [| x a IH]; simpl; intros H; [exact H |].
  injection H as H. by apply IH.
Qed.

Lemma app_eq_nil (a b : string) : a +:+ b = "" -> a = "" /\ b = "".
Proof. destruct a; simpl; [by intros -> | discriminate]. Qed.

Lemma cons_app (c : ascii) (s : string) : String c s = String c "" +:+ s.
Proof. reflexivity. Qed.

Lemma rev_onto_app (a b acc : string) :
  Str.rev_onto (a +:+ b) acc = Str.rev_onto b (Str.rev_onto a acc).
Proof. revert acc. induction a as [| x a IH]; simpl; intros acc; [reflexivity | apply IH]. Qed.

Lemma rev_onto_acc (a acc : string) : Str.rev_onto a acc = Str.rev a +:+ acc.
Proof.
  unfold Str.rev. revert acc. induction a as [| x a IH]; simpl; intros acc.
  - reflexivity.
  - rewrite IH, (IH (String x "")), app_assoc. reflexivity.
Qed.

Lemma rev_cons (c : ascii) (s : string) : Str.rev (String c s) = Str.rev s +:+ String c "".
Proof. unfold Str.rev at 1. simpl. apply rev_onto_acc. Qed.

Lemma rev_app (a b : string) : Str.rev (a +:+ b) = Str.rev b +:+ Str.rev a.
Proof.
  unfold Str.rev at 1. rewrite rev_onto_app, rev_onto_acc.
  reflexivity.
Qed.

Lemma rev_involutive (s : string) : Str.rev (Str.rev s) = s.
Proof.
  induction s as [| c s IH]; [reflexivity |].
  rewrite rev_cons, rev_app, IH. reflexivity.
Qed.

Lemma prefix_app (p s : string) : String.prefix p (p +:+ s) = true.
Proof.
  induction p as [| c p IH]; simpl; [by destruct s |].
  destruct (ascii_dec c c); [exact IH | congruence].
Qed.

(** Whether the character [c] occurs in [s]. *)
Fixpoint has_char (c : ascii) (s : string) : bool :=
  match s with
  | EmptyString => false
  | String x s' => Ascii.eqb x c || has_char c s'
  end.

Lemma has_char_app c a b : has_char c (a +:+ b) = has_char c a || has_char c b.
Proof.
  induction a as [| x a IH]; simpl; [reflexivity |].
  rewrite IH. by rewrite orb_assoc.
Qed.

Lemma has_char_rev c s : has_char c (Str.rev s) = has_char c s.
Proof.
  induction s as [| x s IH]; [reflexivity |].
  rewrite rev_cons, has_char_app, IH. simpl.
  rewrite orb_false_r. apply orb_comm.
Qed.

Lemma prefix_char c x s :
  String.prefix (String c "") (String x s) = Ascii.eqb x c.
Proof.
  simpl. destruct (ascii_dec c x) as [-> | Hne].
  - rewrite Ascii.eqb_refl. by destruct s.
  - symmetry. apply Ascii.eqb_neq. congruence.
Qed.

Lemma contains_char c s : Str.contains (String c "") s = has_char c s.
Proof.
  induction s as [| x s IH]; [reflexivity |].
  change (Str.contains (String c "") (String x s))
    with (String.prefix (String c "") (String x s) || Str.contains (String c "") s).
  by rewrite prefix_char, IH.
Qed.

(** [s.split(c, 1)] and [s.rsplit(c, 1)] around a separator. *)
Lemma split_once_app c a rest :
  has_char c a = false ->
  Str.split_once c (a +:+ String c rest) = [a; rest].
Proof.
  induction a as [| x a IH]; simpl; intros H.
  - by rewrite Ascii.eqb_refl.
  - apply orb_false_iff in H as [Hx Ha]. rewrite Hx, (IH Ha). reflexivity.
Qed.

Lemma rsplit_once_app c a rest :
  has_char c rest = false ->
  Str.rsplit_once c (a +:+ String c rest) = [a; rest].
Proof.
  intros H. unfold Str.rsplit_once.
  rewrite rev_app, rev_cons, app_assoc. simpl.
  rewrite split_once_app by (by rewrite has_char_rev).
  by rewrite !rev_involutive.
Qed.

(** No occurrence of [sep] starts inside [a] when [a] is followed by
    [tail]. *)
Fixpoint free (sep a tail : string) : Prop :=
  match a with
  | EmptyString => True
  | String c a' => String.prefix sep (a +:+ tail) = false /\ free sep a' tail
  end.

Lemma split_from_skip sep x rest :
  Str.split_from sep (String.length x) (x +:+ rest) = Str.split_from sep 0 rest.
Proof. induction x as [| c x IH]; simpl; [reflexivity | exact IH]. Qed.

(** A string without occurrence of the separator is one segment. *)
Lemma split_free sep a :
  sep <> "" -> free sep a "" -> Str.split sep a = [a].
Proof.
  intros Hsep. unfold Str.split.
  induction a as [| c a IH]; simpl; intros H; [reflexivity |].
  destruct H as [Hp Ha]. rewrite app_nil_r in Hp. rewrite Hp, (IH Ha).
  reflexivity.
Qed.

(** The first segment ends at the first occurrence of the separator. *)
Lemma split_app sep a rest :
  sep <> "" -> free sep a (sep +:+ rest) ->
  Str.split sep (a +:+ sep +:+ rest) = a :: Str.split sep rest.
Proof.
  intros Hsep. unfold Str.split.
  induction a as [| c a IH]; simpl; intros H.
  - destruct sep as [| c0 sep']; [congruence |].
    change (String c0 sep' +:+ rest) with (String c0 (sep' +:+ rest)).
    cbn [Str.split_from].
    change (String c0 (sep' +:+ rest)) with (String c0 sep' +:+ rest).
    rewrite prefix_app.
    replace (String.length (String c0 sep') - 1) with (String.length sep')
      by (simpl; lia).
    rewrite split_from_skip. reflexivity.
  - destruct H as [Hp Ha]. rewrite Hp, (IH Ha). reflexivity.
Qed.

(** A separator for which a segment that does not contain it cannot
    complete an occurrence with the text that follows it. *)
Definition separates (sep : string) : Prop :=
  sep <> ""
  /\ forall a, Str.contains sep a = false ->
       free sep a "" /\ forall rest, free sep a (sep +:+ rest).

Lemma join_cons sep a b l :
  Str.join sep (a :: b :: l) = a +:+ sep +:+ Str.join sep (b :: l).
Proof. reflexivity. Qed.

(** Splitting what was joined gives the segments back. *)
Lemma split_join sep l :
  separates sep -> l <> [] ->
  Forall (fun s => Str.contains sep s = false) l ->
  Str.split sep (Str.join sep l) = l.
Proof.
  intros [Hsep Hfree] Hne Hall.
  induction l as [| a l IH]; [congruence |].
  inversion Hall as [| ? ? Ha Hl]; subst.
  destruct l as [| b l].
  - simpl. apply split_free; [exact Hsep | apply Hfree, Ha].
  - rewrite join_cons, split_app; [| exact Hsep | apply Hfree, Ha].
    rewrite IH; [reflexivity | congruence | exact Hl].
Qed.

Lemma contains_cons sep c s :
  Str.contains sep (String c s) =
  String.prefix sep (String c s) || Str.contains sep s.
Proof. reflexivity. Qed.

Lemma free_char c a tail : has_char c a = false -> free (String c "") a tail.
Proof.
  induction a as [| x a IH]; simpl; intros H; [exact I |].
  apply orb_false_iff in H as [Hx Ha]. split; [| by apply IH].
  destruct (ascii_dec c x) as [-> | Hne]; [by rewrite Ascii.eqb_refl in Hx | reflexivity].
Qed.

Lemma separates_char c : separates (String c "").
Proof.
  split; [discriminate |]. intros a Ha. rewrite contains_char in Ha.
  split; [| intros rest]; by apply free_char.
Qed.

(** The separator of [key_tags]: a comma and a space. *)
Lemma free_comma_space a tail :
  Str.contains ", " a = false ->
  tail = "" \/ (exists r, tail = String "," r) ->
  free ", " a tail.
Proof.
  induction a as [| x a IH]; intros H Ht; [exact I |].
  rewrite contains_cons in H. apply orb_false_iff in H as [Hp Ha].
  split; [| by apply IH].
  destruct a as [| y a].
  - destruct Ht as [-> | [r ->]]; simpl.
    + by destruct (ascii_dec "," x).
    + destruct (ascii_dec "," x); [| reflexivity].
      destruct (ascii_dec " " ","); [discriminate | reflexivity].
  - simpl in *. destruct (ascii_dec "," x); [| reflexivity].
    destruct (ascii_dec " " y); [| reflexivity].
    by destruct a.
Qed.

Lemma separates_comma_space : separates ", ".
Proof.
  split; [discriminate |]. intros a Ha. split; [| intros rest].
  - apply free_comma_space; [exact Ha | by left].
  - apply free_comma_space; [exact Ha | right; by eexists].
Qed.

End StrFacts.

(* ===================================================================== *)
(** ** Facts about [insert_product_info] *)
(* ===================================================================== *)

Definition missing_field_message (key : string) : string :=
  "Missing required field: " +:+ key.

Lemma check_required_dict keys kv :
  check_required keys (JObj kv) =
    match find (fun key => negb (has_key key kv)) keys with
    | Some key => Raise (KeyError (missing_field_message key))
    | None => Ok tt
    end.
Proof.
  induction keys as [| key keys IH]; simpl; [reflexivity |].
  destruct (has_key key kv); simpl; [exact IH | reflexivity].
Qed.

Lemma assoc_has_key key kv v : assoc key kv = Some v -> has_key key kv = true.
Proof.
  unfold has_key. induction kv as [| [k x] kv IH]; simpl; [discriminate |].
  destruct (String.eqb k key); simpl; [reflexivity | exact IH].
Qed.

Lemma has_key_assoc key kv : has_key key kv = true -> exists v, assoc key kv = Some v.
Proof.
  unfold has_key. induction kv as [| [k x] kv IH]; simpl; [discriminate |].
  destruct (String.eqb k key); simpl; [by eexists | exact IH].
Qed.

Lemma check_required_not_sqlite keys product_info e :
  check_required keys product_info = Raise e -> is_sqlite3_error e = false.
Proof.
  induction keys as [| key keys IH]; simpl; [discriminate |].
  destruct product_info; simpl; try (intros [= <-]; reflexivity).
  - destruct (Str.contains key s); [exact IH | intros [= <-]; reflexivity].
  - destruct (existsb (is_str key) l); [exact IH | intros [= <-]; reflexivity].
  - destruct (has_key key kv); [exact IH | intros [= <-]; reflexivity].
Qed.

Lemma getitem_not_sqlite product_info key e :
  getitem product_info key = Raise e -> is_sqlite3_error e = false.
Proof.
  destruct product_info; simpl; try (intros [= <-]; reflexivity).
  destruct (assoc key kv); [discriminate | intros [= <-]; reflexivity].
Qed.

Lemma list_field_to_string_not_sqlite sep product_info key e :
  list_field_to_string sep product_info key = Raise e -> is_sqlite3_error e = false.
Proof.
  unfold list_field_to_string.
  destruct (getitem product_info key) as [v | e'] eqn:Hg.
  - destruct v; try discriminate. unfold py_join.
    destruct (strs_of l); [discriminate | intros [= <-]; reflexivity].
  - intros [= <-]. by eapply getitem_not_sqlite.
Qed.

(** A storage failure never leaves [insert_product_info] as an exception:
    the [except sqlite3.Error] clause logs it and the function returns. *)
Lemma insert_product_info_not_sqlite product_info img_path st e :
  fst (insert_product_info product_info img_path st) = Raise e ->
  is_sqlite3_error e = false.
Proof.
  unfold insert_product_info. cbv [bind lift].
  destruct (check_required required_keys product_info) as [[] | e1] eqn:H1;
    [| simpl; intros [= <-]; by eapply check_required_not_sqlite].
  destruct (list_field_to_string _ product_info "description") as [d | e2] eqn:H2;
    [| simpl; intros [= <-]; by eapply list_field_to_string_not_sqlite].
  destruct (list_field_to_string _ product_info "key_tags") as [k | e3] eqn:H3;
    [| simpl; intros [= <-]; by eapply list_field_to_string_not_sqlite].
  unfold try_except.
  match goal with
  | |- fst (let (_, _) := ?m in _) = _ -> _ => destruct m as [[[] | e4] st4]
  end.
  - discriminate.
  - destruct (is_sqlite3_error e4) eqn:H4; simpl; [discriminate | by intros [= <-]].
Qed.

Lemma insert_product_info_missing kv img_path st key :
  find (fun key => negb (has_key key kv)) required_keys = Some key ->
  insert_product_info (JObj kv) img_path st =
    (Raise (KeyError (missing_field_message key)), st).
Proof.
  intros Hf. unfold insert_product_info. cbv [bind lift].
  rewrite check_required_dict, Hf. reflexivity.
Qed.

Lemma first_missing kv :
  (exists key, In key required_keys /\ has_key key kv = false) ->
  exists key,
    find (fun key => negb (has_key key kv)) required_keys = Some key
    /\ In key required_keys /\ has_key key kv = false.
Proof.
  intros (key0 & Hin0 & Hk0).
  destruct (find (fun key => negb (has_key key kv)) required_keys) as [key |] eqn:Hf.
  - pose proof (find_some _ _ Hf) as [Hin Hneg].
    exists key. split; [reflexivity |]. split; [exact Hin |].
    by destruct (has_key key kv).
  - exfalso. eapply find_none in Hf; [| exact Hin0]. by rewrite Hk0 in Hf.
Qed.

(** C3.  A parsed record that lacks one of the ten required keys is
    rejected by [insert_product_info] with the Missing-Field error
    ([KeyError], naming the first missing key), whatever other keys it has;
    the state, and with it the table, is unchanged.  The error is distinct
    from a storage failure: a storage failure never leaves the function as
    an exception. *)
Theorem insert_rejects_missing_field :
  forall kv img_path st,
    (exists key, In key required_keys /\ has_key key kv = false) ->
    (exists key,
        In key required_keys /\ has_key key kv = false
        /\ insert_product_info (JObj kv) img_path st =
             (Raise (KeyError (missing_field_message key)), st))
    /\ (forall product_info img_path' st' e,
          fst (insert_product_info product_info img_path' st') = Raise e ->
          is_sqlite3_error e = false).
Proof.
  intros kv img_path st Hmiss.
  split; [| intros; by eapply insert_product_info_not_sqlite].
  destruct (first_missing kv Hmiss) as (key & Hf & Hin & Hk).
  exists key. split; [exact Hin |]. split; [exact Hk |].
  by apply insert_product_info_missing.
Qed.

(** The record of the examples without its [category]. *)
Lemma insert_rejects_missing_field_witness :
  (exists key,
      In key required_keys
      /\ has_key key (List.filter (fun p => negb (String.eqb (fst p) "category"))
                        sample_record) = false)
  /\ exists key,
       insert_product_info
         (JObj (List.filter (fun p => negb (String.eqb (fst p) "category"))
                  sample_record))
         "data/images/inventory/20240101-120000/stool.jpg" (blank 0) =
       (Raise (KeyError (missing_field_message key)), blank 0).
Proof.
  assert (H : exists key,
             In key required_keys
             /\ has_key key (List.filter (fun p => negb (String.eqb (fst p) "category"))
                               sample_record) = false).
  { exists "category". split; [simpl; tauto | reflexivity]. }
  split; [exact H |].
  destruct (insert_rejects_missing_field _
              "data/images/inventory/20240101-120000/stool.jpg" (blank 0) H)
    as [(key & _ & _ & Heq) _].
  exists key. exact Heq.
Defined.

(** A value the INSERT statement can bind: [None], a [bool], an [int] of 64
    bits, a [float], a [str] that can be encoded. *)
Definition scalar (v : json) : bool :=
  match bind_param v with
  | Ok _ => true
  | Raise _ => false
  end.

(** A value of [description] or [key_tags], joined with [sep] when it is a
    list: a list of strings whose join can be bound, or a scalar. *)
Definition list_field_ok (sep : string) (v : json) : bool :=
  match v with
  | JArr l =>
      match py_join sep l with
      | Ok joined => scalar joined
      | Raise _ => false
      end
  | _ => scalar v
  end.

Definition field_ok (key : string) (v : json) : bool :=
  if String.eqb key "description" then list_field_ok (String Str.LF "") v
  else if String.eqb key "key_tags" then list_field_ok ", " v
  else scalar v.

(** A record with the ten required fields, each with a value that can be
    stored. *)
Definition storable (kv : list (string * json)) : bool :=
  forallb
    (fun key =>
       match assoc key kv with
       | Some v => field_ok key v
       | None => false
       end)
    required_keys.

(** What is bound for a scalar, and for a field that may be a list. *)
Definition stored (v : json) : sqlval :=
  match bind_param v with
  | Ok x => x
  | Raise _ => SNull
  end.

Definition stored_list (sep : string) (v : json) : sqlval :=
  match v with
  | JArr l =>
      match py_join sep l with
      | Ok joined => stored joined
      | Raise _ => SNull
      end
  | _ => stored v
  end.

Definition value_of (key : string) (kv : list (string * json)) : json :=
  match assoc key kv with
  | Some v => v
  | None => JNull
  end.

(** The row that the INSERT of a storable record adds. *)
Definition row_of (new_id : Z) (kv : list (string * json)) (img_path : string)
  : row :=
  Row new_id
    (text_affinity (stored (value_of "name" kv)))
    (text_affinity (stored_list (String Str.LF "") (value_of "description" kv)))
    img_path
    (text_affinity (stored (value_of "category" kv)))
    (text_affinity (stored (value_of "material" kv)))
    (text_affinity (stored (value_of "color" kv)))
    (text_affinity (stored (value_of "dimensions" kv)))
    (text_affinity (stored (value_of "origin_source" kv)))
    (real_affinity (stored (value_of "import_cost" kv)))
    (real_affinity (stored (value_of "retail_price" kv)))
    (text_affinity (stored_list ", " (value_of "key_tags" kv))).

Definition next_id (d : database) : Z := (high_water d + 1)%Z.

(** The table has an id left to give. *)
Definition ids_left (d : database) : bool := (high_water d <? MAX_ROWID)%Z.

Lemma ids_left_not_full d : ids_left d = true -> (MAX_ROWID <=? high_water d)%Z = false.
Proof. unfold ids_left. intros H. apply Z.ltb_lt in H. apply Z.leb_gt. exact H. Qed.

Lemma not_full_ids_left d : (MAX_ROWID <=? high_water d)%Z = false -> ids_left d = true.
Proof. unfold ids_left. intros H. apply Z.leb_gt in H. apply Z.ltb_lt. exact H. Qed.

Lemma scalar_bind_param v : scalar v = true -> bind_param v = Ok (stored v).
Proof. unfold scalar, stored. by destruct (bind_param v). Qed.

Lemma encodable_bind_str s : Str.encodable s = true -> bind_str s = Ok s.
Proof. unfold bind_str. by intros ->. Qed.

Lemma scalar_str s : scalar (JStr s) = Str.encodable s.
Proof. unfold scalar. simpl. by destruct (Str.encodable s). Qed.

Lemma stored_str s : Str.encodable s = true -> stored (JStr s) = SText s.
Proof. unfold stored. simpl. by intros ->. Qed.

Lemma getitem_dict kv key v : assoc key kv = Some v -> getitem (JObj kv) key = Ok v.
Proof. intros H. simpl. by rewrite H. Qed.

Lemma list_field_to_string_dict sep kv key v :
  assoc key kv = Some v -> list_field_ok sep v = true ->
  exists v', list_field_to_string sep (JObj kv) key = Ok v'
             /\ bind_param v' = Ok (stored_list sep v).
Proof.
  intros Ha Hok. unfold list_field_to_string. rewrite (getitem_dict _ _ _ Ha).
  destruct v; simpl in Hok; try (eexists; split; [reflexivity | by apply scalar_bind_param]).
  cbn [stored_list]. destruct (py_join sep l) as [joined |]; [| discriminate].
  exists joined. split; [reflexivity | by apply scalar_bind_param].
Qed.

Lemma storable_field kv key :
  storable kv = true -> In key required_keys ->
  exists v, assoc key kv = Some v /\ value_of key kv = v /\ field_ok key v = true.
Proof.
  intros Hs Hin. unfold storable in Hs. rewrite forallb_forall in Hs.
  specialize (Hs key Hin). unfold value_of.
  destruct (assoc key kv) as [v |]; [| discriminate]. by exists v.
Qed.

Lemma storable_check_required kv :
  storable kv = true -> check_required required_keys (JObj kv) = Ok tt.
Proof.
  intros Hs. rewrite check_required_dict.
  destruct (find _ required_keys) as [key |] eqn:Hf; [| reflexivity].
  apply find_some in Hf as [Hin Hneg].
  destruct (storable_field kv key Hs Hin) as (v & Ha & _).
  by rewrite (assoc_has_key _ _ _ Ha) in Hneg.
Qed.

(** What [insert_product_info] does with a storable record: the
    parameters are bound, up to the image reference; when that can be
    encoded the statement runs, and appends one row unless the ids are used
    up or a row has the reference. *)
Lemma insert_product_info_bound kv img_path st :
  storable kv = true ->
  insert_product_info (JObj kv) img_path st =
    if Str.encodable img_path then
      if ids_left (db st) && negb (has_image_url img_path (rows (db st))) then
        (Ok tt,
         after
           (set_db
              (Database (rows (db st) ++ [row_of (next_id (db st)) kv img_path])
                 (next_id (db st)))
              st)
           [SqlInsert img_path; Log (LogInsertedRow img_path)])
      else (Ok tt, after st [SqlInsert img_path; Log LogInsertFailed])
    else (Raise UnicodeEncodeError, after st [SqlInsert img_path]).
Proof.
  intros Hs.
  pose proof (storable_check_required kv Hs) as Hc.
  destruct (storable_field kv "name" Hs) as (v1 & A1 & V1 & F1); [simpl; tauto |].
  destruct (storable_field kv "description" Hs) as (v2 & A2 & V2 & F2); [simpl; tauto |].
  destruct (storable_field kv "category" Hs) as (v3 & A3 & V3 & F3); [simpl; tauto |].
  destruct (storable_field kv "material" Hs) as (v4 & A4 & V4 & F4); [simpl; tauto |].
  destruct (storable_field kv "color" Hs) as (v5 & A5 & V5 & F5); [simpl; tauto |].
  destruct (storable_field kv "dimensions" Hs) as (v6 & A6 & V6 & F6); [simpl; tauto |].
  destruct (storable_field kv "origin_source" Hs) as (v7 & A7 & V7 & F7); [simpl; tauto |].
  destruct (storable_field kv "import_cost" Hs) as (v8 & A8 & V8 & F8); [simpl; tauto |].
  destruct (storable_field kv "retail_price" Hs) as (v9 & A9 & V9 & F9); [simpl; tauto |].
  destruct (storable_field kv "key_tags" Hs) as (v10 & A10 & V10 & F10); [simpl; tauto |].
  change (field_ok "description" v2) with (list_field_ok (String Str.LF "") v2) in F2.
  change (field_ok "key_tags" v10) with (list_field_ok ", " v10) in F10.
  destruct (list_field_to_string_dict (String Str.LF "") kv _ _ A2 F2) as (d & Hd & Bd).
  destruct (list_field_to_string_dict ", " kv _ _ A10 F10) as (k & Hk & Bk).
  unfold insert_product_info, cursor_execute_insert, try_except.
  cbv [bind lift emit logging get_state].
  rewrite Hc, Hd, Hk.
  rewrite (getitem_dict _ _ _ A1), (getitem_dict _ _ _ A3), (getitem_dict _ _ _ A4),
    (getitem_dict _ _ _ A5), (getitem_dict _ _ _ A6), (getitem_dict _ _ _ A7),
    (getitem_dict _ _ _ A8), (getitem_dict _ _ _ A9).
  rewrite (scalar_bind_param _ F1), Bd. unfold bind_str.
  destruct (Str.encodable img_path); [| norm_state; reflexivity].
  rewrite (scalar_bind_param _ F3),
    (scalar_bind_param _ F4), (scalar_bind_param _ F5), (scalar_bind_param _ F6),
    (scalar_bind_param _ F7), (scalar_bind_param _ F8), (scalar_bind_param _ F9), Bk.
  unfold sql_insert, ids_left. change (db (add_event _ st)) with (db st).
  rewrite Z.leb_antisym.
  destruct (high_water (db st) <? MAX_ROWID)%Z; cbn [negb andb];
    [| norm_state; reflexivity].
  destruct (has_image_url img_path (rows (db st))); cbn [negb];
    [norm_state; reflexivity |].
  unfold row_of, next_id. rewrite V1, V2, V3, V4, V5, V6, V7, V8, V9, V10.
  norm_state. reflexivity.
Qed.

(** The INSERT statement when it succeeds. *)
Lemma sql_insert_Ok d a b q c e f g h i j k d' :
  sql_insert d a b q c e f g h i j k = Ok d' ->
  ids_left d = true /\ has_image_url q (rows d) = false
  /\ d' =
       Database
         (rows d ++
            [Row (next_id d) (text_affinity a) (text_affinity b) q
               (text_affinity c) (text_affinity e) (text_affinity f)
               (text_affinity g) (text_affinity h) (real_affinity i)
               (real_affinity j) (text_affinity k)])
         (next_id d).
Proof.
  unfold sql_insert, next_id.
  destruct (MAX_ROWID <=? high_water d)%Z eqn:Hfull; [discriminate |].
  destruct (has_image_url q (rows d)); [discriminate |].
  intros [= <-]. split; [by apply not_full_ids_left | by split].
Qed.

(** [cursor.execute] raises with nothing done, or the INSERT statement
    has run. *)
Lemma cursor_execute_insert_cases a b q c e f g h i j k st :
  (exists x,
      cursor_execute_insert a b q c e f g h i j k st =
        (Raise x, add_event (SqlInsert q) st)
      /\ (x = Sqlite3Error \/ x = OverflowError \/ x = UnicodeEncodeError))
  \/ (exists d va vb vc ve vf vg vh vi vj vk,
        sql_insert (db st) va vb q vc ve vf vg vh vi vj vk = Ok d
        /\ cursor_execute_insert a b q c e f g h i j k st =
             (Ok tt, set_db d (add_event (SqlInsert q) st))).
Proof.
  assert (Hb : forall v x, bind_param v = Raise x ->
                 x = Sqlite3Error \/ x = OverflowError \/ x = UnicodeEncodeError).
  { intros v x. destruct v; simpl; try discriminate.
    - destruct (_ && _); [discriminate | intros [= <-]; tauto].
    - destruct (Str.encodable s); [discriminate | intros [= <-]; tauto].
    - intros [= <-]; tauto.
    - intros [= <-]; tauto. }
  unfold cursor_execute_insert. cbv [bind lift emit get_state].
  destruct (bind_param a) as [va | x] eqn:Ha; [| left; exists x; split; [reflexivity | by eapply Hb]].
  destruct (bind_param b) as [vb | x] eqn:Hbb; [| left; exists x; split; [reflexivity | by eapply Hb]].
  unfold bind_str. destruct (Str.encodable q);
    [| left; exists UnicodeEncodeError; split; [reflexivity | tauto]].
  destruct (bind_param c) as [vc | x] eqn:Hc; [| left; exists x; split; [reflexivity | by eapply Hb]].
  destruct (bind_param e) as [ve | x] eqn:He; [| left; exists x; split; [reflexivity | by eapply Hb]].
  destruct (bind_param f) as [vf | x] eqn:Hf; [| left; exists x; split; [reflexivity | by eapply Hb]].
  destruct (bind_param g) as [vg | x] eqn:Hg; [| left; exists x; split; [reflexivity | by eapply Hb]].
  destruct (bind_param h) as [vh | x] eqn:Hh; [| left; exists x; split; [reflexivity | by eapply Hb]].
  destruct (bind_param i) as [vi | x] eqn:Hi; [| left; exists x; split; [reflexivity | by eapply Hb]].
  destruct (bind_param j) as [vj | x] eqn:Hj; [| left; exists x; split; [reflexivity | by eapply Hb]].
  destruct (bind_param k) as [vk | x] eqn:Hk; [| left; exists x; split; [reflexivity | by eapply Hb]].
  change (db (add_event (SqlInsert q) st)) with (db st).
  destruct (sql_insert (db st) va vb q vc ve vf vg vh vi vj vk) as [d | x] eqn:Hd.
  - right. exists d, va, vb, vc, ve, vf, vg, vh, vi, vj, vk. by split.
  - left. exists x. split; [reflexivity |].
    unfold sql_insert in Hd.
    destruct (_ <=? _)%Z; [injection Hd as <-; tauto |].
    destruct (has_image_url _ _); [injection Hd as <-; tauto | discriminate].
Qed.

(** The insert of a storable record under a new image reference that can
    be encoded, into a table with an id left, appends one row. *)
Lemma insert_product_info_storable kv img_path st :
  storable kv = true ->
  Str.encodable img_path = true ->
  ids_left (db st) = true ->
  has_image_url img_path (rows (db st)) = false ->
  insert_product_info (JObj kv) img_path st =
    (Ok tt,
     after
       (set_db
          (Database (rows (db st) ++ [row_of (next_id (db st)) kv img_path])
             (next_id (db st)))
          st)
       [SqlInsert img_path; Log (LogInsertedRow img_path)]).
Proof.
  intros Hs He Hi Hurl.
  by rewrite (insert_product_info_bound kv img_path st Hs), He, Hi, Hurl.
Qed.

(* ===================================================================== *)
(** ** What a step of the run leaves unchanged *)
(* ===================================================================== *)

Lemma frame_after R (HR : frame R) st evs : R st (after st evs).
Proof.
  induction evs as [| e evs IH] using rev_ind.
  - rewrite after_nil. apply (frame_refl R HR).
  - rewrite <- add_event_after.
    eapply (frame_trans R HR); [exact IH | apply (frame_event R HR)].
Qed.

(** [R] holds across the move of [src] to [dst]. *)
Definition across_move (R : state -> state -> Prop) (src dst : string) : Prop :=
  forall s f, fs s !! src = Some f ->
    R s (set_fs (<[dst := f]> (delete src (fs s))) s).

(** [R] holds across an INSERT under the image reference [dst]. *)
Definition across_insert (R : state -> state -> Prop) (dst : string) : Prop :=
  forall s d a b c e f g h i j k,
    sql_insert (db s) a b dst c e f g h i j k = Ok d -> R s (set_db d s).

Section StepRespects.

Variable json_loads : string -> option json.
Variable backend : nat -> string -> http_result.
Variable R : state -> state -> Prop.
Hypothesis HR : frame R.

Lemma analyze_image_respects image_base64 :
  respects R (analyze_image json_loads backend image_base64).
Proof.
  intros st.
  destruct (analyze_image_returns json_loads backend image_base64 st)
    as (v & evs & H & _).
  rewrite H. simpl.
  eapply (frame_trans R HR); [apply (frame_calls R HR) | by apply frame_after].
Qed.

Variables src dst : string.

Hypothesis Hmove : across_move R src dst.
Hypothesis Hinsert : across_insert R dst.

Lemma shutil_move_respects : respects R (shutil_move src dst).
Proof.
  intros st. unfold shutil_move.
  destruct (fs st !! src) as [f |] eqn:Hf; simpl.
  - eapply (frame_trans R HR); [by apply Hmove | apply (frame_event R HR)].
  - apply (frame_refl R HR).
Qed.

Lemma cursor_execute_insert_respects a b c e f g h i j k :
  respects R (cursor_execute_insert a b dst c e f g h i j k).
Proof.
  intros st.
  destruct (cursor_execute_insert_cases a b dst c e f g h i j k st)
    as [(x & -> & _) | (d & va & vb & vc & ve & vf & vg & vh & vi & vj & vk & Hd & ->)];
    cbn [snd].
  - apply (frame_event R HR).
  - eapply (frame_trans R HR); [apply (frame_event R HR) |].
    eapply Hinsert. exact Hd.
Qed.

Lemma insert_product_info_respects product_info :
  respects R (insert_product_info product_info dst).
Proof.
  unfold insert_product_info.
  apply respects_bind; [exact HR | apply respects_lift; exact HR |]. intros _.
  apply respects_bind; [exact HR | apply respects_lift; exact HR |]. intros d.
  apply respects_bind; [exact HR | apply respects_lift; exact HR |]. intros k.
  apply respects_try_except; [exact HR | | intros; by apply respects_logging].
  repeat (apply respects_bind; [exact HR | apply respects_lift; exact HR |]; intros ?).
  apply respects_bind; [exact HR | apply cursor_execute_insert_respects |].
  intros _. by apply respects_logging.
Qed.

End StepRespects.

Section RunRespects.

Variable json_loads : string -> option json.
Variable backend : nat -> string -> http_result.
Variable R : state -> state -> Prop.
Hypothesis HR : frame R.
Variable batch_dir : string.

(** [R] holds across what the run does for the file [filename] of [root]. *)
Definition across_file (root filename : string) : Prop :=
  across_move R (Path.join root filename)
    (new_image_path_of batch_dir root filename)
  /\ across_insert R (new_image_path_of batch_dir root filename).

Lemma process_file_respects root filename :
  across_file root filename ->
  respects R (process_file json_loads backend batch_dir root filename).
Proof.
  intros [Hmove Hinsert]. unfold process_file.
  apply respects_bind; [exact HR | by apply respects_logging |]. intros _.
  destruct (is_image filename); [| by apply respects_ret].
  apply respects_bind; [exact HR | by apply respects_logging |]. intros _.
  apply respects_bind; [exact HR | by apply respects_encode |].
  intros [[| c enc] |]; try (by apply respects_logging).
  apply respects_bind; [exact HR | by apply respects_emit |]. intros _.
  apply respects_bind; [exact HR | by apply respects_get_state |]. intros st.
  destruct (decide _); [| by apply respects_logging].
  apply respects_bind; [exact HR | by apply analyze_image_respects |].
  intros product_info.
  destruct (truthy product_info); [| by apply respects_logging].
  apply respects_try_except; [exact HR | | intros; by apply respects_logging].
  apply respects_bind; [exact HR | by apply shutil_move_respects |]. intros _.
  apply respects_bind;
    [exact HR | by apply insert_product_info_respects | intros _; by apply respects_logging].
Qed.

Lemma process_files_respects root files :
  (forall filename, In filename files -> across_file root filename) ->
  respects R (process_files json_loads backend batch_dir root files).
Proof.
  induction files as [| filename files IH]; intros H; simpl.
  - by apply respects_ret.
  - apply respects_bind; [exact HR | |].
    + apply process_file_respects, H. by left.
    + intros _. apply IH. intros f Hf. apply H. by right.
Qed.

(** The files a walk lists, each with the directory it is in. *)
Definition walk_jobs (walk : list (string * list string)) : list (string * string) :=
  flat_map (fun entry => List.map (pair (fst entry)) (snd entry)) walk.

Lemma process_walk_respects walk :
  (forall root filename, In (root, filename) (walk_jobs walk) ->
     across_file root filename) ->
  respects R (process_walk json_loads backend batch_dir walk).
Proof.
  induction walk as [| [root files] walk IH]; intros H; simpl.
  - by apply respects_ret.
  - apply respects_bind; [exact HR | by apply respects_logging |]. intros _.
    apply respects_bind; [exact HR | |].
    + apply process_files_respects. intros f Hf. apply H.
      simpl. apply in_or_app. left. by apply in_map.
    + intros _. apply IH. intros r f Hf. apply H.
      simpl. apply in_or_app. by right.
Qed.

End RunRespects.

(* ===================================================================== *)
(** ** The dedup set during a run *)
(* ===================================================================== *)

Definition same_existing_images (s s' : state) : Prop :=
  existing_images s' = existing_images s.

Lemma same_existing_images_frame : frame same_existing_images.
Proof.
  split; unfold same_existing_images.
  - reflexivity.
  - intros a b c H1 H2. by rewrite H2.
  - reflexivity.
  - reflexivity.
Qed.

Lemma same_existing_images_across_file batch_dir root filename :
  across_file same_existing_images batch_dir root filename.
Proof. split; repeat intro; reflexivity. Qed.

Lemma process_walk_existing_images json_loads backend batch_dir walk st :
  existing_images (snd (process_walk json_loads backend batch_dir walk st)) =
  existing_images st.
Proof.
  apply (process_walk_respects json_loads backend same_existing_images
           same_existing_images_frame).
  intros. apply same_existing_images_across_file.
Qed.

(** The state in which the loop over the walk starts. *)
Definition loop_start (timestamp : string) (st : state) : state :=
  after (set_existing_images (select_image_urls (db st)) st)
    [Log LogStart; MakeDirs (Path.join INVENTORY_IMAGES_DIR timestamp);
     Log (LogBatchDir (Path.join INVENTORY_IMAGES_DIR timestamp))].

Lemma process_uploaded_images_unfold json_loads backend timestamp walk st :
  process_uploaded_images json_loads backend timestamp walk st =
    match process_walk json_loads backend
            (Path.join INVENTORY_IMAGES_DIR timestamp) walk
            (loop_start timestamp st) with
    | (Ok _, st') =>
        (Ok tt,
         add_event (Log (LogFinished (Path.join INVENTORY_IMAGES_DIR timestamp))) st')
    | (Raise e, st') => (Raise e, set_db (db st) st')
    end.
Proof.
  unfold process_uploaded_images. cbv [bind logging emit].
  replace (add_event _ (add_event _ (set_existing_images _ (add_event _ st))))
    with (loop_start timestamp st)
    by (unfold loop_start; norm_state; reflexivity).
  reflexivity.
Qed.

(** C5 (amended).  The dedup set is loaded once, from the table as it is
    when the run starts, and is never changed afterwards: at the end of
    every run it is still that snapshot.  References inserted during the
    run are not added to it. *)
Theorem dedup_set_is_the_initial_snapshot :
  forall json_loads backend timestamp walk st,
    existing_images
      (snd (process_uploaded_images json_loads backend timestamp walk st)) =
    select_image_urls (db st).
Proof.
  intros. rewrite process_uploaded_images_unfold.
  pose proof (process_walk_existing_images json_loads backend
                (Path.join INVENTORY_IMAGES_DIR timestamp) walk
                (loop_start timestamp st)) as H.
  destruct (process_walk _ _ _ _ _) as [[[] | e] st']; simpl in *; exact H.
Qed.

(** C5 as stated fails: after the run of the scenario the table holds the
    reference of [a/photo.jpg], inserted by this run, and the dedup set
    does not. *)
Lemma inserted_reference_is_not_tracked :
  let st' := snd (sample_run "20240101-120000" sample_state) in
  has_image_url "data/images/inventory/20240101-120000/a/photo.jpg"
    (rows (db st')) = true
  /\ "data/images/inventory/20240101-120000/a/photo.jpg" ∉ existing_images st'.
Proof.
  split.
  - vm_compute. reflexivity.
  - refine (proj1 (bool_decide_eq_false _) _). vm_compute. reflexivity.
Qed.

(* ===================================================================== *)
(** ** The order of the encoding and of the dedup test *)
(* ===================================================================== *)

(** An event that is neither a request, nor a move, nor an INSERT. *)
Definition is_quiet (e : event) : Prop :=
  match e with
  | Log _ | MakeDirs _ => True
  | _ => False
  end.

Lemma is_log_quiet l : Forall is_log l -> Forall is_quiet l.
Proof. intros H. eapply Forall_impl; [exact H | by intros []]. Qed.

(** C4 (amended).  A file with an image extension whose destination is in
    the dedup set is skipped: the file system, the table and the request
    counter are unchanged, and no request, move or INSERT happens.  But the
    file is first opened and encoded: the dedup test comes after the
    encoding.  When the encoding gives a non-empty string the skip is
    logged as already existing; when it gives nothing, the file is skipped
    with the could-not-encode warning and the dedup test is not reached. *)
Theorem dedup_test_follows_encoding :
  forall json_loads backend batch_dir root filename st,
    is_image filename = true ->
    new_image_path_of batch_dir root filename ∈ existing_images st ->
    exists evs,
      process_file json_loads backend batch_dir root filename st =
        (Ok tt,
         after st
           ([Log (LogFoundFile filename);
             Log (LogProcessing (Path.join root filename));
             FileOpen (Path.join root filename)] ++ evs))
      /\ Forall is_quiet evs
      /\ (forall content,
             fs st !! Path.join root filename = Some (File content) ->
             content <> [] ->
             evs = [MakeDirs (Path.join batch_dir (relative_path_of root));
                    Log (LogAlreadyExists filename)])
      /\ ((forall content,
              fs st !! Path.join root filename = Some (File content) ->
              content = []) ->
          last evs = Some (Log (LogCouldNotEncode filename))).
Proof.
  intros json_loads backend batch_dir root filename st Himg Hin.
  destruct (fs st !! Path.join root filename) as [[[| b content] |] |] eqn:Hf.
  2: {
    exists [MakeDirs (Path.join batch_dir (relative_path_of root));
            Log (LogAlreadyExists filename)].
    split; [| split; [repeat constructor | split]].
    - by apply (process_file_already_exists json_loads backend batch_dir root
                  filename st (b :: content)).
    - reflexivity.
    - intros H. by specialize (H _ eq_refl). }
  all: destruct (process_file_not_encoded json_loads backend batch_dir root
                   filename st Himg) as (l & Hp & Hl);
    [ rewrite Hf; intros c [= <-] || intros c [=]; reflexivity
    | exists (l ++ [Log (LogCouldNotEncode filename)]);
      split; [exact Hp |];
      split; [apply Forall_app; split; [by apply is_log_quiet | repeat constructor] |];
      split; [intros c [= <-] || intros c [=]; congruence | intros _; apply last_snoc] ].
Qed.

Definition sample_destination : string :=
  "data/images/inventory/20240101-120000/a/photo.jpg".

Lemma dedup_test_follows_encoding_witness :
  is_image "photo.jpg" = true
  /\ new_image_path_of "data/images/inventory/20240101-120000"
       "data/images/uploads/a" "photo.jpg"
     ∈ existing_images (set_existing_images {[sample_destination]} sample_state)
  /\ exists evs,
       process_file Json.loads (always (fenced "```json" sample_text))
         "data/images/inventory/20240101-120000" "data/images/uploads/a"
         "photo.jpg" (set_existing_images {[sample_destination]} sample_state) =
       (Ok tt,
        after (set_existing_images {[sample_destination]} sample_state)
          ([Log (LogFoundFile "photo.jpg");
            Log (LogProcessing (Path.join "data/images/uploads/a" "photo.jpg"));
            FileOpen (Path.join "data/images/uploads/a" "photo.jpg")] ++ evs)).
Proof.
  assert (H1 : is_image "photo.jpg" = true) by reflexivity.
  assert (H2 : new_image_path_of "data/images/inventory/20240101-120000"
                 "data/images/uploads/a" "photo.jpg"
               ∈ existing_images
                   (set_existing_images {[sample_destination]} sample_state)).
  { refine (proj1 (bool_decide_eq_true _) _). vm_compute. reflexivity. }
  split; [exact H1 |]. split; [exact H2 |].
  destruct (dedup_test_follows_encoding Json.loads
              (always (fenced "```json" sample_text))
              "data/images/inventory/20240101-120000" "data/images/uploads/a"
              "photo.jpg" _ H1 H2) as (evs & Heq & _).
  exists evs. exact Heq.
Defined.

(** C4 as stated fails: the file of the scenario, with its destination in
    the dedup set, is opened by the encoder before it is skipped. *)
Lemma encoder_runs_before_dedup_test :
  trace
    (snd (process_file Json.loads (always (fenced "```json" sample_text))
            "data/images/inventory/20240101-120000" "data/images/uploads/a"
            "photo.jpg"
            (set_existing_images {[sample_destination]} sample_state))) =
  [Log (LogFoundFile "photo.jpg");
   Log (LogProcessing "data/images/uploads/a/photo.jpg");
   FileOpen "data/images/uploads/a/photo.jpg";
   MakeDirs "data/images/inventory/20240101-120000/a";
   Log (LogAlreadyExists "photo.jpg")].
Proof. vm_compute. reflexivity. Qed.

(* ===================================================================== *)
(** ** A record with a missing field, an empty record *)
(* ===================================================================== *)

Lemma truthy_dict kv : kv <> [] -> truthy (JObj kv) = true.
Proof. by destruct kv. Qed.

(** C6.  When the extraction of an image gives a non-empty record that
    lacks a required field, the file is moved to its destination, the
    insert is rejected with the Missing-Field error and adds no row, the
    error is logged, and the loop goes on with the next file. *)
Theorem missing_field_leaves_file_relocated :
  forall json_loads backend batch_dir root filename st content kv,
    is_image filename = true ->
    fs st !! Path.join root filename = Some (File content) ->
    content <> [] ->
    new_image_path_of batch_dir root filename ∉ existing_images st ->
    extraction json_loads backend (calls st) (b64encode content) = Ok (JObj kv) ->
    kv <> [] ->
    (exists key, In key required_keys /\ has_key key kv = false) ->
    exists key evs st',
      In key required_keys /\ has_key key kv = false
      /\ process_file json_loads backend batch_dir root filename st = (Ok tt, st')
      /\ fs st' =
           <[new_image_path_of batch_dir root filename := File content]>
             (delete (Path.join root filename) (fs st))
      /\ db st' = db st
      /\ trace st' =
           trace st ++ evs ++
           [Move (Path.join root filename)
              (new_image_path_of batch_dir root filename);
            Log (LogErrorInserting filename (missing_field_message key))]
      /\ level_of (LogErrorInserting filename (missing_field_message key)) = ERROR
      /\ forall files,
           process_files json_loads backend batch_dir root (filename :: files) st =
           process_files json_loads backend batch_dir root files st'.
Proof.
  intros json_loads backend batch_dir root filename st content kv
    Himg Hf Hne Hnew Hex Hkv Hmiss.
  destruct (first_missing kv Hmiss) as (key & Hfind & Hin & Hk).
  destruct (process_file_analyzed json_loads backend batch_dir root filename st
              content Himg Hf Hne Hnew) as (v & evs & Hv & _ & Hp).
  rewrite Hex in Hv. injection Hv as <-.
  rewrite (truthy_dict kv Hkv) in Hp.
  unfold try_except in Hp. cbv [bind] in Hp.
  unfold shutil_move in Hp at 1.
  change (fs (after (set_calls _ st) _)) with (fs st) in Hp.
  rewrite Hf in Hp.
  rewrite (insert_product_info_missing kv _ _ key Hfind) in Hp.
  simpl is_key_error in Hp. cbv iota in Hp.
  exists key,
    (encoded_events filename (Path.join root filename)
       (Path.join batch_dir (relative_path_of root)) ++
     Log LogSendingRequest :: HttpPost (calls st) (b64encode content) :: evs).
  eexists.
  split; [exact Hin |]. split; [exact Hk |].
  split; [exact Hp |].
  split; [reflexivity |]. split; [reflexivity |].
  split; [norm_state; reflexivity |]. split; [reflexivity |].
  intros files. cbn [process_files]. unfold bind at 1. rewrite Hp. reflexivity.
Qed.

(** The record of the examples without its [category], as text. *)
Definition incomplete_text : string :=
  "{'name': 'Stool', 'description': ['carved', 'wood'], 'material': 'wood', 'color': 'brown', 'dimensions': '40cm', 'origin_source': 'Ghana', 'import_cost': 25, 'retail_price': null, 'key_tags': ['stool', 'ashanti']}".

Definition incomplete_record : list (string * json) :=
  List.filter (fun p => negb (String.eqb (fst p) "category")) sample_record.

Lemma missing_field_leaves_file_relocated_witness :
  exists key evs st',
    process_file Json.loads (always incomplete_text)
      "data/images/inventory/20240101-120000" "data/images/uploads/a"
      "photo.jpg" sample_state = (Ok tt, st')
    /\ fs st' =
         <[new_image_path_of "data/images/inventory/20240101-120000"
             "data/images/uploads/a" "photo.jpg" := File (bytes "first image")]>
           (delete (Path.join "data/images/uploads/a" "photo.jpg") (fs sample_state))
    /\ db st' = db sample_state
    /\ trace st' =
         trace sample_state ++ evs ++
         [Move (Path.join "data/images/uploads/a" "photo.jpg")
            (new_image_path_of "data/images/inventory/20240101-120000"
               "data/images/uploads/a" "photo.jpg");
          Log (LogErrorInserting "photo.jpg" (missing_field_message key))].
Proof.
  destruct (missing_field_leaves_file_relocated Json.loads (always incomplete_text)
              "data/images/inventory/20240101-120000" "data/images/uploads/a"
              "photo.jpg" sample_state (bytes "first image") incomplete_record)
    as (key & evs & st' & _ & _ & Hp & Hfs & Hdb & Htr & _).
  - reflexivity.
  - vm_compute. reflexivity.
  - discriminate.
  - refine (proj1 (bool_decide_eq_false _) _). vm_compute. reflexivity.
  - vm_compute. reflexivity.
  - discriminate.
  - exists "category". split; [simpl; tauto | reflexivity].
  - exists key, evs, st'. repeat split; assumption.
Defined.

Lemma prefix_app_l p a b :
  String.prefix p a = true -> String.prefix p (a +:+ b) = true.
Proof.
  revert a. induction p as [| c p IH]; intros a H.
  - by destruct (a +:+ b).
  - destruct a as [| x a]; [discriminate |]. simpl in *.
    destruct (ascii_dec c x); [by apply IH | discriminate].
Qed.

(** A status for which [raise_for_status] does not raise. *)
Definition status_ok (status : nat) : bool :=
  negb ((400 <=? status)%nat && (status <? 600)%nat).

(** The text [json.loads] is called on for the answer [text]: stripped,
    without its first and last line when it starts with the fence and the
    word json, and with its single quotes replaced; [None] when the removal
    of the lines raises. *)
Definition repaired (text : string) : option string :=
  let response_text := Str.strip text in
  if Str.startswith "```json" response_text then
    match fst (strip_fence response_text (blank 0)) with
    | Ok body => Some (Str.replace_char "'" Str.DQ body)
    | Raise _ => None
    end
  else Some (Str.replace_char "'" Str.DQ response_text).

Section Extraction.

Variable json_loads : string -> option json.
Variable backend : nat -> string -> http_result.

Local Abbreviation extraction' := (extraction json_loads backend).

Lemma extraction_post_raised n image_base64 :
  backend n image_base64 = PostRaised ->
  extraction' n image_base64 = Ok (JObj []).
Proof.
  intros Hb. unfold extraction. rewrite analyze_image_is_body.
  unfold analyze_image_body, try_except, requests_post.
  cbv [bind logging emit]. change (calls (add_event _ (blank n))) with n.
  rewrite Hb. reflexivity.
Qed.

(** An answer with an error status gives the empty record. *)
Lemma extraction_refused n image_base64 status content :
  backend n image_base64 = PostReturned status content ->
  status_ok status = false ->
  extraction' n image_base64 = Ok (JObj []).
Proof.
  intros Hb Hs. unfold extraction. rewrite analyze_image_is_body.
  unfold analyze_image_body, try_except, requests_post, raise_for_status.
  cbv [bind logging emit]. change (calls (add_event _ (blank n))) with n.
  rewrite Hb. cbn [fst snd].
  unfold status_ok in Hs. apply negb_false_iff in Hs. rewrite Hs. reflexivity.
Qed.

(** An answer with another status gives what its repaired text parses to,
    and the empty record when there is no such text or it does not parse. *)
Lemma extraction_repaired n image_base64 status text :
  backend n image_base64 = PostReturned status (Some text) ->
  status_ok status = true ->
  extraction' n image_base64 =
    Ok (match repaired text with
        | Some response_text =>
            match json_loads response_text with
            | Some v => v
            | None => JObj []
            end
        | None => JObj []
        end).
Proof.
  intros Hb Hs. unfold extraction. rewrite analyze_image_is_body.
  unfold analyze_image_body, try_except, requests_post, raise_for_status,
    content_text, repaired.
  cbv [bind logging emit]. change (calls (add_event _ (blank n))) with n.
  rewrite Hb. cbn [fst snd].
  unfold status_ok in Hs. apply negb_true_iff in Hs. rewrite Hs.
  cbv [ret].
  destruct (Str.startswith "```json" (Str.strip text)).
  - unfold strip_fence.
    destruct (Str.split_once Str.LF (Str.strip text)) as [| a [| b l]];
      try reflexivity.
    destruct (Str.rsplit_once Str.LF b) as [| body l']; [reflexivity |].
    cbv [ret fst]. destruct (json_loads _); reflexivity.
  - destruct (json_loads _); reflexivity.
Qed.


Lemma extraction_fenced n image_base64 status text opening body closing :
  backend n image_base64 = PostReturned status (Some text) ->
  status_ok status = true ->
  Str.strip text = opening +:+ String Str.LF (body +:+ String Str.LF closing) ->
  Str.startswith "```json" opening = true ->
  Str.contains (String Str.LF "") opening = false ->
  Str.contains (String Str.LF "") closing = false ->
  extraction' n image_base64 =
    Ok (match json_loads (Str.replace_char "'" Str.DQ body) with
        | Some v => v
        | None => JObj []
        end).
Proof.
  intros Hb Hs Ht Hf Ho Hc. rewrite (extraction_repaired _ _ _ _ Hb Hs).
  unfold repaired, strip_fence. rewrite Ht.
  pose proof (prefix_app_l _ _ (String Str.LF (body +:+ String Str.LF closing)) Hf)
    as Hpre.
  unfold Str.startswith. rewrite Hpre.
  rewrite StrFacts.contains_char in Ho, Hc.
  by rewrite (StrFacts.split_once_app _ _ _ Ho), (StrFacts.rsplit_once_app _ _ _ Hc).
Qed.

End Extraction.

(** C10.  When the answer of the backend parses to the empty JSON object
    (the text as the function hands it to the parser: stripped, with or
    without a fence around it), [analyze_image] returns that empty mapping,
    the same value it returns when the request fails.  The pipeline does
    the same in both cases: the file is skipped with the failed-to-analyze
    error, it is not moved and no row is inserted. *)
Theorem empty_record_is_treated_as_failure :
  forall json_loads backend_empty backend_down batch_dir root filename st
         content status text response_text,
    is_image filename = true ->
    fs st !! Path.join root filename = Some (File content) ->
    content <> [] ->
    new_image_path_of batch_dir root filename ∉ existing_images st ->
    backend_empty (calls st) (b64encode content) =
      PostReturned status (Some text) ->
    repaired text = Some response_text ->
    json_loads response_text = Some (JObj []) ->
    backend_down (calls st) (b64encode content) = PostRaised ->
    extraction json_loads backend_empty (calls st) (b64encode content) =
      Ok (JObj [])
    /\ extraction json_loads backend_down (calls st) (b64encode content) =
         Ok (JObj [])
    /\ exists evs evs',
         process_file json_loads backend_empty batch_dir root filename st =
           (Ok tt,
            after (set_calls (S (calls st)) st)
              (evs ++ [Log (LogFailedAnalyze filename)]))
         /\ process_file json_loads backend_down batch_dir root filename st =
              (Ok tt,
               after (set_calls (S (calls st)) st)
                 (evs' ++ [Log (LogFailedAnalyze filename)])).
Proof.
  intros json_loads backend_empty backend_down batch_dir root filename st
    content status text response_text Himg Hf Hne Hnew Hb Hr Hj Hd.
  assert (He : extraction json_loads backend_empty (calls st) (b64encode content)
               = Ok (JObj [])).
  { destruct (status_ok status) eqn:Hs.
    - by rewrite (extraction_repaired _ _ _ _ _ _ Hb Hs), Hr, Hj.
    - by apply (extraction_refused _ _ _ _ _ _ Hb Hs). }
  pose proof (extraction_post_raised json_loads _ _ _ Hd) as He'.
  split; [exact He |]. split; [exact He' |].
  destruct (process_file_analyzed json_loads backend_empty batch_dir root filename
              st content Himg Hf Hne Hnew) as (v & evs & Hv & _ & Hp).
  destruct (process_file_analyzed json_loads backend_down batch_dir root filename
              st content Himg Hf Hne Hnew) as (v' & evs' & Hv' & _ & Hp').
  rewrite He in Hv. injection Hv as <-.
  rewrite He' in Hv'. injection Hv' as <-.
  cbn [truthy] in Hp, Hp'.
  eexists. eexists. split.
  - rewrite Hp. rewrite after_after. reflexivity.
  - rewrite Hp'. rewrite after_after. reflexivity.
Qed.

(** A backend whose requests all fail. *)
Definition down (n : nat) (image_base64 : string) : http_result := PostRaised.

(** The empty object between the fences, and on its own. *)
Lemma empty_record_is_treated_as_failure_witness :
  repaired (fenced "```json" "{}") = Some "{}"
  /\ repaired "{}" = Some "{}"
  /\ extraction Json.loads (always (fenced "```json" "{}")) 0
       (b64encode (bytes "first image")) = Ok (JObj [])
  /\ extraction Json.loads down 0 (b64encode (bytes "first image")) = Ok (JObj [])
  /\ exists evs evs',
       process_file Json.loads (always (fenced "```json" "{}"))
         "data/images/inventory/20240101-120000" "data/images/uploads/a"
         "photo.jpg" sample_state =
         (Ok tt,
          after (set_calls 1 sample_state)
            (evs ++ [Log (LogFailedAnalyze "photo.jpg")]))
       /\ process_file Json.loads down
            "data/images/inventory/20240101-120000" "data/images/uploads/a"
            "photo.jpg" sample_state =
            (Ok tt,
             after (set_calls 1 sample_state)
               (evs' ++ [Log (LogFailedAnalyze "photo.jpg")])).
Proof.
  split; [vm_compute; reflexivity |]. split; [vm_compute; reflexivity |].
  apply (empty_record_is_treated_as_failure Json.loads
           (always (fenced "```json" "{}")) down
           "data/images/inventory/20240101-120000" "data/images/uploads/a"
           "photo.jpg" sample_state (bytes "first image") 200
           (fenced "```json" "{}") "{}").
  - reflexivity.
  - vm_compute. reflexivity.
  - discriminate.
  - refine (proj1 (bool_decide_eq_false _) _). vm_compute. reflexivity.
  - reflexivity.
  - vm_compute. reflexivity.
  - reflexivity.
  - reflexivity.
Defined.

(* ===================================================================== *)
(** ** Fence stripping and quote normalisation *)
(* ===================================================================== *)





(* ===================================================================== *)
(** ** The list-valued fields *)
(* ===================================================================== *)

Lemma strs_of_strings ss : strs_of (List.map JStr ss) = Some ss.
Proof. induction ss as [| s ss IH]; simpl; [reflexivity | by rewrite IH]. Qed.

(** C7 (amended).  Take the insert of a storable record under an image
    reference that can be encoded and that no row has, into a table with an
    id left.  A [description] that is a list of strings is stored as its
    items joined by a newline, a [key_tags] that is a list of strings as its
    items joined by a comma and a space, and a plain string is stored as it
    is.  For a non-empty list none of whose items contains the delimiter,
    splitting the stored string on the delimiter gives the items back,
    hence as many segments as there were items. *)
Theorem list_fields_are_joined :
  forall kv img_path st,
    storable kv = true ->
    Str.encodable img_path = true ->
    ids_left (db st) = true ->
    has_image_url img_path (rows (db st)) = false ->
    exists r,
      insert_product_info (JObj kv) img_path st =
        (Ok tt,
         after (set_db (Database (rows (db st) ++ [r]) (id r)) st)
           [SqlInsert img_path; Log (LogInsertedRow img_path)])
      /\ image_url r = img_path
      /\ (forall s, assoc "description" kv = Some (JStr s) ->
            description r = SText s)
      /\ (forall s, assoc "key_tags" kv = Some (JStr s) -> key_tags r = SText s)
      /\ (forall ss, assoc "description" kv = Some (JArr (List.map JStr ss)) ->
            description r = SText (Str.join (String Str.LF "") ss)
            /\ (ss <> [] ->
                Forall (fun s => Str.contains (String Str.LF "") s = false) ss ->
                Str.split (String Str.LF "") (Str.join (String Str.LF "") ss) = ss
                /\ List.length
                     (Str.split (String Str.LF "") (Str.join (String Str.LF "") ss))
                   = List.length ss))
      /\ (forall ss, assoc "key_tags" kv = Some (JArr (List.map JStr ss)) ->
            key_tags r = SText (Str.join ", " ss)
            /\ (ss <> [] ->
                Forall (fun s => Str.contains ", " s = false) ss ->
                Str.split ", " (Str.join ", " ss) = ss
                /\ List.length (Str.split ", " (Str.join ", " ss))
                   = List.length ss)).
Proof.
  intros kv img_path st Hs He Hi Hurl.
  exists (row_of (next_id (db st)) kv img_path).
  split; [by apply insert_product_info_storable |].
  split; [reflexivity |].
  destruct (storable_field kv "description" Hs) as (v2 & A2 & _ & F2); [simpl; tauto |].
  destruct (storable_field kv "key_tags" Hs) as (v10 & A10 & _ & F10); [simpl; tauto |].
  change (field_ok "description" v2) with (list_field_ok (String Str.LF "") v2) in F2.
  change (field_ok "key_tags" v10) with (list_field_ok ", " v10) in F10.
  unfold row_of, value_of; cbn [description key_tags]. rewrite A2, A10.
  split.
  { intros s [= ->]. cbn [list_field_ok stored_list] in *.
    rewrite scalar_str in F2. by rewrite (stored_str _ F2). }
  split.
  { intros s [= ->]. cbn [list_field_ok stored_list] in *.
    rewrite scalar_str in F10. by rewrite (stored_str _ F10). }
  split.
  - intros ss [= ->]. cbn [list_field_ok stored_list] in *. unfold py_join in *.
    rewrite strs_of_strings in *. rewrite scalar_str in F2.
    rewrite (stored_str _ F2). split; [reflexivity |]. intros Hne Hall.
    rewrite (StrFacts.split_join _ _ (StrFacts.separates_char Str.LF) Hne Hall).
    by split.
  - intros ss [= ->]. cbn [list_field_ok stored_list] in *. unfold py_join in *.
    rewrite strs_of_strings in *. rewrite scalar_str in F10.
    rewrite (stored_str _ F10). split; [reflexivity |]. intros Hne Hall.
    rewrite (StrFacts.split_join _ _ StrFacts.separates_comma_space Hne Hall).
    by split.
Qed.

Lemma list_fields_are_joined_witness :
  storable sample_record = true
  /\ Str.encodable sample_destination = true
  /\ ids_left (db sample_state) = true
  /\ has_image_url sample_destination (rows (db sample_state)) = false
  /\ exists r,
       insert_product_info (JObj sample_record) sample_destination sample_state =
         (Ok tt,
          after (set_db (Database (rows (db sample_state) ++ [r]) (id r))
                   sample_state)
            [SqlInsert sample_destination; Log (LogInsertedRow sample_destination)])
       /\ key_tags r = SText "stool, ashanti"
       /\ Str.split ", " "stool, ashanti" = ["stool"; "ashanti"].
Proof.
  assert (H1 : storable sample_record = true) by reflexivity.
  assert (H2 : Str.encodable sample_destination = true) by reflexivity.
  assert (H3 : ids_left (db sample_state) = true) by reflexivity.
  assert (H4 : has_image_url sample_destination (rows (db sample_state)) = false)
    by reflexivity.
  split; [exact H1 |]. split; [exact H2 |]. split; [exact H3 |]. split; [exact H4 |].
  destruct (list_fields_are_joined sample_record sample_destination sample_state
              H1 H2 H3 H4) as (r & Hi & _ & _ & _ & _ & Hk).
  exists r. split; [exact Hi |].
  destruct (Hk ["stool"; "ashanti"] eq_refl) as [Hr Hsplit].
  split; [exact Hr |].
  apply Hsplit; [discriminate | repeat constructor].
Defined.

(** The record of the examples with an empty list of tags. *)
Definition untagged_record : list (string * json) :=
  Json.dict_set "key_tags" (JArr []) sample_record.

(** C7 as stated fails for a list of no items: it is stored as the empty
    string, and splitting the empty string gives one segment, not none. *)
Lemma empty_list_does_not_round_trip :
  List.map key_tags
    (rows (db (snd (insert_product_info (JObj untagged_record)
                      sample_destination sample_state)))) = [SText ""]
  /\ Str.join ", " [] = ""
  /\ List.length (Str.split ", " (Str.join ", " [])) = 1
  /\ List.length (Str.split ", " (Str.join ", " [])) <> List.length (@nil string).
Proof. repeat split; try (vm_compute; reflexivity). vm_compute. discriminate. Qed.

(* ===================================================================== *)
(** ** Paths below the upload root and below the archive directory *)
(* ===================================================================== *)

(** A name as a directory listing gives it: not empty, without a slash,
    and neither of the two dot entries. *)
Definition name_ok (d : string) : bool :=
  negb (String.eqb d "") && negb (Str.contains "/" d)
  && negb (String.eqb d ".") && negb (String.eqb d "..").

(** The components of the upload root. *)
Definition upload_components : list string := ["data"; "images"; "uploads"].

(** The directory of the upload tree reached through the sub-directories
    [ds]. *)
Definition root_of (ds : list string) : string :=
  Str.join "/" (upload_components ++ ds).

(** A string of the form [datetime.now().strftime] gives for the format
    of the script: eight digits, a hyphen, six digits. *)
Definition is_timestamp (timestamp : string) : bool :=
  match timestamp with
  | String y1 (String y2 (String y3 (String y4 (String m1 (String m2
      (String d1 (String d2 (String hyphen (String h1 (String h2
         (String n1 (String n2 (String s1 (String s2 EmptyString))))))))))))))
    =>
      forallb Json.is_digit [y1; y2; y3; y4; m1; m2; d1; d2; h1; h2; n1; n2; s1; s2]
      && Ascii.eqb hyphen "-"
  | _ => false
  end.

Module PathFacts.

Import StrFacts.

Lemma name_ok_parts d :
  name_ok d = true ->
  d <> "" /\ has_char "/" d = false /\ d <> "." /\ d <> "..".
Proof.
  unfold name_ok. rewrite !andb_true_iff, !negb_true_iff.
  intros [[[H1 H2] H3] H4]. rewrite contains_char in H2.
  repeat split; try exact H2; by apply String.eqb_neq.
Qed.

Lemma join_snoc sep l x :
  l <> [] -> Str.join sep (l ++ [x]) = Str.join sep l +:+ sep +:+ x.
Proof.
  induction l as [| a l IH]; [congruence |]. intros _.
  destruct l as [| b l]; [reflexivity |].
  change ((a :: b :: l) ++ [x]) with (a :: (b :: l) ++ [x]).
  change ((b :: l) ++ [x]) with (b :: l ++ [x]) at 1.
  rewrite join_cons. change (b :: l ++ [x]) with ((b :: l) ++ [x]).
  rewrite IH by congruence. rewrite join_cons, !app_assoc. reflexivity.
Qed.

Lemma join_app sep l l' :
  l <> [] -> l' <> [] ->
  Str.join sep (l ++ l') = Str.join sep l +:+ sep +:+ Str.join sep l'.
Proof.
  intros Hl. revert l Hl. induction l' as [| x l' IH] using rev_ind; [congruence |].
  intros l Hl _. destruct l' as [| y l'].
  - simpl. by apply join_snoc.
  - rewrite List.app_assoc, join_snoc by (by destruct l).
    rewrite IH by congruence. rewrite join_snoc by congruence.
    by rewrite !app_assoc.
Qed.

(** [s] ends with a slash. *)
Lemma endswith_slash_app a b :
  b <> "" -> Str.endswith "/" (a +:+ b) = Str.endswith "/" b.
Proof.
  intros Hb. unfold Str.endswith. rewrite rev_app.
  destruct (Str.rev b) as [| c r] eqn:Hr.
  - apply (f_equal Str.rev) in Hr. rewrite rev_involutive in Hr. by destruct Hb.
  - change (Str.rev "/") with "/". simpl String.append. by rewrite !prefix_char.
Qed.

Lemma endswith_slash_free d : has_char "/" d = false -> Str.endswith "/" d = false.
Proof.
  intros H. unfold Str.endswith. change (Str.rev "/") with "/".
  rewrite <- has_char_rev in H.
  destruct (Str.rev d) as [| c r]; [reflexivity |].
  rewrite prefix_char. simpl in H. by apply orb_false_iff in H as [-> _].
Qed.

Lemma startswith_slash_free d : has_char "/" d = false -> Str.startswith "/" d = false.
Proof.
  unfold Str.startswith. destruct d as [| c d]; [reflexivity |].
  rewrite prefix_char. simpl. by intros [-> _]%orb_false_iff.
Qed.

Lemma endswith_slash_snoc a : Str.endswith "/" (a +:+ "/") = true.
Proof. by rewrite endswith_slash_app. Qed.

(** [os.path.join] in the two cases that occur. *)
Lemma join_plain a b :
  a <> "" -> Str.endswith "/" a = false -> Str.startswith "/" b = false ->
  Path.join a b = a +:+ "/" +:+ b.
Proof.
  intros Ha He Hs. unfold Path.join, Path.sep. rewrite Hs, He.
  apply String.eqb_neq in Ha. by rewrite Ha.
Qed.

Lemma join_after_slash a b :
  Str.startswith "/" b = false -> Path.join (a +:+ "/") b = a +:+ "/" +:+ b.
Proof.
  intros Hs. unfold Path.join, Path.sep. rewrite Hs, endswith_slash_snoc.
  rewrite orb_true_r. by rewrite app_assoc.
Qed.

Lemma join_last_endswith l x :
  x <> "" -> has_char "/" x = false ->
  Str.join "/" (l ++ [x]) <> "" /\ Str.endswith "/" (Str.join "/" (l ++ [x])) = false.
Proof.
  intros Hx Hc. destruct l as [| a l].
  - simpl. split; [exact Hx | by apply endswith_slash_free].
  - rewrite join_snoc by congruence. split.
    + intros H. apply app_eq_nil in H as [_ H]. discriminate.
    + rewrite <- app_assoc, endswith_slash_app by exact Hx.
      by apply endswith_slash_free.
Qed.

Definition names_ok (ds : list string) : Prop :=
  Forall (fun d => name_ok d = true) ds.

Lemma upload_components_ok : names_ok upload_components.
Proof. repeat constructor. Qed.

Lemma names_ok_slash_free ds :
  names_ok ds -> Forall (fun d => Str.contains "/" d = false) ds.
Proof.
  intros H. eapply Forall_impl; [exact H |]. intros d Hd. simpl in Hd.
  apply name_ok_parts in Hd as (_ & Hc & _). by rewrite contains_char.
Qed.

Lemma root_of_snoc ds d : root_of (ds ++ [d]) = root_of ds +:+ "/" +:+ d.
Proof.
  unfold root_of. rewrite List.app_assoc. apply join_snoc. discriminate.
Qed.

Lemma root_of_ends ds :
  names_ok ds -> root_of ds <> "" /\ Str.endswith "/" (root_of ds) = false.
Proof.
  intros Hds. unfold root_of.
  destruct ds as [| d0 ds0] using rev_ind.
  - split; [discriminate | reflexivity].
  - apply Forall_app in Hds as [_ Hd]. inversion Hd as [| ? ? Hd' _]; subst.
    apply name_ok_parts in Hd' as (Hne & Hc & _).
    rewrite List.app_assoc. by apply join_last_endswith.
Qed.

(** The directory [os.walk] reaches by joining a sub-directory name. *)
Lemma path_join_root ds d :
  names_ok ds -> name_ok d = true -> Path.join (root_of ds) d = root_of (ds ++ [d]).
Proof.
  intros Hds Hd. destruct (root_of_ends ds Hds) as [Hne He].
  apply name_ok_parts in Hd as (_ & Hc & _).
  rewrite join_plain by (try assumption; by apply startswith_slash_free).
  by rewrite root_of_snoc.
Qed.

Lemma uploads_dir_eq : UPLOADS_DIR = Str.join "/" upload_components.
Proof. reflexivity. Qed.

(** The path of a file of the upload tree. *)
Lemma source_path ds filename :
  names_ok ds -> name_ok filename = true ->
  Path.join (root_of ds) filename =
    UPLOADS_DIR +:+ "/" +:+ Str.join "/" (ds ++ [filename]).
Proof.
  intros Hds Hf. rewrite path_join_root by assumption.
  unfold root_of. rewrite join_app; [by rewrite uploads_dir_eq | discriminate |].
  by destruct ds.
Qed.

Lemma norm_comps_ok l acc : names_ok l -> Path.norm_comps l acc = acc ++ l.
Proof.
  revert acc. induction l as [| d l IH]; intros acc H; simpl.
  - by rewrite List.app_nil_r.
  - inversion H as [| ? ? Hd Hl]; subst.
    apply name_ok_parts in Hd as (H1 & _ & H2 & H3).
    apply String.eqb_neq in H1, H2, H3. rewrite H1, H2, H3. simpl.
    rewrite IH by exact Hl. by rewrite <- List.app_assoc.
Qed.

Lemma components_root ds :
  names_ok ds -> Path.components (root_of ds) = upload_components ++ ds.
Proof.
  intros Hds. unfold Path.components, root_of, Path.sep.
  assert (Hall : names_ok (upload_components ++ ds))
    by (apply Forall_app; split; [apply upload_components_ok | exact Hds]).
  rewrite split_join;
    [| apply separates_char | discriminate | by apply names_ok_slash_free].
  by rewrite norm_comps_ok.
Qed.

Lemma relpath_root ds :
  names_ok ds ->
  Path.relpath (root_of ds) UPLOADS_DIR =
    match ds with
    | [] => "."
    | _ => Str.join "/" ds
    end.
Proof.
  intros Hds. unfold Path.relpath. rewrite components_root by exact Hds.
  change (Path.components UPLOADS_DIR) with upload_components.
  change (Path.common_prefix_length upload_components (upload_components ++ ds))
    with 3.
  change (List.skipn 3 (upload_components ++ ds)) with ds.
  simpl. by destruct ds.
Qed.

Lemma join_names_not_dot ds :
  names_ok ds -> ds <> [] -> Str.join "/" ds <> ".".
Proof.
  intros Hds Hne. destruct ds as [| d [| e l]]; [congruence | |].
  - inversion Hds as [| ? ? Hd _]; subst.
    apply name_ok_parts in Hd as (_ & _ & H & _). exact H.
  - inversion Hds as [| ? ? Hd _]; subst.
    apply name_ok_parts in Hd as (H & _). rewrite join_cons.
    destruct d as [| c d]; [congruence |]. simpl. intros [= _ H'].
    apply app_eq_nil in H' as [_ H']. discriminate.
Qed.

Lemma relative_path_root ds :
  names_ok ds ->
  relative_path_of (root_of ds) =
    match ds with
    | [] => ""
    | _ => Str.join "/" ds
    end.
Proof.
  intros Hds. unfold relative_path_of. rewrite relpath_root by exact Hds.
  destruct ds as [| d l]; [reflexivity |].
  pose proof (join_names_not_dot (d :: l) Hds) as H.
  apply String.eqb_neq in H; [| discriminate]. by rewrite H.
Qed.

Lemma digit_not_slash c : Json.is_digit c = true -> Ascii.eqb c "/" = false.
Proof.
  intros H. destruct (Ascii.eqb_spec c "/") as [-> |]; [discriminate | reflexivity].
Qed.

Lemma timestamp_ends timestamp :
  is_timestamp timestamp = true ->
  timestamp <> "" /\ Str.startswith "/" timestamp = false
  /\ Str.endswith "/" timestamp = false.
Proof.
  intros H.
  do 15 (destruct timestamp as [| ? timestamp]; [discriminate |]).
  destruct timestamp; [| discriminate].
  unfold is_timestamp in H. cbn [forallb] in H.
  rewrite !andb_true_iff in H.
  destruct H as [(Hy1 & _ & _ & _ & _ & _ & _ & _ & _ & _ & _ & _ & _ & Hs2 & _) _].
  split; [discriminate |]. split.
  - unfold Str.startswith. rewrite prefix_char. by apply digit_not_slash.
  - unfold Str.endswith, Str.rev. cbn [Str.rev_onto].
    rewrite prefix_char. by apply digit_not_slash.
Qed.

Lemma batch_dir_ends timestamp :
  is_timestamp timestamp = true ->
  Path.join INVENTORY_IMAGES_DIR timestamp =
    "data/images/inventory/" +:+ timestamp
  /\ Path.join INVENTORY_IMAGES_DIR timestamp <> ""
  /\ Str.endswith "/" (Path.join INVENTORY_IMAGES_DIR timestamp) = false.
Proof.
  intros H. destruct (timestamp_ends timestamp H) as (Hne & Hs & He).
  assert (Hj : Path.join INVENTORY_IMAGES_DIR timestamp =
               "data/images/inventory/" +:+ timestamp).
  { rewrite join_plain; [reflexivity | discriminate | reflexivity | exact Hs]. }
  rewrite Hj. split; [reflexivity |]. split; [discriminate |].
  by rewrite endswith_slash_app.
Qed.

Lemma join_names_startswith ds :
  names_ok ds -> Str.startswith "/" (Str.join "/" ds) = false.
Proof.
  intros Hds. destruct ds as [| d l]; [reflexivity |].
  inversion Hds as [| ? ? Hd _]; subst.
  apply name_ok_parts in Hd as (Hne & Hc & _).
  destruct d as [| c d]; [congruence |].
  assert (Hp : forall x, Str.startswith "/" (String c d +:+ x) = false).
  { intros x. unfold Str.startswith. simpl String.append. rewrite prefix_char.
    simpl in Hc. by apply orb_false_iff in Hc as [-> _]. }
  destruct l as [| e l].
  - specialize (Hp ""). by rewrite app_nil_r in Hp.
  - rewrite join_cons. apply Hp.
Qed.

(** The destination of a file of the upload tree: the archive directory,
    then the path of the file relative to the upload root. *)
Lemma destination_path batch_dir ds filename :
  batch_dir <> "" -> Str.endswith "/" batch_dir = false ->
  names_ok ds -> name_ok filename = true ->
  new_image_path_of batch_dir (root_of ds) filename =
    batch_dir +:+ "/" +:+ Str.join "/" (ds ++ [filename]).
Proof.
  intros Hb He Hds Hf. unfold new_image_path_of.
  rewrite relative_path_root by exact Hds.
  pose proof (name_ok_parts _ Hf) as (Hfne & Hfc & _).
  pose proof (startswith_slash_free _ Hfc) as Hfs.
  destruct ds as [| d l] eqn:Eds.
  - rewrite (join_plain batch_dir "") by (try assumption; reflexivity).
    rewrite app_nil_r. by rewrite join_after_slash.
  - rewrite <- Eds in *. assert (Hne : ds <> []) by (by rewrite Eds).
    rewrite (join_plain batch_dir)
      by (try assumption; by apply join_names_startswith).
    destruct (exists_last Hne) as (l' & x & Hl). 
    assert (Hx : name_ok x = true).
    { rewrite Hl in Hds. apply Forall_app in Hds as [_ Hx].
      by inversion Hx. }
    apply name_ok_parts in Hx as (Hxne & Hxc & _).
    destruct (join_last_endswith l' x Hxne Hxc) as [Hjne Hje].
    rewrite <- Hl in Hjne, Hje.
    rewrite join_plain; [| | | exact Hfs].
    + rewrite join_snoc by exact Hne. by rewrite !app_assoc.
    + intros H. apply app_eq_nil in H as [H _]. by destruct Hb.
    + rewrite <- app_assoc. by rewrite endswith_slash_app.
Qed.

Lemma join_names_inj l l' :
  names_ok l -> names_ok l' -> l <> [] -> l' <> [] ->
  Str.join "/" l = Str.join "/" l' -> l = l'.
Proof.
  intros Hl Hl' Hne Hne' H.
  rewrite <- (split_join "/" l), <- (split_join "/" l');
    try (by apply separates_char); try assumption;
    try (by apply names_ok_slash_free).
  by rewrite H.
Qed.

Lemma names_ok_snoc ds filename :
  names_ok ds -> name_ok filename = true -> names_ok (ds ++ [filename]).
Proof. intros Hds Hf. apply Forall_app. split; [exact Hds | by constructor]. Qed.

(** Two files of the upload tree with the same path are the same file, and
    so are two with the same destination. *)
Lemma relative_inj ds filename ds' filename' :
  names_ok ds -> name_ok filename = true ->
  names_ok ds' -> name_ok filename' = true ->
  Str.join "/" (ds ++ [filename]) = Str.join "/" (ds' ++ [filename']) ->
  ds = ds' /\ filename = filename'.
Proof.
  intros Hds Hf Hds' Hf' H.
  apply join_names_inj in H; try (by apply names_ok_snoc); try (by destruct ds);
    try (by destruct ds').
  by apply app_inj_tail in H.
Qed.

Lemma root_of_inj ds ds' : names_ok ds -> names_ok ds' -> root_of ds = root_of ds' -> ds = ds'.
Proof.
  intros Hds Hds' H. unfold root_of in H.
  apply join_names_inj in H; try discriminate;
    try (apply Forall_app; split; [apply upload_components_ok | assumption]).
  by apply List.app_inv_head in H.
Qed.

(** A path below the upload root is not a path below the archive
    directory. *)
Lemma source_is_not_destination timestamp x y :
  is_timestamp timestamp = true ->
  UPLOADS_DIR +:+ "/" +:+ x <>
  Path.join INVENTORY_IMAGES_DIR timestamp +:+ "/" +:+ y.
Proof.
  intros H. destruct (batch_dir_ends timestamp H) as (-> & _).
  change UPLOADS_DIR with "data/images/uploads". simpl. discriminate.
Qed.

End PathFacts.

(* ===================================================================== *)
(** ** The files of an upload tree *)
(* ===================================================================== *)

(** No string occurs twice. *)
Fixpoint distinct (l : list string) : bool :=
  match l with
  | [] => true
  | x :: l' => negb (existsb (String.eqb x) l') && distinct l'
  end.

(** A tree as a file system has it: the entries of a directory are names,
    no two files and no two sub-directories of a directory have the same
    name. *)
Fixpoint wf_tree (t : dirtree) : bool :=
  match t with
  | Dir files subdirs =>
      forallb name_ok files && distinct files
      && forallb name_ok (List.map fst subdirs)
      && distinct (List.map fst subdirs)
      && forallb (fun p => wf_tree (snd p)) subdirs
  end.

(** The files of a tree, each with the sub-directories that lead to it
    from [ds] on, in the order of the walk. *)
Fixpoint tree_files (ds : list string) (t : dirtree) : list (list string * string) :=
  match t with
  | Dir files subdirs =>
      List.map (pair ds) files
      ++ flat_map (fun p => tree_files (ds ++ [fst p]) (snd p)) subdirs
  end.

Module TreeFacts.

Import PathFacts.

Lemma dirtree_induction (P : dirtree -> Prop) :
  (forall files subdirs,
      (forall p, In p subdirs -> P (snd p)) -> P (Dir files subdirs)) ->
  forall t, P t.
Proof.
  intros H. fix IH 1. intros [files subdirs]. apply H.
  induction subdirs as [| p subdirs IHs]; intros q Hq; [destruct Hq |].
  destruct Hq as [<- | Hq]; [apply IH | by apply IHs].
Qed.

Lemma os_walk_unfold top files subdirs :
  os_walk top (Dir files subdirs) =
    (top, files)
    :: flat_map (fun p => os_walk (Path.join top (fst p)) (snd p)) subdirs.
Proof.
  simpl. f_equal. induction subdirs as [| [d sub] l IH]; [reflexivity |].
  simpl. by rewrite IH.
Qed.

Lemma walk_jobs_app w w' : walk_jobs (w ++ w') = walk_jobs w ++ walk_jobs w'.
Proof. unfold walk_jobs. apply flat_map_app. Qed.

Lemma distinct_NoDup l : distinct l = true -> List.NoDup l.
Proof.
  induction l as [| x l IH]; simpl; [constructor |].
  rewrite andb_true_iff, negb_true_iff. intros [Hx Hl].
  constructor; [| by apply IH].
  intros Hin. assert (existsb (String.eqb x) l = true); [| congruence].
  apply existsb_exists. exists x. split; [exact Hin | apply String.eqb_refl].
Qed.

Lemma wf_tree_parts files subdirs :
  wf_tree (Dir files subdirs) = true ->
  names_ok files /\ List.NoDup files
  /\ names_ok (List.map fst subdirs) /\ List.NoDup (List.map fst subdirs)
  /\ forall p, In p subdirs -> wf_tree (snd p) = true.
Proof.
  simpl. rewrite !andb_true_iff. intros [[[[H1 H2] H3] H4] H5].
  rewrite !forallb_forall in *.
  repeat split.
  - apply List.Forall_forall. exact H1.
  - by apply distinct_NoDup.
  - apply List.Forall_forall. exact H3.
  - by apply distinct_NoDup.
  - exact H5.
Qed.

(** The files of a well-formed tree lie below [ds], under names. *)
Lemma tree_files_below t :
  forall ds d f,
    wf_tree t = true -> names_ok ds -> In (d, f) (tree_files ds t) ->
    names_ok d /\ name_ok f = true
    /\ (d = ds \/ exists x ext, In x (List.map fst
                                        match t with Dir _ subdirs => subdirs end)
                                /\ d = ds ++ x :: ext).
Proof.
  induction t as [files subdirs IH] using dirtree_induction.
  intros ds d f Hwf Hds Hin.
  apply wf_tree_parts in Hwf as (Hfiles & _ & Hnames & _ & Hsub).
  simpl in Hin. apply in_app_or in Hin as [Hin | Hin].
  - apply in_map_iff in Hin as (f' & [= <- <-] & Hf').
    split; [exact Hds |]. split; [| by left].
    by apply (proj1 (List.Forall_forall _ _) Hfiles).
  - apply in_flat_map in Hin as ([x sub] & Hp & Hin). simpl in Hin.
    assert (Hx : name_ok x = true).
    { apply (proj1 (List.Forall_forall _ _) Hnames).
      apply in_map_iff. by exists (x, sub). }
    destruct (IH (x, sub) Hp (ds ++ [x]) d f) as (Hd & Hf & Hext);
      [by apply (Hsub (x, sub)) | by apply names_ok_snoc | exact Hin |].
    split; [exact Hd |]. split; [exact Hf |]. right.
    exists x. destruct Hext as [-> | (y & ext & _ & ->)].
    + exists []. split; [apply in_map_iff; by exists (x, sub) | reflexivity].
    + exists (y :: ext). split; [apply in_map_iff; by exists (x, sub) |].
      by rewrite <- List.app_assoc.
Qed.

(** A file of the tree, as the walk lists it. *)
Definition listed (p : list string * string) : string * string :=
  (root_of (fst p), snd p).

(** The walk of a well-formed tree lists its files under the directories
    [root_of] gives. *)
Lemma os_walk_jobs t :
  forall ds,
    wf_tree t = true -> names_ok ds ->
    walk_jobs (os_walk (root_of ds) t) = List.map listed (tree_files ds t).
Proof.
  induction t as [files subdirs IH] using dirtree_induction.
  intros ds Hwf Hds.
  apply wf_tree_parts in Hwf as (_ & _ & Hnames & _ & Hsub).
  rewrite os_walk_unfold.
  change (walk_jobs ((root_of ds, files) :: ?w))
    with (List.map (pair (root_of ds)) files ++ walk_jobs w).
  cbn [tree_files]. rewrite List.map_app, List.map_map. f_equal.
  induction subdirs as [| [x sub] l IHl]; [reflexivity |].
  cbn [flat_map]. rewrite walk_jobs_app, List.map_app.
  assert (Hx : name_ok x = true) by (by inversion Hnames).
  cbn [fst snd]. rewrite path_join_root by assumption.
  rewrite (IH (x, sub)); [| by left | apply (Hsub (x, sub)); by left
                          | by apply names_ok_snoc].
  f_equal. apply IHl.
  - intros p Hp. apply IH. by right.
  - by inversion Hnames.
  - intros p Hp. apply Hsub. by right.
Qed.

Lemma tree_files_prefix t :
  forall ds d f, In (d, f) (tree_files ds t) -> exists ext, d = ds ++ ext.
Proof.
  induction t as [files subdirs IH] using dirtree_induction.
  intros ds d f Hin. simpl in Hin. apply in_app_or in Hin as [Hin | Hin].
  - apply in_map_iff in Hin as (f' & [= <- <-] & _). exists []. by rewrite List.app_nil_r.
  - apply in_flat_map in Hin as (p & Hp & Hin).
    destruct (IH p Hp _ _ _ Hin) as (ext & ->).
    exists (fst p :: ext). by rewrite <- List.app_assoc.
Qed.

Lemma subdir_files_prefix ds subdirs d f :
  In (d, f) (flat_map (fun p => tree_files (ds ++ [fst p]) (snd p)) subdirs) ->
  exists x ext, In x (List.map fst subdirs) /\ d = ds ++ x :: ext.
Proof.
  intros Hin. apply in_flat_map in Hin as (p & Hp & Hin).
  destruct (tree_files_prefix _ _ _ _ Hin) as (ext & ->).
  exists (fst p), ext. split; [by apply in_map | by rewrite <- List.app_assoc].
Qed.

(** No file is listed twice. *)
Lemma tree_files_NoDup t :
  forall ds, wf_tree t = true -> List.NoDup (tree_files ds t).
Proof.
  induction t as [files subdirs IH] using dirtree_induction.
  intros ds Hwf.
  apply wf_tree_parts in Hwf as (_ & Hfiles & _ & Hnames & Hsub).
  cbn [tree_files]. apply List.NoDup_app.
  - apply NoDup_map_NoDup_ForallPairs; [| exact Hfiles].
    intros a b _ _ [= ->]. reflexivity.
  - induction subdirs as [| [x sub] l IHl]; [constructor |].
    cbn [flat_map fst snd]. apply List.NoDup_app.
    + apply (IH (x, sub)); [by left | apply (Hsub (x, sub)); by left].
    + apply IHl.
      * intros p Hp. apply IH. by right.
      * by inversion Hnames.
      * intros p Hp. apply Hsub. by right.
    + intros [d f] Hin Hin'.
      destruct (tree_files_prefix _ _ _ _ Hin) as (ext & ->).
      destruct (subdir_files_prefix _ _ _ _ Hin') as (y & ext' & Hy & He).
      rewrite <- List.app_assoc in He. apply List.app_inv_head in He.
      injection He as -> _. by inversion Hnames.
  - intros [d f] Hin Hin'.
    apply in_map_iff in Hin as (f' & [= <- <-] & _).
    destruct (subdir_files_prefix _ _ _ _ Hin') as (y & ext' & _ & He).
    apply (f_equal (@List.length string)) in He.
    rewrite List.length_app in He. simpl in He. lia.
Qed.

End TreeFacts.

(* ===================================================================== *)
(** ** One file within a run *)
(* ===================================================================== *)

(** The number of rows with a given image reference. *)
Definition count_url (img_path : string) (rs : list row) : nat :=
  List.length (List.filter (fun r => String.eqb (image_url r) img_path) rs).

Lemma count_url_app q rs rs' : count_url q (rs ++ rs') = count_url q rs + count_url q rs'.
Proof. unfold count_url. by rewrite List.filter_app, List.length_app. Qed.

Lemma count_url_zero q rs : has_image_url q rs = false <-> count_url q rs = 0.
Proof.
  unfold has_image_url, count_url.
  induction rs as [| r rs IH]; simpl; [tauto |].
  destruct (String.eqb (image_url r) q); simpl; [split; [discriminate | lia] | exact IH].
Qed.

Lemma elem_of_select_image_urls q d :
  q ∈ select_image_urls d <-> has_image_url q (rows d) = true.
Proof.
  unfold select_image_urls, has_image_url.
  rewrite elem_of_list_to_set, list_elem_of_In, in_map_iff, existsb_exists.
  split.
  - intros (r & <- & Hr). exists r. split; [exact Hr | apply String.eqb_refl].
  - intros (r & Hr & He). exists r. apply String.eqb_eq in He. by split.
Qed.

Lemma storable_nonempty kv : storable kv = true -> kv <> [].
Proof. intros H ->. discriminate. Qed.

Lemma bind_Ok_inv {A B} (m : M A) (k : A -> M B) st b st' :
  bind m k st = (Ok b, st') ->
  exists a s1, m st = (Ok a, s1) /\ k a s1 = (Ok b, st').
Proof.
  unfold bind. destruct (m st) as [[a | e] s1]; [| discriminate].
  intros H. by exists a, s1.
Qed.

Lemma respects_result {A} R (m : M A) st r s1 :
  respects R m -> m st = (r, s1) -> R st s1.
Proof. intros H Hm. specialize (H st). by rewrite Hm in H. Qed.

Lemma NoDup_app_disjoint {A} (l l' : list A) a :
  List.NoDup (l ++ l') -> In a l -> ~ In a l'.
Proof.
  induction l as [| x l IH]; simpl; [tauto |].
  intros Hnd [-> | Hin] Hin'.
  - inversion Hnd as [| ? ? Hx _]; subst. apply Hx, in_or_app. by right.
  - inversion Hnd; subst. by apply IH.
Qed.

Section RunSplit.

Variable json_loads : string -> option json.
Variable backend : nat -> string -> http_result.
Variable R : state -> state -> Prop.
Hypothesis HR : frame R.
Variable batch_dir : string.

Local Abbreviation process_file' := (process_file json_loads backend batch_dir).
Local Abbreviation process_files' := (process_files json_loads backend batch_dir).
Local Abbreviation process_walk' := (process_walk json_loads backend batch_dir).

(** A run of the loop over the files of a directory that ends normally
    passes through the step of each file; [R] holds before and after it
    when it holds across the other files. *)
Lemma process_files_split root files filename st st' :
  List.NoDup files -> In filename files ->
  (forall f, In f files -> f <> filename -> across_file R batch_dir root f) ->
  process_files' root files st = (Ok tt, st') ->
  exists s1 s2,
    R st s1 /\ process_file' root filename s1 = (Ok tt, s2) /\ R s2 st'.
Proof.
  revert st. induction files as [| f files IH]; intros st Hnd Hin Hothers Hrun;
    [destruct Hin |].
  cbn [process_files] in Hrun.
  apply bind_Ok_inv in Hrun as ([] & sa & Hstep & Hrest).
  inversion Hnd as [| ? ? Hf Hnd']; subst.
  destruct Hin as [-> | Hin].
  - exists st, sa. split; [apply (frame_refl R HR) |]. split; [exact Hstep |].
    eapply respects_result; [| exact Hrest].
    apply process_files_respects; [exact HR |].
    intros g Hg. apply Hothers; [by right | intros ->; contradiction].
  - destruct (IH sa Hnd' Hin) as (s1 & s2 & H1 & Hs & H2); [| exact Hrest |].
    + intros g Hg Hne. apply Hothers; [by right | exact Hne].
    + exists s1, s2. split; [| by split].
      eapply (frame_trans R HR); [| exact H1].
      eapply respects_result; [| exact Hstep].
      apply process_file_respects; [exact HR |].
      apply Hothers; [by left | intros ->; contradiction].
Qed.

Lemma process_walk_split walk root filename st st' :
  List.NoDup (walk_jobs walk) -> In (root, filename) (walk_jobs walk) ->
  (forall r f, In (r, f) (walk_jobs walk) -> (r, f) <> (root, filename) ->
     across_file R batch_dir r f) ->
  process_walk' walk st = (Ok tt, st') ->
  exists s1 s2,
    R st s1 /\ process_file' root filename s1 = (Ok tt, s2) /\ R s2 st'.
Proof.
  revert st. induction walk as [| [r0 files0] walk IH];
    intros st Hnd Hin Hothers Hrun; [destruct Hin |].
  change (walk_jobs ((r0, files0) :: walk))
    with (List.map (pair r0) files0 ++ walk_jobs walk) in *.
  cbn [process_walk] in Hrun.
  apply bind_Ok_inv in Hrun as ([] & sa & Hlog & Hrun).
  apply bind_Ok_inv in Hrun as ([] & sb & Hfiles & Hrest).
  injection Hlog as <-.
  apply in_app_or in Hin as [Hin | Hin].
  - apply in_map_iff in Hin as (f & [= <- <-] & Hf).
    destruct (process_files_split r0 files0 f
                (add_event (Log (LogTraversing r0)) st) sb
                (NoDup_map_inv _ _ (NoDup_app_remove_r _ _ Hnd)) Hf)
      as (s1 & s2 & H1 & Hs & H2); [| exact Hfiles |].
    + intros g Hg Hne. apply Hothers; [| congruence].
      apply in_or_app. left. by apply in_map.
    + exists s1, s2. split; [| split; [exact Hs |]].
      * eapply (frame_trans R HR); [apply (frame_event R HR) | exact H1].
      * eapply (frame_trans R HR); [exact H2 |].
        eapply respects_result; [| exact Hrest].
        apply process_walk_respects; [exact HR |].
        intros r g Hg. apply Hothers; [apply in_or_app; by right |].
        intros [= -> ->]. eapply NoDup_app_disjoint; [exact Hnd | | exact Hg].
        by apply in_map.
  - destruct (IH sb (NoDup_app_remove_l _ _ Hnd) Hin) as (s1 & s2 & H1 & Hs & H2);
      [| exact Hrest |].
    + intros r g Hg Hne. apply Hothers; [apply in_or_app; by right | exact Hne].
    + exists s1, s2. split; [| by split].
      eapply (frame_trans R HR); [apply (frame_event R HR) |].
      eapply (frame_trans R HR); [| exact H1].
      eapply respects_result; [| exact Hfiles].
      apply process_files_respects; [exact HR |].
      intros g Hg. apply Hothers; [apply in_or_app; left; by apply in_map |].
      intros [= -> ->]. eapply NoDup_app_disjoint; [exact Hnd | | exact Hin].
      by apply in_map.
Qed.

End RunSplit.

(** What the steps of the other files leave as it is: the dedup set, the
    number of rows with the reference [q], and the files at [p] and [q]. *)
Definition untouched (p q : string) (s s' : state) : Prop :=
  existing_images s' = existing_images s
  /\ count_url q (rows (db s')) = count_url q (rows (db s))
  /\ fs s' !! p = fs s !! p
  /\ fs s' !! q = fs s !! q.

Lemma untouched_frame p q : frame (untouched p q).
Proof.
  split; unfold untouched.
  - intros s. tauto.
  - intros a b c (A1 & A2 & A3 & A4) (B1 & B2 & B3 & B4).
    rewrite B1, B2, B3, B4. tauto.
  - intros e s. tauto.
  - intros n s. tauto.
Qed.

Lemma untouched_across_file p q batch_dir root filename :
  Path.join root filename <> p -> Path.join root filename <> q ->
  new_image_path_of batch_dir root filename <> p ->
  new_image_path_of batch_dir root filename <> q ->
  across_file (untouched p q) batch_dir root filename.
Proof.
  intros H1 H2 H3 H4. split.
  - intros s f Hf. unfold untouched, set_fs. cbn [existing_images db fs].
    rewrite !lookup_insert_ne, !lookup_delete_ne by assumption. tauto.
  - intros s d a b c e f g h i j k Hd. unfold untouched, set_db.
    cbn [existing_images db fs]. split; [reflexivity |]. split; [| tauto].
    apply sql_insert_Ok in Hd as (_ & _ & ->).
    cbn [rows]. rewrite count_url_app. unfold count_url at 2. simpl.
    apply String.eqb_neq in H4. rewrite H4. simpl. lia.
Qed.

(** When the table has an id left afterwards, it had one before: the ids
    only grow. *)
Definition ids_were_left (s s' : state) : Prop :=
  ids_left (db s') = true -> ids_left (db s) = true.

Lemma ids_were_left_frame : frame ids_were_left.
Proof.
  split; unfold ids_were_left.
  - intros s H. exact H.
  - intros a b c H1 H2 H. by apply H1, H2.
  - intros e s H. exact H.
  - intros n s H. exact H.
Qed.

Lemma ids_were_left_across_file batch_dir root filename :
  across_file ids_were_left batch_dir root filename.
Proof.
  split.
  - intros s f _ H. exact H.
  - intros s d a b c e f g h i j k Hd _.
    by apply sql_insert_Ok in Hd as (H & _).
Qed.

(** Two relations that hold across a step hold together. *)
Lemma frame_and R R' :
  frame R -> frame R' -> frame (fun s s' => R s s' /\ R' s s').
Proof.
  intros H H'. split.
  - intros s. split; [apply (frame_refl R H) | apply (frame_refl R' H')].
  - intros a b c [H1 H1'] [H2 H2']. split;
      [by apply (frame_trans R H a b c) | by apply (frame_trans R' H' a b c)].
  - intros e s. split; [apply (frame_event R H) | apply (frame_event R' H')].
  - intros n s. split; [apply (frame_calls R H) | apply (frame_calls R' H')].
Qed.

Lemma across_file_and R R' batch_dir root filename :
  across_file R batch_dir root filename ->
  across_file R' batch_dir root filename ->
  across_file (fun s s' => R s s' /\ R' s s') batch_dir root filename.
Proof.
  intros [Hm Hi] [Hm' Hi']. split.
  - intros s f Hf. split; [by apply Hm | by apply Hm'].
  - intros s d a b c e f g h i j k Hd. split; [by eapply Hi | by eapply Hi'].
Qed.

Section Success.

Variable json_loads : string -> option json.
Variable backend : nat -> string -> http_result.

(** The step of a valid image with a storable record and a new
    destination that can be encoded, on a table with an id left: the file
    is moved and one row is appended. *)
Lemma process_file_success batch_dir root filename st content kv :
  is_image filename = true ->
  fs st !! Path.join root filename = Some (File content) ->
  content <> [] ->
  new_image_path_of batch_dir root filename ∉ existing_images st ->
  extraction json_loads backend (calls st) (b64encode content) = Ok (JObj kv) ->
  storable kv = true ->
  Str.encodable (new_image_path_of batch_dir root filename) = true ->
  ids_left (db st) = true ->
  has_image_url (new_image_path_of batch_dir root filename) (rows (db st)) = false ->
  exists evs,
    process_file json_loads backend batch_dir root filename st =
      (Ok tt,
       after
         (State
            (<[new_image_path_of batch_dir root filename := File content]>
               (delete (Path.join root filename) (fs st)))
            (Database
               (rows (db st) ++
                  [row_of (next_id (db st)) kv
                     (new_image_path_of batch_dir root filename)])
               (next_id (db st)))
            (S (calls st)) (existing_images st) (trace st))
         evs).
Proof.
  intros Himg Hf Hne Hnew Hex Hs Henc Hids Hurl.
  destruct (process_file_analyzed json_loads backend batch_dir root filename st
              content Himg Hf Hne Hnew) as (v & evs & Hv & _ & Hp).
  rewrite Hex in Hv. injection Hv as <-.
  rewrite (truthy_dict kv (storable_nonempty kv Hs)) in Hp.
  unfold try_except in Hp. cbv [bind] in Hp.
  unfold shutil_move in Hp at 1.
  change (fs (after (set_calls _ st) _)) with (fs st) in Hp.
  rewrite Hf in Hp.
  rewrite insert_product_info_storable in Hp by assumption.
  cbv [logging emit] in Hp.
  eexists. rewrite Hp. norm_state. reflexivity.
Qed.

(** A valid image among the files of a run that ends normally. *)
Lemma archived_and_recorded batch_dir walk st st' root filename content :
  let p := Path.join root filename in
  let q := new_image_path_of batch_dir root filename in
  List.NoDup (walk_jobs walk) -> In (root, filename) (walk_jobs walk) ->
  (forall r f, In (r, f) (walk_jobs walk) -> (r, f) <> (root, filename) ->
     Path.join r f <> p /\ Path.join r f <> q
     /\ new_image_path_of batch_dir r f <> p
     /\ new_image_path_of batch_dir r f <> q) ->
  p <> q ->
  process_walk json_loads backend batch_dir walk st = (Ok tt, st') ->
  is_image filename = true ->
  fs st !! p = Some (File content) -> content <> [] ->
  q ∉ existing_images st ->
  has_image_url q (rows (db st)) = false ->
  Str.encodable q = true ->
  ids_left (db st') = true ->
  (forall n, exists kv,
      extraction json_loads backend n (b64encode content) = Ok (JObj kv)
      /\ storable kv = true) ->
  count_url q (rows (db st')) = 1
  /\ fs st' !! p = None
  /\ fs st' !! q = Some (File content).
Proof.
  intros p q Hnd Hin Hsep Hpq Hrun Himg Hf Hne Hnew Hurl Henc Hids Hex.
  destruct (process_walk_split json_loads backend
              (fun s s' => untouched p q s s' /\ ids_were_left s s')
              (frame_and _ _ (untouched_frame p q) ids_were_left_frame)
              batch_dir walk root filename st st' Hnd Hin)
    as (s1 & s2 & [(A1 & A2 & A3 & A4) A5] & Hstep & [(B1 & B2 & B3 & B4) B5]);
    [| exact Hrun |].
  { intros r f Hrf Hne'. destruct (Hsep r f Hrf Hne') as (H1 & H2 & H3 & H4).
    apply across_file_and;
      [by apply untouched_across_file | apply ids_were_left_across_file]. }
  assert (Hids1 : ids_left (db s1) = true).
  { pose proof (process_file_respects json_loads backend ids_were_left
                  ids_were_left_frame batch_dir root filename
                  (ids_were_left_across_file batch_dir root filename) s1) as Hown.
    rewrite Hstep in Hown. apply Hown, B5, Hids. }
  destruct (Hex (calls s1)) as (kv & Hkv & Hs).
  apply count_url_zero in Hurl.
  destruct (process_file_success batch_dir root filename s1 content kv)
    as (evs & Hp); try assumption.
  - fold p. by rewrite A3.
  - fold q. by rewrite A1.
  - fold q. apply count_url_zero. by rewrite A2.
  - rewrite Hp in Hstep. injection Hstep as <-.
    fold p q in B2, B3, B4 |- *.
    rewrite B2, B3, B4. cbn [after db fs rows].
    rewrite count_url_app, A2, Hurl.
    rewrite lookup_insert_ne, lookup_delete_eq, lookup_insert_eq by congruence.
    split; [| by split]. unfold count_url. simpl. by rewrite String.eqb_refl.
Qed.

End Success.

(* ===================================================================== *)
(** ** A run over an upload tree *)
(* ===================================================================== *)

Module RunFacts.

Import PathFacts TreeFacts.

Lemma uploads_dir_root : UPLOADS_DIR = root_of [].
Proof. reflexivity. Qed.

Lemma names_ok_nil : names_ok [].
Proof. constructor. Qed.

(** The files the walk of a well-formed tree lists. *)
Lemma jobs_of_tree t :
  wf_tree t = true ->
  List.NoDup (walk_jobs (os_walk UPLOADS_DIR t))
  /\ forall root filename,
       In (root, filename) (walk_jobs (os_walk UPLOADS_DIR t)) ->
       exists ds, root = root_of ds /\ names_ok ds /\ name_ok filename = true.
Proof.
  intros Hwf. rewrite uploads_dir_root, os_walk_jobs by (try assumption; constructor).
  split.
  - apply NoDup_map_NoDup_ForallPairs; [| by apply tree_files_NoDup].
    intros [d f] [d' f'] Hin Hin' Heq.
    pose proof (f_equal fst Heq) as Hd. pose proof (f_equal snd Heq) as Hf.
    cbn [listed fst snd] in Hd, Hf. subst f.
    apply (tree_files_below t [] d f' Hwf names_ok_nil) in Hin as (Hok & _).
    apply (tree_files_below t [] d' f' Hwf names_ok_nil) in Hin' as (Hok' & _).
    f_equal. by apply root_of_inj.
  - intros root filename Hin. apply in_map_iff in Hin as ([d f] & [= <- <-] & Hin).
    apply (tree_files_below t [] d f Hwf names_ok_nil) in Hin as (Hok & Hf & _).
    by exists d.
Qed.

(** Sources and destinations of the files of an upload tree. *)
Lemma paths_separated timestamp ds filename ds' filename' :
  is_timestamp timestamp = true ->
  names_ok ds -> name_ok filename = true ->
  names_ok ds' -> name_ok filename' = true ->
  let batch_dir := Path.join INVENTORY_IMAGES_DIR timestamp in
  (Path.join (root_of ds) filename = Path.join (root_of ds') filename' ->
   ds = ds' /\ filename = filename')
  /\ (new_image_path_of batch_dir (root_of ds) filename =
      new_image_path_of batch_dir (root_of ds') filename' ->
      ds = ds' /\ filename = filename')
  /\ Path.join (root_of ds) filename <>
     new_image_path_of batch_dir (root_of ds') filename'.
Proof.
  intros Hts Hds Hf Hds' Hf' batch_dir.
  destruct (batch_dir_ends timestamp Hts) as (_ & Hbne & Hbe).
  fold batch_dir in Hbne, Hbe.
  rewrite !source_path, !destination_path by assumption.
  split; [| split].
  - intros H. apply StrFacts.app_inv_head, StrFacts.app_inv_head in H.
    by apply relative_inj.
  - intros H. apply StrFacts.app_inv_head, StrFacts.app_inv_head in H.
    by apply relative_inj.
  - by apply source_is_not_destination.
Qed.

End RunFacts.

(** The paths of a file of a well-formed upload tree differ from the paths
    of every other file of the tree. *)
Lemma tree_paths_separated timestamp t root filename root' filename' :
  wf_tree t = true ->
  is_timestamp timestamp = true ->
  In (root, filename) (walk_jobs (os_walk UPLOADS_DIR t)) ->
  In (root', filename') (walk_jobs (os_walk UPLOADS_DIR t)) ->
  let batch_dir := Path.join INVENTORY_IMAGES_DIR timestamp in
  Path.join root' filename' <> new_image_path_of batch_dir root filename
  /\ ((root', filename') <> (root, filename) ->
      Path.join root' filename' <> Path.join root filename
      /\ new_image_path_of batch_dir root' filename' <>
         new_image_path_of batch_dir root filename).
Proof.
  intros Hwf Hts Hin Hin' batch_dir.
  destruct (RunFacts.jobs_of_tree t Hwf) as [_ Hjobs].
  destruct (Hjobs root filename Hin) as (ds & -> & Hds & Hfn).
  destruct (Hjobs root' filename' Hin') as (ds' & -> & Hds' & Hfn').
  destruct (RunFacts.paths_separated timestamp ds' filename' ds filename
              Hts Hds' Hfn' Hds Hfn) as (H1 & H2 & H3).
  fold batch_dir in H2, H3. split; [exact H3 |].
  intros Hne. split.
  - intros H. apply H1 in H as [-> ->]. by apply Hne.
  - intros H. apply H2 in H as [-> ->]. by apply Hne.
Qed.

(** A valid image of a well-formed upload tree in a run that ends
    normally: one row has its destination, the file has moved. *)
Lemma tree_image_run json_loads backend timestamp t st st' root filename content :
  wf_tree t = true ->
  is_timestamp timestamp = true ->
  process_uploaded_images json_loads backend timestamp
    (os_walk UPLOADS_DIR t) st = (Ok tt, st') ->
  ids_left (db st') = true ->
  In (root, filename) (walk_jobs (os_walk UPLOADS_DIR t)) ->
  is_image filename = true ->
  fs st !! Path.join root filename = Some (File content) ->
  content <> [] ->
  Str.encodable
    (new_image_path_of (Path.join INVENTORY_IMAGES_DIR timestamp) root filename)
    = true ->
  has_image_url
    (new_image_path_of (Path.join INVENTORY_IMAGES_DIR timestamp) root filename)
    (rows (db st)) = false ->
  (forall n, exists kv,
      extraction json_loads backend n (b64encode content) = Ok (JObj kv)
      /\ storable kv = true) ->
  count_url
    (new_image_path_of (Path.join INVENTORY_IMAGES_DIR timestamp) root filename)
    (rows (db st')) = 1
  /\ fs st' !! Path.join root filename = None
  /\ fs st' !!
       new_image_path_of (Path.join INVENTORY_IMAGES_DIR timestamp) root filename =
     Some (File content).
Proof.
  intros Hwf Hts Hrun Hids Hin Himg Hf Hne Henc Hurl Hex.
  destruct (RunFacts.jobs_of_tree t Hwf) as [Hnd _].
  rewrite process_uploaded_images_unfold in Hrun.
  destruct (process_walk _ _ _ _ _) as [[[] | e] s'] eqn:Hwalk; [| discriminate].
  injection Hrun as <-.
  apply (archived_and_recorded json_loads backend
           (Path.join INVENTORY_IMAGES_DIR timestamp) (os_walk UPLOADS_DIR t)
           (loop_start timestamp st) s' root filename content);
    try assumption.
  - intros r f Hrf Hne'.
    destruct (tree_paths_separated timestamp t root filename r f Hwf Hts Hin Hrf)
      as (H1 & H2).
    destruct (tree_paths_separated timestamp t r f root filename Hwf Hts Hrf Hin)
      as (H3 & _).
    destruct (H2 Hne') as (H4 & H5). repeat split; try assumption.
    intros H. by apply H3.
  - by destruct (tree_paths_separated timestamp t root filename root filename
                   Hwf Hts Hin Hin) as (H & _).
  - intros H. apply elem_of_select_image_urls in H. congruence.
Qed.

(** C2 (amended).  Take a run over a well-formed upload tree, under a
    timestamp of the format of the script, that ends without an uncaught
    exception and with an id left in the table; and a file of the tree with
    an image extension that is readable and not empty, whose destination
    can be encoded and is not yet an image reference of the table, and for
    which the extractor returns, whatever the number of the request, a
    record with the ten fields whose values can be stored (scalars, and for
    description and key_tags also lists of strings).  The destination is
    the archive directory followed by the path of the file relative to the
    upload root; after the run exactly one row has the destination as its
    image reference, the file is no longer at its original path and is at
    the destination, and every other file of the tree has another
    destination. *)
Theorem valid_image_is_archived_and_recorded :
  forall json_loads backend timestamp t st st' root filename content,
    wf_tree t = true ->
    is_timestamp timestamp = true ->
    process_uploaded_images json_loads backend timestamp
      (os_walk UPLOADS_DIR t) st = (Ok tt, st') ->
    ids_left (db st') = true ->
    In (root, filename) (walk_jobs (os_walk UPLOADS_DIR t)) ->
    is_image filename = true ->
    fs st !! Path.join root filename = Some (File content) ->
    content <> [] ->
    Str.encodable
      (new_image_path_of (Path.join INVENTORY_IMAGES_DIR timestamp) root filename)
      = true ->
    has_image_url
      (new_image_path_of (Path.join INVENTORY_IMAGES_DIR timestamp) root filename)
      (rows (db st)) = false ->
    (forall n, exists kv,
        extraction json_loads backend n (b64encode content) = Ok (JObj kv)
        /\ storable kv = true) ->
    let batch_dir := Path.join INVENTORY_IMAGES_DIR timestamp in
    let destination := new_image_path_of batch_dir root filename in
    (exists relative,
        Path.join root filename = UPLOADS_DIR +:+ "/" +:+ relative
        /\ destination = batch_dir +:+ "/" +:+ relative)
    /\ count_url destination (rows (db st')) = 1
    /\ fs st' !! Path.join root filename = None
    /\ fs st' !! destination = Some (File content)
    /\ (forall root' filename',
          In (root', filename') (walk_jobs (os_walk UPLOADS_DIR t)) ->
          (root', filename') <> (root, filename) ->
          new_image_path_of batch_dir root' filename' <> destination).
Proof.
  intros json_loads backend timestamp t st st' root filename content
    Hwf Hts Hrun Hids Hin Himg Hf Hne Henc Hurl Hex batch_dir destination.
  destruct (tree_image_run json_loads backend timestamp t st st' root filename
              content Hwf Hts Hrun Hids Hin Himg Hf Hne Henc Hurl Hex)
    as (C1 & C2 & C3).
  split.
  { destruct (RunFacts.jobs_of_tree t Hwf) as [_ Hjobs].
    destruct (Hjobs root filename Hin) as (ds & Hroot & Hds & Hfn).
    destruct (PathFacts.batch_dir_ends timestamp Hts) as (_ & Hbne & Hbe).
    exists (Str.join "/" (ds ++ [filename])).
    unfold destination, batch_dir. rewrite Hroot. split.
    - by apply PathFacts.source_path.
    - by apply PathFacts.destination_path. }
  split; [exact C1 |]. split; [exact C2 |]. split; [exact C3 |].
  intros root' filename' Hin' Hne'.
  destruct (tree_paths_separated timestamp t root filename root' filename'
              Hwf Hts Hin Hin') as (_ & Hsep).
  by destruct (Hsep Hne') as (_ & H).
Qed.

Lemma sample_extraction n image_base64 :
  extraction Json.loads (always (fenced "```json" sample_text)) n image_base64 =
    Ok (JObj sample_record).
Proof.
  rewrite (extraction_fenced Json.loads _ n image_base64 200
             (fenced "```json" sample_text) "```json" sample_text "```").
  - vm_compute. reflexivity.
  - reflexivity.
  - reflexivity.
  - vm_compute. reflexivity.
  - reflexivity.
  - reflexivity.
  - reflexivity.
Qed.

Lemma valid_image_is_archived_and_recorded_witness :
  count_url sample_destination
    (rows (db (snd (sample_run "20240101-120000" sample_state)))) = 1
  /\ fs (snd (sample_run "20240101-120000" sample_state))
       !! Path.join "data/images/uploads/a" "photo.jpg" = None
  /\ fs (snd (sample_run "20240101-120000" sample_state)) !! sample_destination =
       Some (File (bytes "first image")).
Proof.
  pose proof (surjective_pairing (sample_run "20240101-120000" sample_state))
    as Hrun.
  assert (Hfst : fst (sample_run "20240101-120000" sample_state) = Ok tt)
    by (vm_compute; reflexivity).
  rewrite Hfst in Hrun.
  assert (Hdest : new_image_path_of
                    (Path.join INVENTORY_IMAGES_DIR "20240101-120000")
                    "data/images/uploads/a" "photo.jpg" = sample_destination)
    by (vm_compute; reflexivity).
  destruct (valid_image_is_archived_and_recorded Json.loads
              (always (fenced "```json" sample_text)) "20240101-120000"
              sample_tree sample_state
              (snd (sample_run "20240101-120000" sample_state))
              "data/images/uploads/a" "photo.jpg"
              (bytes "first image")) as (_ & H1 & H2 & H3 & _).
  - reflexivity.
  - reflexivity.
  - exact Hrun.
  - vm_compute. reflexivity.
  - vm_compute. tauto.
  - reflexivity.
  - vm_compute. reflexivity.
  - discriminate.
  - rewrite Hdest. reflexivity.
  - rewrite Hdest. reflexivity.
  - intros n. exists sample_record. split; [apply sample_extraction | reflexivity].
  - rewrite Hdest in H1, H3.
    split; [exact H1 | split; [exact H2 | exact H3]].
Defined.

(** The record of the examples with two colours, as text. *)
Definition two_colours_text : string :=
  "{'name': 'Stool', 'description': ['carved', 'wood'], 'category': 'Stools', 'material': 'wood', 'color': ['brown', 'black'], 'dimensions': '40cm', 'origin_source': 'Ghana', 'import_cost': 25, 'retail_price': null, 'key_tags': ['stool', 'ashanti']}".

(** The record of the examples with numbers as description, as text. *)
Definition numbered_text : string :=
  "{'name': 'Stool', 'description': [1, 2], 'category': 'Stools', 'material': 'wood', 'color': 'brown', 'dimensions': '40cm', 'origin_source': 'Ghana', 'import_cost': 25, 'retail_price': null, 'key_tags': ['stool', 'ashanti']}".

(** A backend whose first answer is [first] and whose later answers are
    [later]. *)
Definition first_then (first later : string) (n : nat) (image_base64 : string)
  : http_result :=
  PostReturned 200 (Some (match n with O => first | S _ => later end)).

(** A table that already holds a row for the destination of [a/photo.jpg]. *)
Definition recorded_database : database :=
  Database
    [Row 1 (SText "Stool") (SText "carved") sample_destination (SText "Stools")
       (SText "wood") (SText "brown") (SText "40cm") (SText "Ghana") (SReal 25 0)
       SNull (SText "stool")]
    1.

(** C2 as stated fails in three ways, each for the valid image
    [a/photo.jpg] and a response with all ten fields.  With a list of two
    colours the INSERT cannot bind the value: the file is moved and no row
    exists.  With the destination already a reference of the table the
    file is skipped: it stays where it was and no new row exists.  With a
    later file whose description is a list of numbers the run ends with an
    uncaught [TypeError] and the inserts of the run are rolled back: the
    file is moved and no row exists. *)
Lemma valid_image_without_new_record :
  (let r := process_uploaded_images Json.loads (always two_colours_text)
              "20240101-120000" (os_walk UPLOADS_DIR sample_tree) sample_state in
   fst r = Ok tt
   /\ has_key "color" sample_record = true
   /\ rows (db (snd r)) = []
   /\ fs (snd r) !! "data/images/uploads/a/photo.jpg" = None
   /\ fs (snd r) !! sample_destination = Some (File (bytes "first image")))
  /\ (let st := set_db recorded_database sample_state in
      let r := sample_run "20240101-120000" st in
      fst r = Ok tt
      /\ fs (snd r) !! "data/images/uploads/a/photo.jpg" =
           Some (File (bytes "first image"))
      /\ List.filter (fun x => String.eqb (image_url x) sample_destination)
           (rows (db (snd r))) = rows recorded_database)
  /\ (let r := process_uploaded_images Json.loads
                 (first_then sample_text numbered_text)
                 "20240101-120000" (os_walk UPLOADS_DIR sample_tree)
                 sample_state in
      fst r = Raise TypeError
      /\ rows (db (snd r)) = []
      /\ fs (snd r) !! "data/images/uploads/a/photo.jpg" = None
      /\ fs (snd r) !! sample_destination = Some (File (bytes "first image"))).
Proof. cbv zeta. repeat apply conj; vm_compute; reflexivity. Qed.

(* ===================================================================== *)
(** ** What a run does to the rows it finds *)
(* ===================================================================== *)

(** The [n] ids after [b]. *)
Fixpoint ids_after (b : Z) (n : nat) : list Z :=
  match n with
  | O => []
  | S n' => (b + 1)%Z :: ids_after (b + 1) n'
  end.

Lemma ids_after_app b n m :
  ids_after b (n + m) = ids_after b n ++ ids_after (b + Z.of_nat n) m.
Proof.
  revert b. induction n as [| n IH]; intros b.
  - simpl. by rewrite Z.add_0_r.
  - cbn [Nat.add ids_after app]. rewrite IH. do 3 f_equal. lia.
Qed.

Lemma max_id_snoc rs r :
  (max_id rs <= id r)%Z -> max_id (rs ++ [r]) = id r.
Proof.
  destruct rs as [| x rs]; [reflexivity |].
  cbn [max_id app]. generalize (id x) as b.
  induction rs as [| y rs IH]; intros b; cbn [fold_right app]; [lia |].
  intros H. rewrite IH; lia.
Qed.

(** The table of [s'] is the table of [s] with rows appended, whose ids
    follow the greatest id given out so far. *)
Definition appended (s s' : state) : Prop :=
  exists l,
    rows (db s') = rows (db s) ++ l
    /\ List.map id l = ids_after (high_water (db s)) (List.length l)
    /\ high_water (db s') = (high_water (db s) + Z.of_nat (List.length l))%Z.

Lemma appended_same_table s s' : db s' = db s -> appended s s'.
Proof.
  intros H. exists []. unfold appended. rewrite H, List.app_nil_r. simpl.
  split; [reflexivity |]. split; [reflexivity | lia].
Qed.

Lemma appended_frame : frame appended.
Proof.
  split.
  - intros s. by apply appended_same_table.
  - intros a b c (l1 & R1 & I1 & H1) (l2 & R2 & I2 & H2).
    exists (l1 ++ l2). rewrite R2, R1, <- List.app_assoc.
    split; [reflexivity |].
    rewrite List.map_app, List.length_app, ids_after_app, I1, I2, H1, H2.
    split; [reflexivity | lia].
  - intros e s. by apply appended_same_table.
  - intros n s. by apply appended_same_table.
Qed.

Lemma appended_across_file batch_dir root filename :
  across_file appended batch_dir root filename.
Proof.
  split.
  - intros s f _. by apply appended_same_table.
  - intros s d a b c e f g h i j k Hd.
    apply sql_insert_Ok in Hd as (_ & _ & ->).
    eexists [_]. unfold set_db, next_id, high_water. cbn [db rows seq List.length].
    split; [reflexivity |]. split; [reflexivity |].
    rewrite max_id_snoc; cbn [id]; lia.
Qed.


(* ===================================================================== *)
(** ** A second run *)
(* ===================================================================== *)

Module TimestampFacts.

Import StrFacts PathFacts.




End TimestampFacts.






(* ===================================================================== *)
(** ** More on [analyze_image]: what one call does, whatever goes wrong *)
(* ===================================================================== *)

(** X1.  [analyze_image] never raises and never tries again: for every
    backend and every parser it sends exactly one request and returns a
    value; the files and the table are as before, and beyond the request
    there are only log entries (no wait, no second request). *)
Theorem analyze_image_returns_after_one_request :
  forall json_loads backend image_base64 st,
    exists v evs,
      analyze_image json_loads backend image_base64 st =
        (Ok v,
         State (fs st) (db st) (S (calls st)) (existing_images st)
           (trace st ++
            Log LogSendingRequest :: HttpPost (calls st) image_base64 :: evs))
      /\ Forall is_log evs.
Proof.
  intros json_loads backend image_base64 st.
  destruct (analyze_image_returns json_loads backend image_base64 st)
    as (v & evs & H & Hl).
  exists v, evs. split; [exact H | exact Hl].
Qed.




Lemma split_once_whole c s :
  StrFacts.has_char c s = false -> Str.split_once c s = [s].
Proof.
  induction s as [| x s IH]; simpl; [reflexivity |].
  destruct (Ascii.eqb x c); simpl; [discriminate |].
  intros H. by rewrite (IH H).
Qed.

(** X3.  A reply that opens with the fence and the word json but has no line
    break (the whole of it on one line) gives the empty record: the split at
    the first line break has no second part, the [IndexError] is caught by
    the last clause and logged as unexpected.  The parser is not called. *)
Theorem fence_on_one_line_gives_empty_record :
  forall json_loads backend image_base64 st status text,
    backend (calls st) image_base64 = PostReturned status (Some text) ->
    status_ok status = true ->
    Str.startswith "```json" (Str.strip text) = true ->
    Str.contains (String Str.LF "") (Str.strip text) = false ->
    analyze_image json_loads backend image_base64 st =
      (Ok (JObj []),
       after (set_calls (S (calls st)) st)
         [Log LogSendingRequest; HttpPost (calls st) image_base64;
          Log (LogResponseStatus status);
          Log (LogResponseText (Str.strip text)); Log LogUnexpected]).
Proof.
  intros json_loads backend image_base64 st status text Hb Hs Hf Hn.
  rewrite analyze_image_is_body.
  unfold analyze_image_body, try_except, requests_post, raise_for_status,
    content_text, strip_fence.
  cbv [bind logging emit]. change (calls (add_event _ st)) with (calls st).
  rewrite Hb. cbn [fst snd].
  unfold status_ok in Hs. apply negb_true_iff in Hs. rewrite Hs.
  cbv [ret]. rewrite Hf.
  rewrite StrFacts.contains_char in Hn. rewrite (split_once_whole _ _ Hn).
  unfold raise. norm_state. reflexivity.
Qed.

(** The record of the examples between the fences, all on one line. *)
Definition one_line_text : string := "```json" +:+ sample_text +:+ "```".

Lemma fence_on_one_line_gives_empty_record_witness :
  Json.loads (Str.replace_char "'" Str.DQ sample_text) = Some (JObj sample_record)
  /\ analyze_image Json.loads (always one_line_text) "TWFu" (blank 0) =
       (Ok (JObj []),
        after (set_calls 1 (blank 0))
          [Log LogSendingRequest; HttpPost 0 "TWFu";
           Log (LogResponseStatus 200);
           Log (LogResponseText (Str.strip one_line_text)); Log LogUnexpected]).
Proof.
  split; [vm_compute; reflexivity |].
  apply (fence_on_one_line_gives_empty_record Json.loads (always one_line_text)
           "TWFu" (blank 0) 200 one_line_text).
  - reflexivity.
  - reflexivity.
  - vm_compute. reflexivity.
  - vm_compute. reflexivity.
Defined.

(* ===================================================================== *)
(** ** The base64 text of a file *)
(* ===================================================================== *)

Module Base64Facts.

(** Induction on a list of bytes three at a time, as [b64encode] reads
    it. *)
Lemma by_threes (P : list byte -> Prop) :
  P [] -> (forall a, P [a]) -> (forall a b, P [a; b]) ->
  (forall a b c rest, P rest -> P (a :: b :: c :: rest)) ->
  forall bs, P bs.
Proof.
  intros H0 H1 H2 H3.
  assert (H : forall bs, P bs /\ (forall a, P (a :: bs)) /\ forall a b, P (a :: b :: bs)).
  { induction bs as [| c bs (IH0 & IH1 & IH2)]; [by repeat split |].
    split; [apply IH1 |]. split; [intros a; apply IH2 |].
    intros a b. by apply H3. }
  intros bs. apply H.
Qed.

(** The place of a character in the alphabet. *)
Fixpoint index_from (i : N) (c : ascii) (s : string) : N :=
  match s with
  | EmptyString => i
  | String x s' => if Ascii.eqb x c then i else index_from (i + 1) c s'
  end.

Definition b64_index (c : ascii) : N := index_from 0 c b64_alphabet.

Definition sextets : list N := List.map N.of_nat (List.seq 0 64).

Lemma sextet_listed n : (n < 64)%N -> In n sextets.
Proof.
  intros H. apply in_map_iff. exists (N.to_nat n).
  split; [apply N2Nat.id | apply in_seq; lia].
Qed.

Lemma for_all_sextets (f : N -> bool) :
  forallb f sextets = true -> forall n, (n < 64)%N -> f n = true.
Proof.
  intros H n Hn. rewrite forallb_forall in H. by apply H, sextet_listed.
Qed.

Lemma b64_index_char n : (n < 64)%N -> b64_index (b64_char n) = n.
Proof.
  intros H. apply N.eqb_eq.
  revert n H. apply for_all_sextets. vm_compute. reflexivity.
Qed.

Lemma b64_char_not_pad n : (n < 64)%N -> Ascii.eqb (b64_char n) "=" = false.
Proof.
  intros H. apply negb_true_iff.
  revert n H. apply (for_all_sextets (fun n => negb (Ascii.eqb (b64_char n) "="))).
  vm_compute. reflexivity.
Qed.

(** A letter of the alphabet. *)
Definition is_b64_letter (c : ascii) : bool :=
  StrFacts.has_char c b64_alphabet.

Lemma b64_char_letter n : (n < 64)%N -> is_b64_letter (b64_char n) = true.
Proof.
  revert n. apply for_all_sextets. vm_compute. reflexivity.
Qed.

Definition byte_of (n : N) : byte :=
  match Byte.of_N n with
  | Some b => b
  | None => "000"%byte
  end.

Lemma byte_of_to_N b : byte_of (Byte.to_N b) = b.
Proof. unfold byte_of. by rewrite Byte.of_to_N. Qed.

(** The bytes a base64 text stands for. *)
Fixpoint bytes_of_text (s : string) : list byte :=
  match s with
  | String c1 (String c2 (String c3 (String c4 rest))) =>
      let i1 := b64_index c1 in
      let i2 := b64_index c2 in
      let i3 := b64_index c3 in
      let i4 := b64_index c4 in
      if Ascii.eqb c3 "=" then [byte_of (i1 * 4 + i2 / 16)]
      else if Ascii.eqb c4 "="
      then [byte_of (i1 * 4 + i2 / 16); byte_of ((i2 mod 16) * 16 + i3 / 4)]
      else byte_of (i1 * 4 + i2 / 16)
           :: byte_of ((i2 mod 16) * 16 + i3 / 4)
           :: byte_of ((i3 mod 4) * 64 + i4)
           :: bytes_of_text rest
  | _ => []
  end%N.

Ltac euclid := zify; Z.to_euclidean_division_equations; lia.

(** The four sextets of three bytes. *)
Lemma sextet_1 x : (x <= 255 -> x / 4 < 64)%N.
Proof. intros. euclid. Qed.

Lemma sextet_2 x y : (x <= 255 -> y <= 255 -> (x mod 4) * 16 + y / 16 < 64)%N.
Proof. intros. euclid. Qed.

Lemma sextet_3 y z : (y <= 255 -> z <= 255 -> (y mod 16) * 4 + z / 64 < 64)%N.
Proof. intros. euclid. Qed.

Lemma sextet_4 z : (z mod 64 < 64)%N.
Proof. euclid. Qed.

Lemma sextet_2_alone x : (x <= 255 -> (x mod 4) * 16 < 64)%N.
Proof. intros. euclid. Qed.

Lemma sextet_3_alone y : (y <= 255 -> (y mod 16) * 4 < 64)%N.
Proof. intros. euclid. Qed.

(** The bytes back from the sextets. *)
Lemma first_byte x y :
  (y <= 255 -> (x / 4) * 4 + ((x mod 4) * 16 + y / 16) / 16 = x)%N.
Proof. intros. euclid. Qed.

Lemma second_byte x y z :
  (y <= 255 -> z <= 255 ->
   (((x mod 4) * 16 + y / 16) mod 16) * 16 + ((y mod 16) * 4 + z / 64) / 4 = y)%N.
Proof. intros. euclid. Qed.

Lemma third_byte y z :
  (z <= 255 -> (((y mod 16) * 4 + z / 64) mod 4) * 64 + z mod 64 = z)%N.
Proof. intros. euclid. Qed.

Lemma first_byte_alone x : ((x / 4) * 4 + ((x mod 4) * 16) / 16 = x)%N.
Proof. euclid. Qed.

Lemma second_byte_alone x y :
  (y <= 255 ->
   (((x mod 4) * 16 + y / 16) mod 16) * 16 + ((y mod 16) * 4) / 4 = y)%N.
Proof. intros. euclid. Qed.

(** Decoding undoes the encoding. *)
Lemma bytes_of_text_b64encode bs : bytes_of_text (b64encode bs) = bs.
Proof.
  induction bs as [| a | a b | a b c rest IH] using by_threes.
  - reflexivity.
  - pose proof (Byte.to_N_bounded a) as Ba.
    cbn [b64encode bytes_of_text]. rewrite Ascii.eqb_refl.
    rewrite !b64_index_char by (by apply sextet_1 || by apply sextet_2_alone).
    by rewrite first_byte_alone, byte_of_to_N.
  - pose proof (Byte.to_N_bounded a) as Ba. pose proof (Byte.to_N_bounded b) as Bb.
    cbn [b64encode bytes_of_text].
    rewrite b64_char_not_pad by (by apply sextet_3_alone).
    rewrite Ascii.eqb_refl.
    rewrite !b64_index_char
      by (by apply sextet_1 || by apply sextet_2 || by apply sextet_3_alone).
    by rewrite first_byte, second_byte_alone, !byte_of_to_N.
  - pose proof (Byte.to_N_bounded a) as Ba. pose proof (Byte.to_N_bounded b) as Bb.
    pose proof (Byte.to_N_bounded c) as Bc.
    cbn [b64encode bytes_of_text].
    rewrite (b64_char_not_pad _ (sextet_3 _ _ Bb Bc)).
    rewrite (b64_char_not_pad _ (sextet_4 _)).
    rewrite !b64_index_char
      by (by apply sextet_1 || by apply sextet_2 || by apply sextet_3
          || apply sextet_4).
    by rewrite first_byte, second_byte, third_byte, !byte_of_to_N, IH.
Qed.

(** The length of the text, and its characters. *)
Lemma length_b64encode bs :
  String.length (b64encode bs) = 4 * ((List.length bs + 2) / 3).
Proof.
  induction bs as [| a | a b | a b c rest IH] using by_threes; try reflexivity.
  cbn [b64encode String.length List.length]. rewrite IH.
  replace (S (S (S (List.length rest))) + 2) with (List.length rest + 2 + 1 * 3) by lia.
  rewrite Nat.div_add by lia. lia.
Qed.

Lemma letters_b64encode bs :
  Forall (fun c => is_b64_letter c || Ascii.eqb c "=" = true)
    (list_ascii_of_string (b64encode bs)).
Proof.
  induction bs as [| a | a b | a b c rest IH] using by_threes.
  - constructor.
  - pose proof (Byte.to_N_bounded a) as Ba.
    cbn [b64encode list_ascii_of_string].
    repeat constructor;
      rewrite ?b64_char_letter by (by apply sextet_1 || by apply sextet_2_alone);
      reflexivity.
  - pose proof (Byte.to_N_bounded a) as Ba. pose proof (Byte.to_N_bounded b) as Bb.
    cbn [b64encode list_ascii_of_string].
    repeat constructor;
      rewrite ?b64_char_letter
        by (by apply sextet_1 || by apply sextet_2 || by apply sextet_3_alone);
      reflexivity.
  - pose proof (Byte.to_N_bounded a) as Ba. pose proof (Byte.to_N_bounded b) as Bb.
    pose proof (Byte.to_N_bounded c) as Bc.
    cbn [b64encode list_ascii_of_string].
    repeat (constructor;
            [rewrite b64_char_letter
               by (by apply sextet_1 || by apply sextet_2 || by apply sextet_3
                   || apply sextet_4);
             reflexivity |]).
    exact IH.
Qed.

End Base64Facts.

(** X5.  The encoding loses nothing: two files with the same base64 text have
    the same bytes, so that the text sent to the backend stands for the image
    and for no other. *)
Theorem b64encode_loses_nothing :
  forall content content',
    b64encode content = b64encode content' -> content = content'.
Proof.
  intros content content' H.
  rewrite <- (Base64Facts.bytes_of_text_b64encode content), H.
  apply Base64Facts.bytes_of_text_b64encode.
Qed.

Lemma b64encode_loses_nothing_witness :
  b64encode ["M"%byte; "a"%byte; "n"%byte] = "TWFu"
  /\ b64encode (bytes "Man") = "TWFu"
  /\ ["M"%byte; "a"%byte; "n"%byte] = bytes "Man".
Proof.
  split; [reflexivity |]. split; [reflexivity |].
  apply (b64encode_loses_nothing ["M"%byte; "a"%byte; "n"%byte] (bytes "Man")).
  reflexivity.
Defined.

(** X6.  The base64 text of a file of [n] bytes has four characters for every
    three bytes, the last group padded: [4 * ceil (n / 3)] characters, each a
    letter of the base64 alphabet or the padding sign.  The text is ASCII,
    and it is empty for the file of no bytes only. *)
Theorem b64encode_has_the_base64_form :
  forall content,
    String.length (b64encode content) = 4 * ((List.length content + 2) / 3)
    /\ Forall
         (fun c => StrFacts.has_char c b64_alphabet || Ascii.eqb c "=" = true)
         (list_ascii_of_string (b64encode content))
    /\ (b64encode content = "" <-> content = []).
Proof.
  intros content. split; [apply Base64Facts.length_b64encode |].
  split; [apply Base64Facts.letters_b64encode |].
  split.
  - intros H. destruct content as [| x content]; [reflexivity |].
    destruct (b64encode_nonempty (x :: content)) as (c & enc & He); [discriminate |].
    congruence.
  - intros ->. reflexivity.
Qed.

(* ===================================================================== *)
(** ** Which files are taken, and which are passed over *)
(* ===================================================================== *)

(** X8.  An image file that cannot be encoded is passed over: when the file
    is not there or cannot be read the encoder logs the error and gives
    nothing; when the file is there but has no bytes the encoder gives the
    empty string, which the loop takes for nothing just the same.  In each
    case the loop logs the could-not-encode warning and goes on: the file is
    left where it is, no request is sent and the table is not touched. *)
Theorem image_that_cannot_be_encoded_is_passed_over :
  forall json_loads backend batch_dir root filename st,
    is_image filename = true ->
    (forall content,
        fs st !! Path.join root filename = Some (File content) -> content = []) ->
    process_file json_loads backend batch_dir root filename st =
      (Ok tt,
       after st
         ([Log (LogFoundFile filename);
           Log (LogProcessing (Path.join root filename));
           FileOpen (Path.join root filename)] ++
          match fs st !! Path.join root filename with
          | Some (File _) => []
          | Some Unreadable => [Log (LogErrorEncoding (Path.join root filename))]
          | None => [Log (LogImageNotFound (Path.join root filename))]
          end ++
          [Log (LogCouldNotEncode filename)]))
    /\ level_of (LogCouldNotEncode filename) = WARNING.
Proof.
  intros json_loads backend batch_dir root filename st Himg Hfile.
  split; [| reflexivity].
  unfold process_file. cbv [bind logging emit get_state ret].
  rewrite Himg, encode_image_to_base64_spec, !fs_add_event.
  destruct (fs st !! Path.join root filename) as [[content |] |] eqn:Hf.
  - rewrite (Hfile content eq_refl), b64encode_empty. norm_state. reflexivity.
  - norm_state. reflexivity.
  - norm_state. reflexivity.
Qed.

(** The upload directory [a] with a photo of no bytes. *)
Definition blank_photo_state : state :=
  set_fs (<["data/images/uploads/a/photo.jpg" := File []]> sample_fs) sample_state.

Lemma image_that_cannot_be_encoded_is_passed_over_witness :
  process_file Json.loads (always (fenced "```json" sample_text))
    "data/images/inventory/20240101-120000" "data/images/uploads/a" "photo.jpg"
    blank_photo_state =
    (Ok tt,
     after blank_photo_state
       [Log (LogFoundFile "photo.jpg");
        Log (LogProcessing "data/images/uploads/a/photo.jpg");
        FileOpen "data/images/uploads/a/photo.jpg";
        Log (LogCouldNotEncode "photo.jpg")]).
Proof.
  destruct (image_that_cannot_be_encoded_is_passed_over Json.loads
              (always (fenced "```json" sample_text))
              "data/images/inventory/20240101-120000" "data/images/uploads/a"
              "photo.jpg" blank_photo_state) as [H _].
  - reflexivity.
  - intros content Hc. vm_compute in Hc. by injection Hc as <-.
  - rewrite H. vm_compute. reflexivity.
Defined.

(* ===================================================================== *)
(** ** More on [insert_product_info]: what it reads, what it rejects *)
(* ===================================================================== *)

Lemma has_key_is_assoc key kv :
  has_key key kv = match assoc key kv with Some _ => true | None => false end.
Proof.
  unfold has_key. induction kv as [| [k x] kv IH]; simpl; [reflexivity |].
  destruct (String.eqb k key); simpl; [reflexivity | exact IH].
Qed.

Lemma check_required_agree keys kv kv' :
  (forall key, In key keys -> assoc key kv = assoc key kv') ->
  check_required keys (JObj kv) = check_required keys (JObj kv').
Proof.
  induction keys as [| key keys IH]; intros H; simpl; [reflexivity |].
  rewrite !has_key_is_assoc, (H key) by (by left).
  destruct (assoc key kv'); [| reflexivity].
  apply IH. intros k Hk. apply H. by right.
Qed.

Lemma getitem_agree key kv kv' :
  assoc key kv = assoc key kv' -> getitem (JObj kv) key = getitem (JObj kv') key.
Proof. intros H. simpl. by rewrite H. Qed.

(** X9.  [insert_product_info] reads the ten required keys of the record and
    nothing else: two records that agree on them are inserted alike, whatever
    other keys they hold and in whatever order their items come. *)
Theorem insert_reads_only_the_required_keys :
  forall kv kv' img_path st,
    (forall key, In key required_keys -> assoc key kv = assoc key kv') ->
    insert_product_info (JObj kv) img_path st =
    insert_product_info (JObj kv') img_path st.
Proof.
  intros kv kv' img_path st H.
  unfold insert_product_info, list_field_to_string.
  rewrite (check_required_agree _ _ _ H).
  rewrite (getitem_agree "name" kv kv'), (getitem_agree "description" kv kv'),
    (getitem_agree "category" kv kv'), (getitem_agree "material" kv kv'),
    (getitem_agree "color" kv kv'), (getitem_agree "dimensions" kv kv'),
    (getitem_agree "origin_source" kv kv'), (getitem_agree "import_cost" kv kv'),
    (getitem_agree "retail_price" kv kv'), (getitem_agree "key_tags" kv kv');
    try (apply H; simpl; tauto).
  reflexivity.
Qed.

(** The record of the examples with its items in the opposite order and
    two more keys. *)
Definition annotated_record : list (string * json) :=
  ("sku", JInt 7) :: List.rev sample_record ++ [("notes", JArr [JNull])].

Lemma insert_reads_only_the_required_keys_witness :
  insert_product_info (JObj sample_record) sample_destination sample_state =
  insert_product_info (JObj annotated_record) sample_destination sample_state.
Proof.
  apply (insert_reads_only_the_required_keys sample_record annotated_record
           sample_destination sample_state).
  intros key Hin. simpl in Hin.
  repeat (destruct Hin as [<- | Hin]; [reflexivity |]). destruct Hin.
Defined.

(** The table is the same afterwards, when it had a row with the image
    reference [dst] before. *)
Definition kept_when_present (dst : string) (s s' : state) : Prop :=
  has_image_url dst (rows (db s)) = true -> db s' = db s.

Lemma kept_when_present_frame dst : frame (kept_when_present dst).
Proof.
  split; unfold kept_when_present.
  - reflexivity.
  - intros a b c H1 H2 Ha. specialize (H1 Ha). rewrite H1 in H2.
    exact (H2 Ha).
  - reflexivity.
  - reflexivity.
Qed.

Lemma kept_when_present_across_insert dst :
  across_insert (kept_when_present dst) dst.
Proof.
  intros s d a b c e f g h i j k Hd Hp.
  apply sql_insert_Ok in Hd as (_ & Hu & _). congruence.
Qed.

(** X10.  The image reference is UNIQUE: an insert under a reference that a
    row of the table already has leaves the table as it is, whatever the
    record is.  For a record that could be stored the INSERT is attempted,
    its failure is caught and logged, and the function returns normally: the
    caller is not told.  (A reference that cannot be encoded cannot be bound
    in the first place: then the call raises [UnicodeEncodeError] before the
    statement is run.) *)
Theorem insert_under_a_present_reference_adds_nothing :
  forall product_info img_path st,
    has_image_url img_path (rows (db st)) = true ->
    db (snd (insert_product_info product_info img_path st)) = db st
    /\ (forall kv, product_info = JObj kv -> storable kv = true ->
          insert_product_info product_info img_path st =
            if Str.encodable img_path
            then (Ok tt, after st [SqlInsert img_path; Log LogInsertFailed])
            else (Raise UnicodeEncodeError, after st [SqlInsert img_path])).
Proof.
  intros product_info img_path st Hurl. split.
  - apply (insert_product_info_respects (kept_when_present img_path)
             (kept_when_present_frame img_path) img_path
             (kept_when_present_across_insert img_path) product_info st Hurl).
  - intros kv -> Hs. rewrite (insert_product_info_bound kv img_path st Hs), Hurl.
    by rewrite andb_false_r.
Qed.

Lemma insert_under_a_present_reference_adds_nothing_witness :
  insert_product_info (JObj sample_record) sample_destination
    (set_db recorded_database sample_state) =
    (Ok tt,
     after (set_db recorded_database sample_state)
       [SqlInsert sample_destination; Log LogInsertFailed]).
Proof.
  destruct (insert_under_a_present_reference_adds_nothing (JObj sample_record)
              sample_destination (set_db recorded_database sample_state))
    as [_ H]; [reflexivity |].
  exact (H sample_record eq_refl eq_refl).
Defined.

(** The keys whose values are bound as they are. *)
Definition scalar_keys : list string :=
  ["name"; "category"; "material"; "color"; "dimensions"; "origin_source";
   "import_cost"; "retail_price"].

(** A record with the ten required fields in which every value but that of
    [bad] can be stored. *)
Definition storable_but (bad : string) (kv : list (string * json)) : bool :=
  forallb
    (fun key =>
       match assoc key kv with
       | Some v => String.eqb key bad || field_ok key v
       | None => false
       end)
    required_keys.

Lemma storable_but_field bad kv key :
  storable_but bad kv = true -> In key required_keys -> key <> bad ->
  exists v, assoc key kv = Some v /\ field_ok key v = true.
Proof.
  intros Hs Hin Hne. unfold storable_but in Hs. rewrite forallb_forall in Hs.
  specialize (Hs key Hin).
  destruct (assoc key kv) as [v |]; [| discriminate]. exists v.
  apply String.eqb_neq in Hne. rewrite Hne in Hs. by split.
Qed.

Lemma storable_but_check_required bad kv :
  storable_but bad kv = true -> check_required required_keys (JObj kv) = Ok tt.
Proof.
  intros Hs. rewrite check_required_dict.
  destruct (find _ required_keys) as [key |] eqn:Hf; [| reflexivity].
  apply find_some in Hf as [Hin Hneg].
  unfold storable_but in Hs. rewrite forallb_forall in Hs. specialize (Hs key Hin).
  rewrite has_key_is_assoc in Hneg. by destruct (assoc key kv).
Qed.

Lemma storable_but_scalar bad kv key :
  storable_but bad kv = true -> In key scalar_keys -> key <> bad ->
  exists v, assoc key kv = Some v /\ scalar v = true.
Proof.
  intros Hs Hin Hne.
  destruct (storable_but_field bad kv key Hs) as (v & A & F);
    [simpl in *; tauto | exact Hne |].
  exists v. split; [exact A |].
  simpl in Hin.
  repeat (destruct Hin as [<- | Hin]; [exact F |]). destruct Hin.
Qed.

(** The insert of a record whose only value that cannot be bound is that
    of the scalar field [bad], under a reference that can be. *)
Lemma insert_product_info_unbindable kv bad v e img_path st :
  In bad scalar_keys ->
  storable_but bad kv = true ->
  assoc bad kv = Some v ->
  bind_param v = Raise e ->
  Str.encodable img_path = true ->
  insert_product_info (JObj kv) img_path st =
    if is_sqlite3_error e
    then (Ok tt, after st [SqlInsert img_path; Log LogInsertFailed])
    else (Raise e, after st [SqlInsert img_path]).
Proof.
  intros Hin Hs Hbad He Henc.
  pose proof (storable_but_check_required bad kv Hs) as Hc.
  assert (Hd : exists v2 d, assoc "description" kv = Some v2
                 /\ list_field_to_string (String Str.LF "") (JObj kv) "description" = Ok d
                 /\ bind_param d = Ok (stored_list (String Str.LF "") v2)).
  { destruct (storable_but_field bad kv "description" Hs) as (v2 & A2 & F2);
      [simpl; tauto | intros <-; simpl in Hin; intuition discriminate |].
    change (field_ok "description" v2) with (list_field_ok (String Str.LF "") v2) in F2.
    destruct (list_field_to_string_dict (String Str.LF "") kv _ _ A2 F2) as (d & H1 & H2).
    by exists v2, d. }
  assert (Hk : exists v10 k, assoc "key_tags" kv = Some v10
                 /\ list_field_to_string ", " (JObj kv) "key_tags" = Ok k
                 /\ bind_param k = Ok (stored_list ", " v10)).
  { destruct (storable_but_field bad kv "key_tags" Hs) as (v10 & A10 & F10);
      [simpl; tauto | intros <-; simpl in Hin; intuition discriminate |].
    change (field_ok "key_tags" v10) with (list_field_ok ", " v10) in F10.
    destruct (list_field_to_string_dict ", " kv _ _ A10 F10) as (k & H1 & H2).
    by exists v10, k. }
  destruct Hd as (v2 & d & A2 & Hd & Bd). destruct Hk as (v10 & k & A10 & Hk & Bk).
  unfold insert_product_info, cursor_execute_insert, try_except, bind_str.
  cbv [bind lift emit logging get_state].
  rewrite Hc, Hd, Hk, Henc.
  simpl in Hin.
  assert (Hothers : forall key, In key scalar_keys -> key <> bad ->
                      exists v, assoc key kv = Some v /\ scalar v = true)
    by (intros key; by apply storable_but_scalar).
  clear Hs.
  repeat (destruct Hin as [<- | Hin]);
    try (destruct Hin);
    try (destruct (Hothers "name") as (? & ? & ?); [simpl; tauto | discriminate |]);
    try (destruct (Hothers "category") as (? & ? & ?); [simpl; tauto | discriminate |]);
    try (destruct (Hothers "material") as (? & ? & ?); [simpl; tauto | discriminate |]);
    try (destruct (Hothers "color") as (? & ? & ?); [simpl; tauto | discriminate |]);
    try (destruct (Hothers "dimensions") as (? & ? & ?);
         [simpl; tauto | discriminate |]);
    try (destruct (Hothers "origin_source") as (? & ? & ?);
         [simpl; tauto | discriminate |]);
    try (destruct (Hothers "import_cost") as (? & ? & ?);
         [simpl; tauto | discriminate |]);
    try (destruct (Hothers "retail_price") as (? & ? & ?);
         [simpl; tauto | discriminate |]);
    clear Hothers;
    rewrite (getitem_dict _ _ _ Hbad);
    repeat match goal with
           | A : assoc _ kv = Some _ |- _ => rewrite (getitem_dict _ _ _ A); clear A
           end;
    repeat match goal with
           | F : scalar _ = true |- _ => rewrite (scalar_bind_param _ F); clear F
           end;
    rewrite ?Bd, He;
    destruct (is_sqlite3_error e) eqn:Hsq; norm_state; reflexivity.
Qed.

(* ===================================================================== *)
(** ** The step of a file whose record is truthy: move, then insert *)
(* ===================================================================== *)

Section MoveThenInsert.

Variable json_loads : string -> option json.
Variable backend : nat -> string -> http_result.
Variables batch_dir root filename : string.

Let src : string := Path.join root filename.
Let dst : string := new_image_path_of batch_dir root filename.

(** The state in which [insert_product_info] is called: the file has been
    moved. *)
Definition moved (src dst : string) (content : list byte) (st : state)
    (evs : list event) : state :=
  State (<[dst := File content]> (delete src (fs st))) (db st) (S (calls st))
    (existing_images st) (trace st ++ evs ++ [Move src dst]).

(** The events of a file up to the answer of the backend: the file is
    read, the directory of the destination is made, one request is sent;
    [logs] is what [analyze_image] logs about the answer. *)
Definition requested_events (filename src new_image_dir : string) (n : nat)
    (image_base64 : string) (logs : list event) : list event :=
  encoded_events filename src new_image_dir ++
  Log LogSendingRequest :: HttpPost n image_base64 :: logs.

(** When the extraction gives a truthy value, the file is moved first and
    the insert is called on the value afterwards; a [KeyError] of the
    insert is caught and logged, any other exception leaves the step. *)
Lemma process_file_moves_then_inserts st content v :
  is_image filename = true ->
  fs st !! src = Some (File content) -> content <> [] ->
  dst ∉ existing_images st ->
  extraction json_loads backend (calls st) (b64encode content) = Ok v ->
  truthy v = true ->
  exists logs,
    Forall is_log logs
    /\ process_file json_loads backend batch_dir root filename st =
         match insert_product_info v dst
                 (moved src dst content st
                    (requested_events filename src
                       (Path.join batch_dir (relative_path_of root)) (calls st)
                       (b64encode content) logs)) with
         | (Ok _, s) => (Ok tt, add_event (Log (LogProcessed filename)) s)
         | (Raise e, s) =>
             if is_key_error e
             then (Ok tt,
                   add_event (Log (LogErrorInserting filename (key_error_text e))) s)
             else (Raise e, s)
         end.
Proof.
  intros Himg Hf Hne Hnew Hex Ht.
  destruct (process_file_analyzed json_loads backend batch_dir root filename st
              content Himg Hf Hne Hnew) as (v' & evs & Hv & Hl & Hp).
  rewrite Hex in Hv. injection Hv as <-.
  rewrite Ht in Hp.
  exists evs. split; [exact Hl |].
  rewrite Hp. unfold try_except. cbv [bind].
  unfold shutil_move at 1.
  change (fs (after (set_calls _ st) _)) with (fs st).
  fold src. rewrite Hf. fold dst.
  match goal with
  | |- context [insert_product_info v dst ?s] =>
      replace s with
        (moved src dst content st
           (requested_events filename src
              (Path.join batch_dir (relative_path_of root)) (calls st)
              (b64encode content) evs))
        by (unfold moved, requested_events; norm_state; reflexivity)
  end.
  destruct (insert_product_info v dst _) as [[[] | e] s]; cbv [logging emit];
    [reflexivity |].
  destruct (is_key_error e); reflexivity.
Qed.

End MoveThenInsert.

(* ===================================================================== *)
(** ** Values the INSERT statement cannot take *)
(* ===================================================================== *)

Lemma storable_but_nonempty bad kv : storable_but bad kv = true -> kv <> [].
Proof. intros H ->. discriminate. Qed.

(** X11.  When [sqlite3] refuses the INSERT because a scalar field holds a
    list or an object (a value it cannot bind), the other values and the
    destination being such as it can bind, the file has already been moved
    and no row is written; the failure is caught and logged inside
    [insert_product_info], which returns normally, so the loop then logs the
    file as successfully processed and inserted and goes on. *)
Theorem failed_insert_is_reported_as_success :
  forall json_loads backend batch_dir root filename st content kv bad v,
    is_image filename = true ->
    fs st !! Path.join root filename = Some (File content) ->
    content <> [] ->
    new_image_path_of batch_dir root filename ∉ existing_images st ->
    Str.encodable (new_image_path_of batch_dir root filename) = true ->
    extraction json_loads backend (calls st) (b64encode content) = Ok (JObj kv) ->
    In bad scalar_keys ->
    storable_but bad kv = true ->
    assoc bad kv = Some v ->
    bind_param v = Raise Sqlite3Error ->
    exists evs st',
      process_file json_loads backend batch_dir root filename st = (Ok tt, st')
      /\ fs st' =
           <[new_image_path_of batch_dir root filename := File content]>
             (delete (Path.join root filename) (fs st))
      /\ db st' = db st
      /\ trace st' =
           trace st ++ evs ++
           [Move (Path.join root filename)
              (new_image_path_of batch_dir root filename);
            SqlInsert (new_image_path_of batch_dir root filename);
            Log LogInsertFailed;
            Log (LogProcessed filename)]
      /\ level_of LogInsertFailed = ERROR
      /\ level_of (LogProcessed filename) = INFO.
Proof.
  intros json_loads backend batch_dir root filename st content kv bad v
    Himg Hf Hne Hnew Henc Hex Hin Hs Hbad Hv.
  destruct (process_file_moves_then_inserts json_loads backend batch_dir root
              filename st content (JObj kv) Himg Hf Hne Hnew Hex
              (truthy_dict kv (storable_but_nonempty bad kv Hs)))
    as (logs & _ & Hp).
  rewrite (insert_product_info_unbindable kv bad v Sqlite3Error _ _ Hin Hs Hbad Hv
             Henc) in Hp.
  cbn [is_sqlite3_error] in Hp.
  exists (requested_events filename (Path.join root filename)
            (Path.join batch_dir (relative_path_of root)) (calls st)
            (b64encode content) logs).
  eexists. split; [exact Hp |].
  split; [reflexivity |]. split; [reflexivity |].
  split; [| by split].
  unfold moved. norm_state. reflexivity.
Qed.

Definition two_colours_record : list (string * json) :=
  Json.dict_set "color" (JArr [JStr "brown"; JStr "black"]) sample_record.

Lemma failed_insert_is_reported_as_success_witness :
  exists evs st',
    process_file Json.loads (always two_colours_text)
      "data/images/inventory/20240101-120000" "data/images/uploads/a"
      "photo.jpg" sample_state = (Ok tt, st')
    /\ fs st' =
         <[new_image_path_of "data/images/inventory/20240101-120000"
             "data/images/uploads/a" "photo.jpg" := File (bytes "first image")]>
           (delete (Path.join "data/images/uploads/a" "photo.jpg") (fs sample_state))
    /\ db st' = db sample_state
    /\ trace st' =
         trace sample_state ++ evs ++
         [Move (Path.join "data/images/uploads/a" "photo.jpg")
            (new_image_path_of "data/images/inventory/20240101-120000"
               "data/images/uploads/a" "photo.jpg");
          SqlInsert (new_image_path_of "data/images/inventory/20240101-120000"
                       "data/images/uploads/a" "photo.jpg");
          Log LogInsertFailed;
          Log (LogProcessed "photo.jpg")].
Proof.
  destruct (failed_insert_is_reported_as_success Json.loads (always two_colours_text)
              "data/images/inventory/20240101-120000" "data/images/uploads/a"
              "photo.jpg" sample_state (bytes "first image") two_colours_record
              "color" (JArr [JStr "brown"; JStr "black"]))
    as (evs & st' & Hp & Hfs & Hdb & Htr & _).
  - reflexivity.
  - vm_compute. reflexivity.
  - discriminate.
  - refine (proj1 (bool_decide_eq_false _) _). vm_compute. reflexivity.
  - vm_compute. reflexivity.
  - vm_compute. reflexivity.
  - simpl. tauto.
  - reflexivity.
  - reflexivity.
  - reflexivity.
  - exists evs, st'. repeat split; assumption.
Defined.

Lemma bind_param_overflow z :
  (z < - 2 ^ 63 \/ 2 ^ 63 <= z)%Z -> bind_param (JInt z) = Raise OverflowError.
Proof.
  intros H. unfold bind_param.
  destruct ((- 2 ^ 63 <=? z)%Z && (z <? 2 ^ 63)%Z) eqn:Hb; [| reflexivity].
  apply andb_true_iff in Hb as [H1 H2].
  apply Z.leb_le in H1. apply Z.ltb_lt in H2. lia.
Qed.

(** X12.  An integer that does not fit in 64 bits, as the value of a scalar
    field (the other values and the destination being such as [sqlite3] can
    bind), makes the INSERT raise [OverflowError], which neither the [except
    sqlite3.Error] of the insert nor the [except KeyError] of the loop
    catches: the file has been moved, no row is written, and the exception
    leaves the loop, so that the files after it are not processed. *)
Theorem oversized_integer_stops_the_loop_after_the_move :
  forall json_loads backend batch_dir root filename files st content kv bad z,
    is_image filename = true ->
    fs st !! Path.join root filename = Some (File content) ->
    content <> [] ->
    new_image_path_of batch_dir root filename ∉ existing_images st ->
    Str.encodable (new_image_path_of batch_dir root filename) = true ->
    extraction json_loads backend (calls st) (b64encode content) = Ok (JObj kv) ->
    In bad scalar_keys ->
    storable_but bad kv = true ->
    assoc bad kv = Some (JInt z) ->
    (z < - 2 ^ 63 \/ 2 ^ 63 <= z)%Z ->
    exists evs st',
      process_files json_loads backend batch_dir root (filename :: files) st =
        (Raise OverflowError, st')
      /\ fs st' =
           <[new_image_path_of batch_dir root filename := File content]>
             (delete (Path.join root filename) (fs st))
      /\ db st' = db st
      /\ trace st' =
           trace st ++ evs ++
           [Move (Path.join root filename)
              (new_image_path_of batch_dir root filename);
            SqlInsert (new_image_path_of batch_dir root filename)].
Proof.
  intros json_loads backend batch_dir root filename files st content kv bad z
    Himg Hf Hne Hnew Henc Hex Hin Hs Hbad Hz.
  destruct (process_file_moves_then_inserts json_loads backend batch_dir root
              filename st content (JObj kv) Himg Hf Hne Hnew Hex
              (truthy_dict kv (storable_but_nonempty bad kv Hs)))
    as (logs & _ & Hp).
  rewrite (insert_product_info_unbindable kv bad (JInt z) OverflowError _ _ Hin Hs
             Hbad (bind_param_overflow z Hz) Henc) in Hp.
  cbn [is_sqlite3_error is_key_error] in Hp.
  exists (requested_events filename (Path.join root filename)
            (Path.join batch_dir (relative_path_of root)) (calls st)
            (b64encode content) logs).
  eexists. split.
  { cbn [process_files]. unfold bind at 1. rewrite Hp. reflexivity. }
  split; [reflexivity |]. split; [reflexivity |].
  unfold moved. norm_state. reflexivity.
Qed.

(** The record of the examples with an import cost of 2^63, as text. *)
Definition oversized_text : string :=
  "{'name': 'Stool', 'description': ['carved', 'wood'], 'category': 'Stools', 'material': 'wood', 'color': 'brown', 'dimensions': '40cm', 'origin_source': 'Ghana', 'import_cost': 9223372036854775808, 'retail_price': null, 'key_tags': ['stool', 'ashanti']}".

Definition oversized_record : list (string * json) :=
  Json.dict_set "import_cost" (JInt (2 ^ 63)) sample_record.

Lemma oversized_integer_stops_the_loop_after_the_move_witness :
  exists evs st',
    process_files Json.loads (always oversized_text)
      "data/images/inventory/20240101-120000" "data/images/uploads/a"
      ["photo.jpg"; "other.jpg"] sample_state = (Raise OverflowError, st')
    /\ fs st' =
         <[new_image_path_of "data/images/inventory/20240101-120000"
             "data/images/uploads/a" "photo.jpg" := File (bytes "first image")]>
           (delete (Path.join "data/images/uploads/a" "photo.jpg") (fs sample_state))
    /\ db st' = db sample_state
    /\ trace st' =
         trace sample_state ++ evs ++
         [Move (Path.join "data/images/uploads/a" "photo.jpg")
            (new_image_path_of "data/images/inventory/20240101-120000"
               "data/images/uploads/a" "photo.jpg");
          SqlInsert (new_image_path_of "data/images/inventory/20240101-120000"
                       "data/images/uploads/a" "photo.jpg")].
Proof.
  apply (oversized_integer_stops_the_loop_after_the_move Json.loads
           (always oversized_text)
           "data/images/inventory/20240101-120000" "data/images/uploads/a"
           "photo.jpg" ["other.jpg"] sample_state (bytes "first image")
           oversized_record "import_cost" (2 ^ 63)%Z).
  - reflexivity.
  - vm_compute. reflexivity.
  - discriminate.
  - refine (proj1 (bool_decide_eq_false _) _). vm_compute. reflexivity.
  - vm_compute. reflexivity.
  - vm_compute. reflexivity.
  - simpl. tauto.
  - reflexivity.
  - reflexivity.
  - right. lia.
Defined.

(** X29.  An image whose destination cannot be encoded as UTF-8 (a file name
    with a byte that is no UTF-8, which Python reads as a lone surrogate) is
    read, analysed and moved like any other; then the INSERT raises
    [UnicodeEncodeError] when the path is bound, though the record could be
    stored.  Neither the [except sqlite3.Error] of the insert nor the
    [except KeyError] of the loop catches it: the file has been moved, no row
    is written, and the exception leaves the loop, so that the files after it
    are not processed. *)
Theorem name_that_is_no_utf8_stops_the_loop_after_the_move :
  forall json_loads backend batch_dir root filename files st content kv,
    is_image filename = true ->
    fs st !! Path.join root filename = Some (File content) ->
    content <> [] ->
    new_image_path_of batch_dir root filename ∉ existing_images st ->
    Str.encodable (new_image_path_of batch_dir root filename) = false ->
    extraction json_loads backend (calls st) (b64encode content) = Ok (JObj kv) ->
    storable kv = true ->
    exists evs st',
      process_files json_loads backend batch_dir root (filename :: files) st =
        (Raise UnicodeEncodeError, st')
      /\ fs st' =
           <[new_image_path_of batch_dir root filename := File content]>
             (delete (Path.join root filename) (fs st))
      /\ db st' = db st
      /\ trace st' =
           trace st ++ evs ++
           [Move (Path.join root filename)
              (new_image_path_of batch_dir root filename);
            SqlInsert (new_image_path_of batch_dir root filename)].
Proof.
  intros json_loads backend batch_dir root filename files st content kv
    Himg Hf Hne Hnew Henc Hex Hs.
  destruct (process_file_moves_then_inserts json_loads backend batch_dir root
              filename st content (JObj kv) Himg Hf Hne Hnew Hex
              (truthy_dict kv (storable_nonempty kv Hs)))
    as (logs & _ & Hp).
  rewrite (insert_product_info_bound kv _ _ Hs), Henc in Hp.
  cbn [is_sqlite3_error is_key_error] in Hp.
  exists (requested_events filename (Path.join root filename)
            (Path.join batch_dir (relative_path_of root)) (calls st)
            (b64encode content) logs).
  eexists. split.
  { cbn [process_files]. unfold bind at 1. rewrite Hp. reflexivity. }
  split; [reflexivity |]. split; [reflexivity |].
  unfold moved. norm_state. reflexivity.
Qed.

(** The name [caf<E9>.jpg], as a file system that names its files in Latin-1
    has it, and the scenario with an image of that name. *)
Definition latin1_name : string := "caf" +:+ String (ascii_of_nat 233) ".jpg".

Definition latin1_state : state :=
  set_fs (<[Path.join "data/images/uploads/a" latin1_name :=
              File (bytes "third image")]> (fs sample_state)) sample_state.

Lemma name_that_is_no_utf8_stops_the_loop_after_the_move_witness :
  exists evs st',
    process_files Json.loads (always (fenced "```json" sample_text))
      "data/images/inventory/20240101-120000" "data/images/uploads/a"
      [latin1_name; "photo.jpg"] latin1_state = (Raise UnicodeEncodeError, st')
    /\ fs st' =
         <[new_image_path_of "data/images/inventory/20240101-120000"
             "data/images/uploads/a" latin1_name := File (bytes "third image")]>
           (delete (Path.join "data/images/uploads/a" latin1_name) (fs latin1_state))
    /\ db st' = db latin1_state
    /\ trace st' =
         trace latin1_state ++ evs ++
         [Move (Path.join "data/images/uploads/a" latin1_name)
            (new_image_path_of "data/images/inventory/20240101-120000"
               "data/images/uploads/a" latin1_name);
          SqlInsert (new_image_path_of "data/images/inventory/20240101-120000"
                       "data/images/uploads/a" latin1_name)].
Proof.
  apply (name_that_is_no_utf8_stops_the_loop_after_the_move Json.loads
           (always (fenced "```json" sample_text))
           "data/images/inventory/20240101-120000" "data/images/uploads/a"
           latin1_name ["photo.jpg"] latin1_state (bytes "third image")
           sample_record).
  - vm_compute. reflexivity.
  - vm_compute. reflexivity.
  - discriminate.
  - refine (proj1 (bool_decide_eq_false _) _). vm_compute. reflexivity.
  - vm_compute. reflexivity.
  - apply sample_extraction.
  - reflexivity.
Defined.

(* ===================================================================== *)
(** ** Replies that are falsy *)
(* ===================================================================== *)

(** X13.  A reply that parses to a falsy value ([null], [false], zero, the
    empty string, the empty list, the empty object) is taken for a failed
    analysis, though the request succeeded and the reply was valid JSON: the
    failure is logged as an error, the file stays under the upload root, the
    table is not touched and the loop goes on.  One request has been spent. *)
Theorem falsy_reply_is_reported_as_failure :
  forall json_loads backend batch_dir root filename st content v,
    is_image filename = true ->
    fs st !! Path.join root filename = Some (File content) ->
    content <> [] ->
    new_image_path_of batch_dir root filename ∉ existing_images st ->
    extraction json_loads backend (calls st) (b64encode content) = Ok v ->
    truthy v = false ->
    exists logs,
      process_file json_loads backend batch_dir root filename st =
        (Ok tt,
         after (set_calls (S (calls st)) st)
           (requested_events filename (Path.join root filename)
              (Path.join batch_dir (relative_path_of root)) (calls st)
              (b64encode content) logs ++
            [Log (LogFailedAnalyze filename)]))
      /\ Forall is_log logs
      /\ level_of (LogFailedAnalyze filename) = ERROR.
Proof.
  intros json_loads backend batch_dir root filename st content v
    Himg Hf Hne Hnew Hex Ht.
  destruct (process_file_analyzed json_loads backend batch_dir root filename st
              content Himg Hf Hne Hnew) as (v' & evs & Hv & Hl & Hp).
  rewrite Hex in Hv. injection Hv as <-. rewrite Ht in Hp.
  exists evs. split; [| by split].
  rewrite Hp, after_after. reflexivity.
Qed.

Lemma falsy_reply_is_reported_as_failure_witness :
  exists logs,
    process_file Json.loads (always "null")
      "data/images/inventory/20240101-120000" "data/images/uploads/a"
      "photo.jpg" sample_state =
      (Ok tt,
       after (set_calls 1 sample_state)
         (requested_events "photo.jpg" (Path.join "data/images/uploads/a" "photo.jpg")
            (Path.join "data/images/inventory/20240101-120000"
               (relative_path_of "data/images/uploads/a"))
            0 (b64encode (bytes "first image")) logs ++
          [Log (LogFailedAnalyze "photo.jpg")])).
Proof.
  destruct (falsy_reply_is_reported_as_failure Json.loads (always "null")
              "data/images/inventory/20240101-120000" "data/images/uploads/a"
              "photo.jpg" sample_state (bytes "first image") JNull)
    as (logs & H & _).
  - reflexivity.
  - vm_compute. reflexivity.
  - discriminate.
  - refine (proj1 (bool_decide_eq_false _) _). vm_compute. reflexivity.
  - vm_compute. reflexivity.
  - reflexivity.
  - exists logs. exact H.
Defined.

(* ===================================================================== *)
(** ** Records that raise [TypeError] *)
(* ===================================================================== *)

(** A value that [sep.join] is not applied to, or a list it accepts. *)
Definition joinable (v : json) : bool :=
  match v with
  | JArr l => match strs_of l with Some _ => true | None => false end
  | _ => true
  end.

Lemma all_keys_check_required kv :
  (forall key, In key required_keys -> has_key key kv = true) ->
  check_required required_keys (JObj kv) = Ok tt.
Proof.
  intros H. rewrite check_required_dict.
  destruct (find _ required_keys) as [key |] eqn:Hf; [| reflexivity].
  apply find_some in Hf as [Hin Hneg]. by rewrite (H key Hin) in Hneg.
Qed.

Lemma list_field_to_string_joinable sep kv key :
  has_key key kv = true ->
  match list_field_to_string sep (JObj kv) key with
  | Ok _ => joinable (value_of key kv) = true
  | Raise e => joinable (value_of key kv) = false /\ e = TypeError
  end.
Proof.
  intros Hk. apply has_key_assoc in Hk as (v & Ha).
  unfold list_field_to_string, value_of. rewrite (getitem_dict _ _ _ Ha), Ha.
  destruct v; try reflexivity.
  unfold py_join, joinable. destruct (strs_of l); [reflexivity | by split].
Qed.

(** X14.  A [description] or a [key_tags] that is a list with an item that is
    not a string makes [insert_product_info] raise [TypeError] when it joins
    the list: nothing has been executed yet, the state is unchanged, and the
    exception is not one the function or its caller catches. *)
Theorem list_with_an_item_that_is_no_string_raises_type_error :
  forall kv img_path st,
    (forall key, In key required_keys -> has_key key kv = true) ->
    joinable (value_of "description" kv) && joinable (value_of "key_tags" kv)
      = false ->
    insert_product_info (JObj kv) img_path st = (Raise TypeError, st)
    /\ is_sqlite3_error TypeError = false
    /\ is_key_error TypeError = false.
Proof.
  intros kv img_path st Hall Hj.
  split; [| by split].
  unfold insert_product_info. cbv [bind lift].
  rewrite (all_keys_check_required kv Hall).
  assert (Hd := list_field_to_string_joinable (String Str.LF "") kv "description"
                  (Hall "description" ltac:(simpl; tauto))).
  assert (Hk := list_field_to_string_joinable ", " kv "key_tags"
                  (Hall "key_tags" ltac:(simpl; tauto))).
  destruct (list_field_to_string _ _ "description") as [d | e].
  - rewrite Hd in Hj. cbn [andb] in Hj.
    destruct (list_field_to_string _ _ "key_tags") as [k | e].
    + congruence.
    + by destruct Hk as [_ ->].
  - by destruct Hd as [_ ->].
Qed.

(** The record of the examples with a number among its tags. *)
Definition mixed_tags_record : list (string * json) :=
  Json.dict_set "key_tags" (JArr [JStr "stool"; JInt 3]) sample_record.

Lemma list_with_an_item_that_is_no_string_raises_type_error_witness :
  insert_product_info (JObj mixed_tags_record) sample_destination sample_state =
    (Raise TypeError, sample_state).
Proof.
  destruct (list_with_an_item_that_is_no_string_raises_type_error
              mixed_tags_record sample_destination sample_state) as [H _].
  - intros key Hin. simpl in Hin.
    repeat (destruct Hin as [<- | Hin]; [reflexivity |]). destruct Hin.
  - reflexivity.
  - exact H.
Defined.

(** [insert_product_info] on a value that is not a dict. *)
Lemma insert_product_info_no_object product_info img_path st :
  (forall kv, product_info <> JObj kv) ->
  exists e,
    insert_product_info product_info img_path st = (Raise e, st)
    /\ (e = TypeError
        \/ exists key, In key required_keys /\ e = KeyError (missing_field_message key))
    /\ match product_info with
       | JStr _ | JArr _ => True
       | _ => e = TypeError
       end.
Proof.
  intros Hno. unfold insert_product_info. cbv [bind lift].
  assert (Hc : forall keys,
             (forall key, In key keys -> In key required_keys) ->
             match product_info with JStr _ | JArr _ => True | _ => False end ->
             check_required keys product_info = Ok tt
             \/ exists key, In key required_keys
                  /\ check_required keys product_info =
                       Raise (KeyError (missing_field_message key))).
  { induction keys as [| key keys IH]; intros Hsub Hp; [by left |].
    cbn [check_required].
    destruct product_info; try destruct Hp; cbn [contains_key].
    - destruct (Str.contains key s).
      + apply IH; [intros k Hk; apply Hsub; by right | exact I].
      + right. exists key. split; [apply Hsub; by left | reflexivity].
    - destruct (existsb (is_str key) l).
      + apply IH; [intros k Hk; apply Hsub; by right | exact I].
      + right. exists key. split; [apply Hsub; by left | reflexivity]. }
  destruct product_info as [| b | z | m x | s | l | kv];
    try (exists TypeError; split; [reflexivity | split; [by left | reflexivity]]).
  - destruct (Hc required_keys (fun _ H => H) I) as [-> | (key & Hin & ->)].
    + exists TypeError. split; [reflexivity | split; [by left | exact I]].
    + eexists. split; [reflexivity | split; [right; by exists key | exact I]].
  - destruct (Hc required_keys (fun _ H => H) I) as [-> | (key & Hin & ->)].
    + exists TypeError. split; [reflexivity | split; [by left | exact I]].
    + eexists. split; [reflexivity | split; [right; by exists key | exact I]].
  - by destruct (Hno kv).
Qed.

(** X15.  A reply that is valid JSON but not an object (a number, [true], a
    string, a list) is truthy unless it is zero or empty, and so the file is
    moved to the archive although nothing can be recorded for it: for a
    number or [true] the membership test of the first required key raises
    [TypeError], which leaves the loop; for a string or a list the insert is
    rejected with the Missing-Field error, which is logged, or raises
    [TypeError] at the first subscript.  No row is written. *)
Theorem reply_that_is_no_object_still_moves_the_file :
  forall json_loads backend batch_dir root filename st content v,
    is_image filename = true ->
    fs st !! Path.join root filename = Some (File content) ->
    content <> [] ->
    new_image_path_of batch_dir root filename ∉ existing_images st ->
    extraction json_loads backend (calls st) (b64encode content) = Ok v ->
    truthy v = true ->
    (forall kv, v <> JObj kv) ->
    exists r st',
      process_file json_loads backend batch_dir root filename st = (r, st')
      /\ fs st' =
           <[new_image_path_of batch_dir root filename := File content]>
             (delete (Path.join root filename) (fs st))
      /\ db st' = db st
      /\ (r = Raise TypeError
          \/ r = Ok tt
             /\ exists key,
                  In key required_keys
                  /\ last (trace st') =
                       Some (Log (LogErrorInserting filename
                                    (missing_field_message key))))
      /\ match v with
         | JStr _ | JArr _ => True
         | _ => r = Raise TypeError
         end.
Proof.
  intros json_loads backend batch_dir root filename st content v
    Himg Hf Hne Hnew Hex Ht Hno.
  destruct (process_file_moves_then_inserts json_loads backend batch_dir root
              filename st content v Himg Hf Hne Hnew Hex Ht) as (logs & _ & Hp).
  match type of Hp with
  | context [insert_product_info v ?q ?s] =>
      destruct (insert_product_info_no_object v q s Hno) as (e & He & Hkind & Hv)
  end.
  rewrite He in Hp.
  destruct Hkind as [-> | (key & Hin & ->)]; cbn [is_key_error key_error_text] in Hp.
  - eexists. eexists. split; [exact Hp |].
    split; [reflexivity |]. split; [reflexivity |]. split; [by left |].
    destruct v; try exact I; reflexivity.
  - eexists. eexists. split; [exact Hp |].
    split; [reflexivity |]. split; [reflexivity |]. split.
    + right. split; [reflexivity |]. exists key. split; [exact Hin |].
      cbn [add_event trace]. apply last_snoc.
    + destruct v; try exact I; discriminate.
Qed.

Lemma reply_that_is_no_object_still_moves_the_file_witness :
  exists st',
    process_file Json.loads (always "25")
      "data/images/inventory/20240101-120000" "data/images/uploads/a"
      "photo.jpg" sample_state = (Raise TypeError, st')
    /\ fs st' =
         <[new_image_path_of "data/images/inventory/20240101-120000"
             "data/images/uploads/a" "photo.jpg" := File (bytes "first image")]>
           (delete (Path.join "data/images/uploads/a" "photo.jpg") (fs sample_state))
    /\ db st' = db sample_state.
Proof.
  destruct (reply_that_is_no_object_still_moves_the_file Json.loads (always "25")
              "data/images/inventory/20240101-120000" "data/images/uploads/a"
              "photo.jpg" sample_state (bytes "first image") (JInt 25))
    as (r & st' & Hp & Hfs & Hdb & _ & Hr).
  - reflexivity.
  - vm_compute. reflexivity.
  - discriminate.
  - refine (proj1 (bool_decide_eq_false _) _). vm_compute. reflexivity.
  - vm_compute. reflexivity.
  - reflexivity.
  - discriminate.
  - cbv iota in Hr. rewrite Hr in Hp. exists st'. split; [exact Hp |]. by split.
Defined.

(* ===================================================================== *)
(** ** The exceptions that leave a run *)
(* ===================================================================== *)

(** The exceptions [insert_product_info] lets through. *)
Definition leaves_insert (e : exn) : bool :=
  match e with
  | KeyError _ | TypeError | OverflowError | UnicodeEncodeError => true
  | _ => false
  end.

Lemma contains_key_raises key product_info e :
  contains_key key product_info = Raise e -> e = TypeError.
Proof. destruct product_info; simpl; congruence. Qed.

Lemma check_required_raises keys product_info e :
  check_required keys product_info = Raise e -> leaves_insert e = true.
Proof.
  induction keys as [| key keys IH]; simpl; [discriminate |].
  destruct (contains_key key product_info) as [[] | e'] eqn:Hc.
  - exact IH.
  - by intros [= <-].
  - intros [= <-]. by rewrite (contains_key_raises _ _ _ Hc).
Qed.

Lemma getitem_raises product_info key e :
  getitem product_info key = Raise e -> leaves_insert e = true.
Proof.
  destruct product_info; simpl; try (by intros [= <-]).
  destruct (assoc key kv); [discriminate | by intros [= <-]].
Qed.

Lemma list_field_to_string_raises sep product_info key e :
  list_field_to_string sep product_info key = Raise e -> leaves_insert e = true.
Proof.
  unfold list_field_to_string.
  destruct (getitem product_info key) as [v | e'] eqn:Hg.
  - destruct v; try discriminate. unfold py_join.
    destruct (strs_of l); [discriminate | by intros [= <-]].
  - intros [= <-]. by eapply getitem_raises.
Qed.

Lemma cursor_execute_insert_raises a b img_path c d f g h i j k st e st' :
  cursor_execute_insert a b img_path c d f g h i j k st = (Raise e, st') ->
  is_sqlite3_error e || leaves_insert e = true.
Proof.
  destruct (cursor_execute_insert_cases a b img_path c d f g h i j k st)
    as [(x & -> & Hx) | (d' & va & vb & vc & ve & vf & vg & vh & vi & vj & vk & _ & ->)];
    [| discriminate].
  intros [= <- _]. by destruct Hx as [-> | [-> | ->]].
Qed.

(** [insert_product_info] raises nothing but [KeyError], [TypeError],
    [OverflowError] and [UnicodeEncodeError]. *)
Lemma insert_product_info_raises product_info img_path st e st' :
  insert_product_info product_info img_path st = (Raise e, st') ->
  leaves_insert e = true.
Proof.
  unfold insert_product_info. cbv [bind lift].
  destruct (check_required required_keys product_info) as [[] | e1] eqn:H1;
    [| intros [= <- _]; by eapply check_required_raises].
  destruct (list_field_to_string _ product_info "description") as [d | e2] eqn:H2;
    [| intros [= <- _]; by eapply list_field_to_string_raises].
  destruct (list_field_to_string _ product_info "key_tags") as [k | e3] eqn:H3;
    [| intros [= <- _]; by eapply list_field_to_string_raises].
  unfold try_except.
  repeat match goal with
         | |- context [getitem product_info ?key] =>
             let H := fresh "H" in
             destruct (getitem product_info key) eqn:H;
             [| cbn [is_sqlite3_error];
                match goal with
                | |- context [is_sqlite3_error ?x] =>
                    pose proof (getitem_raises _ _ _ H);
                    destruct x; try discriminate; by intros [= <- _]
                end]
         end.
  destruct (cursor_execute_insert _ _ _ _ _ _ _ _ _ _ _ _) as [[[] | e4] s4] eqn:Hx.
  - cbv [logging emit]. discriminate.
  - apply cursor_execute_insert_raises in Hx.
    destruct (is_sqlite3_error e4) eqn:Hs.
    + cbv [logging emit]. discriminate.
    + intros [= <- _]. exact Hx.
Qed.

Section Escapes.

Variable json_loads : string -> option json.
Variable backend : nat -> string -> http_result.
Variable batch_dir : string.

(** The exceptions that leave the loop. *)
Definition leaves_run (e : exn) : Prop :=
  e = TypeError \/ e = OverflowError \/ e = UnicodeEncodeError.

Lemma process_file_raises root filename st e st' :
  process_file json_loads backend batch_dir root filename st = (Raise e, st') ->
  leaves_run e.
Proof.
  intros Hp.
  destruct (is_image filename) eqn:Himg;
    [| rewrite process_file_not_image in Hp by assumption; discriminate].
  destruct (fs st !! Path.join root filename) as [[[| b content] |] |] eqn:Hf.
  2: {
    destruct (decide (new_image_path_of batch_dir root filename ∈ existing_images st))
      as [Hin | Hnew].
    { rewrite (process_file_already_exists json_loads backend batch_dir root
                 filename st (b :: content)) in Hp by (assumption || discriminate).
      discriminate. }
    destruct (process_file_analyzed json_loads backend batch_dir root filename st
                (b :: content) Himg Hf ltac:(discriminate) Hnew)
      as (v & evs & Hv & _ & Hq).
    destruct (truthy v) eqn:Ht; [| rewrite Hq in Hp; discriminate].
    destruct (process_file_moves_then_inserts json_loads backend batch_dir root
                filename st (b :: content) v Himg Hf ltac:(discriminate) Hnew Hv Ht)
      as (logs & _ & Hm).
    rewrite Hm in Hp.
    destruct (insert_product_info _ _ _) as [[[] | e'] s] eqn:Hi; [discriminate |].
    apply insert_product_info_raises in Hi.
    destruct e'; try discriminate; cbn [is_key_error] in Hp;
      injection Hp as <- _; unfold leaves_run; tauto. }
  all: destruct (process_file_not_encoded json_loads backend batch_dir root
                   filename st Himg) as (l & Hq & _);
    [ rewrite Hf; intros c [= <-] || intros c [=]; reflexivity
    | rewrite Hq in Hp; discriminate ].
Qed.

Lemma process_files_raises root files st e st' :
  process_files json_loads backend batch_dir root files st = (Raise e, st') ->
  leaves_run e.
Proof.
  revert st. induction files as [| f files IH]; intros st; [discriminate |].
  cbn [process_files]. unfold bind at 1.
  destruct (process_file _ _ _ _ _ _) as [[[] | e1] s1] eqn:Hp.
  - apply IH.
  - intros [= <- _]. by eapply process_file_raises.
Qed.

Lemma process_walk_raises walk st e st' :
  process_walk json_loads backend batch_dir walk st = (Raise e, st') ->
  leaves_run e.
Proof.
  revert st. induction walk as [| [root files] walk IH]; intros st; [discriminate |].
  cbn [process_walk]. cbv [bind logging emit].
  destruct (process_files _ _ _ _ _ _) as [[[] | e1] s1] eqn:Hp.
  - apply IH.
  - intros [= <- _]. by eapply process_files_raises.
Qed.

End Escapes.

(** A run that is stopped. *)
Lemma run_stopped json_loads backend timestamp walk st e st' :
  process_uploaded_images json_loads backend timestamp walk st = (Raise e, st') ->
  leaves_run e /\ db st' = db st.
Proof.
  intros H.
  rewrite process_uploaded_images_unfold in H.
  destruct (process_walk _ _ _ _ _) as [[[] | e1] s1] eqn:Hw; [discriminate |].
  injection H as <- <-. split; [| reflexivity].
  by eapply process_walk_raises.
Qed.

(** X16.  A run is stopped by nothing but a [TypeError], an [OverflowError]
    or a [UnicodeEncodeError] (of the exceptions that the requests, the
    parsing, the reads, the moves and the statements of the script can
    raise, every other one is caught on the way); and when it is stopped,
    the rows it had inserted are rolled back: the table is as it was before
    the run. *)
Theorem run_is_stopped_by_three_errors_only :
  forall json_loads backend timestamp walk st e st',
    process_uploaded_images json_loads backend timestamp walk st = (Raise e, st') ->
    (e = TypeError \/ e = OverflowError \/ e = UnicodeEncodeError)
    /\ db st' = db st.
Proof.
  intros json_loads backend timestamp walk st e st' H.
  by apply (run_stopped json_loads backend timestamp walk).
Qed.

Lemma run_is_stopped_by_three_errors_only_witness :
  fst (process_uploaded_images Json.loads (first_then sample_text numbered_text)
         "20240101-120000" (os_walk UPLOADS_DIR sample_tree) sample_state) =
    Raise TypeError
  /\ db (snd (process_uploaded_images Json.loads
                (first_then sample_text numbered_text)
                "20240101-120000" (os_walk UPLOADS_DIR sample_tree) sample_state)) =
       db sample_state.
Proof.
  assert (Hfst : fst (process_uploaded_images Json.loads
                        (first_then sample_text numbered_text)
                        "20240101-120000" (os_walk UPLOADS_DIR sample_tree)
                        sample_state) = Raise TypeError)
    by (vm_compute; reflexivity).
  split; [exact Hfst |].
  pose proof (surjective_pairing
                (process_uploaded_images Json.loads
                   (first_then sample_text numbered_text)
                   "20240101-120000" (os_walk UPLOADS_DIR sample_tree)
                   sample_state)) as Hrun.
  rewrite Hfst in Hrun.
  exact (proj2 (run_is_stopped_by_three_errors_only _ _ _ _ _ _ _ Hrun)).
Defined.

(* ===================================================================== *)
(** ** What a run keeps: the table *)
(* ===================================================================== *)

(** When [R] holds across the listed files with an image extension, it
    holds across the walk: the other files are only logged. *)
Section ImagesRespect.

Variable json_loads : string -> option json.
Variable backend : nat -> string -> http_result.
Variable R : state -> state -> Prop.
Hypothesis HR : frame R.
Variable batch_dir : string.

Lemma process_file_respects_image root filename :
  (is_image filename = true -> across_file R batch_dir root filename) ->
  respects R (process_file json_loads backend batch_dir root filename).
Proof.
  intros H. destruct (is_image filename) eqn:Himg.
  - apply process_file_respects; [exact HR | by apply H].
  - intros st. rewrite process_file_not_image by assumption.
    by apply frame_after.
Qed.

Lemma process_files_respects_images root files :
  (forall filename, In filename files -> is_image filename = true ->
     across_file R batch_dir root filename) ->
  respects R (process_files json_loads backend batch_dir root files).
Proof.
  induction files as [| filename files IH]; intros H; simpl.
  - by apply respects_ret.
  - apply respects_bind; [exact HR | |].
    + apply process_file_respects_image, H. by left.
    + intros _. apply IH. intros f Hf. apply H. by right.
Qed.

Lemma process_walk_respects_images walk :
  (forall root filename, In (root, filename) (walk_jobs walk) ->
     is_image filename = true -> across_file R batch_dir root filename) ->
  respects R (process_walk json_loads backend batch_dir walk).
Proof.
  induction walk as [| [root files] walk IH]; intros H; simpl.
  - by apply respects_ret.
  - apply respects_bind; [exact HR | by apply respects_logging |]. intros _.
    apply respects_bind; [exact HR | |].
    + apply process_files_respects_images. intros f Hf. apply H.
      simpl. apply in_or_app. left. by apply in_map.
    + intros _. apply IH. intros r f Hf. apply H.
      simpl. apply in_or_app. by right.
Qed.

End ImagesRespect.

(** The image references of the rows are pairwise distinct. *)
Definition unique_references (d : database) : Prop :=
  List.NoDup (List.map image_url (rows d)).

Definition keeps_unique (s s' : state) : Prop :=
  unique_references (db s) -> unique_references (db s').

Lemma keeps_unique_frame : frame keeps_unique.
Proof.
  split; unfold keeps_unique.
  - intros s H. exact H.
  - intros a b c H1 H2 H. by apply H2, H1.
  - intros e s H. exact H.
  - intros n s H. exact H.
Qed.

Lemma has_image_url_In q rs :
  has_image_url q rs = true <-> In q (List.map image_url rs).
Proof.
  unfold has_image_url. rewrite existsb_exists, in_map_iff. split.
  - intros (r & Hr & He). apply String.eqb_eq in He. by exists r.
  - intros (r & <- & Hr). exists r. split; [exact Hr | apply String.eqb_refl].
Qed.

Lemma keeps_unique_across_file batch_dir root filename :
  across_file keeps_unique batch_dir root filename.
Proof.
  split.
  - intros s f _ H. exact H.
  - intros s d a b c e f g h i j k Hd H.
    apply sql_insert_Ok in Hd as (_ & Hu & ->).
    unfold unique_references, set_db in *. cbn [db rows] in *.
    rewrite List.map_app. cbn [List.map image_url].
    apply List.NoDup_app; [exact H | repeat constructor; by intros [] |].
    intros x Hx [<- | []].
    apply has_image_url_In in Hx. congruence.
Qed.

(** X17.  The image reference stays UNIQUE across a run: when no two rows of
    the table have the same image reference before a run, none have after it,
    however the run ends. *)
Theorem image_references_stay_unique :
  forall json_loads backend timestamp walk st,
    unique_references (db st) ->
    unique_references
      (db (snd (process_uploaded_images json_loads backend timestamp walk st))).
Proof.
  intros json_loads backend timestamp walk st H.
  rewrite process_uploaded_images_unfold.
  pose proof (process_walk_respects json_loads backend keeps_unique
                keeps_unique_frame (Path.join INVENTORY_IMAGES_DIR timestamp) walk
                (fun r f _ => keeps_unique_across_file _ r f)
                (loop_start timestamp st)) as Hw.
  destruct (process_walk _ _ _ _ _) as [[[] | e] s1]; cbn [snd] in *.
  - apply Hw. exact H.
  - exact H.
Qed.

Lemma image_references_stay_unique_witness :
  List.map image_url
    (rows (db (snd (sample_run "20240101-120000" sample_state)))) =
    ["data/images/inventory/20240101-120000/a/photo.jpg";
     "data/images/inventory/20240101-120000/b/photo.jpg"]
  /\ unique_references (db (snd (sample_run "20240101-120000" sample_state))).
Proof.
  split; [vm_compute; reflexivity |].
  apply (image_references_stay_unique Json.loads
           (always (fenced "```json" sample_text)) "20240101-120000"
           (os_walk UPLOADS_DIR sample_tree) sample_state).
  constructor.
Defined.

(** X18.  A run only appends to the table: the rows it finds are still there
    afterwards, unchanged and in their places, followed by the rows of the
    run, whose ids are the consecutive integers after the greatest id the
    table has given out (the AUTOINCREMENT counter, so that the id of a
    deleted row is not used again).  When the run is stopped by an exception
    nothing is appended. *)
Theorem run_only_appends_rows :
  forall json_loads backend timestamp walk st,
    exists l,
      rows (db (snd (process_uploaded_images json_loads backend timestamp walk st)))
        = rows (db st) ++ l
      /\ List.map id l = ids_after (high_water (db st)) (List.length l)
      /\ (forall e, fst (process_uploaded_images json_loads backend timestamp walk st)
                      = Raise e -> l = []).
Proof.
  intros json_loads backend timestamp walk st.
  rewrite process_uploaded_images_unfold.
  pose proof (process_walk_respects json_loads backend appended
                appended_frame (Path.join INVENTORY_IMAGES_DIR timestamp) walk
                (fun r f _ => appended_across_file _ r f)
                (loop_start timestamp st)) as Hw.
  destruct (process_walk _ _ _ _ _) as [[[] | e] s1]; cbn [snd fst] in *.
  - destruct Hw as (l & Hr & Hi & _). exists l.
    split; [exact Hr |]. split; [exact Hi | discriminate].
  - exists []. cbn [set_db db]. rewrite List.app_nil_r.
    split; [reflexivity |]. split; [reflexivity | reflexivity].
Qed.

(* ===================================================================== *)
(** ** What a run keeps: the files *)
(* ===================================================================== *)

(** The file at [p] is the same. *)
Definition same_file (p : string) (s s' : state) : Prop := fs s' !! p = fs s !! p.

Lemma same_file_frame p : frame (same_file p).
Proof.
  split; unfold same_file.
  - reflexivity.
  - intros a b c H1 H2. by rewrite H2.
  - reflexivity.
  - reflexivity.
Qed.

Lemma same_file_across_file p batch_dir root filename :
  Path.join root filename <> p ->
  new_image_path_of batch_dir root filename <> p ->
  across_file (same_file p) batch_dir root filename.
Proof.
  intros H1 H2. split.
  - intros s f _. unfold same_file, set_fs. cbn [fs].
    by rewrite lookup_insert_ne, lookup_delete_ne.
  - intros s d a b c e f g h i j k _. reflexivity.
Qed.

(** X19.  A run changes no file but the images it lists and their
    destinations: a path that is neither that of a listed file with an image
    extension nor the destination of one holds after the run what it held
    before, however the run ends.  In particular the listed files without an
    image extension stay where they are. *)
Theorem run_leaves_the_other_files :
  forall json_loads backend timestamp walk st p,
    (forall root filename,
        In (root, filename) (walk_jobs walk) -> is_image filename = true ->
        Path.join root filename <> p
        /\ new_image_path_of (Path.join INVENTORY_IMAGES_DIR timestamp) root
             filename <> p) ->
    fs (snd (process_uploaded_images json_loads backend timestamp walk st)) !! p =
    fs st !! p.
Proof.
  intros json_loads backend timestamp walk st p H.
  rewrite process_uploaded_images_unfold.
  pose proof (process_walk_respects_images json_loads backend (same_file p)
                (same_file_frame p) (Path.join INVENTORY_IMAGES_DIR timestamp) walk)
    as Hw.
  specialize (Hw (fun r f Hin Himg =>
                    same_file_across_file p _ r f (proj1 (H r f Hin Himg))
                      (proj2 (H r f Hin Himg)))
                 (loop_start timestamp st)).
  destruct (process_walk _ _ _ _ _) as [[[] | e] s1]; cbn [snd] in *; exact Hw.
Qed.

(** The upload root of the scenario with a text file beside the images. *)
Definition noted_tree : dirtree :=
  Dir ["notes.txt"] [("a", Dir ["photo.jpg"; "photo.txt"] [])].

Definition noted_state : state :=
  set_fs (<["data/images/uploads/notes.txt" := File (bytes "to do")]>
            (<["data/images/uploads/a/photo.txt" := File (bytes "caption")]>
               sample_fs))
    sample_state.

Lemma run_leaves_the_other_files_witness :
  fs (snd (process_uploaded_images Json.loads
             (always (fenced "```json" sample_text)) "20240101-120000"
             (os_walk UPLOADS_DIR noted_tree) noted_state))
    !! "data/images/uploads/a/photo.txt" = Some (File (bytes "caption"))
  /\ fs (snd (process_uploaded_images Json.loads
                (always (fenced "```json" sample_text)) "20240101-120000"
                (os_walk UPLOADS_DIR noted_tree) noted_state))
       !! "data/images/uploads/a/photo.jpg" = None.
Proof.
  split; [| vm_compute; reflexivity].
  rewrite (run_leaves_the_other_files Json.loads
             (always (fenced "```json" sample_text)) "20240101-120000"
             (os_walk UPLOADS_DIR noted_tree) noted_state
             "data/images/uploads/a/photo.txt").
  - vm_compute. reflexivity.
  - intros root filename Hin Himg. vm_compute in Hin.
    destruct Hin as [[= <- <-] | [[= <- <-] | [[= <- <-] | []]]];
      try discriminate Himg.
    split; vm_compute; discriminate.
Defined.

(* ===================================================================== *)
(** ** What a run costs: the requests *)
(* ===================================================================== *)

(** A computation that sends at most [k] requests, and never resets the
    count. *)
Definition sends_at_most {A} (k : nat) (m : M A) : Prop :=
  forall st, calls st <= calls (snd (m st)) <= calls st + k.

Lemma sends_weaken {A} (k k' : nat) (m : M A) :
  k <= k' -> sends_at_most k m -> sends_at_most k' m.
Proof. intros Hk H st. specialize (H st). lia. Qed.

Lemma sends_ret {A} (a : A) : sends_at_most 0 (ret a).
Proof. intros st. simpl. lia. Qed.

Lemma sends_lift {A} (r : result A) : sends_at_most 0 (lift r).
Proof. intros st. simpl. lia. Qed.

Lemma sends_get_state : sends_at_most 0 get_state.
Proof. intros st. simpl. lia. Qed.

Lemma sends_emit (e : event) : sends_at_most 0 (emit e).
Proof. intros st. simpl. lia. Qed.

Lemma sends_logging (l : log_entry) : sends_at_most 0 (logging l).
Proof. apply sends_emit. Qed.

Lemma sends_bind {A B} (k1 k2 : nat) (m : M A) (f : A -> M B) :
  sends_at_most k1 m -> (forall a, sends_at_most k2 (f a)) ->
  sends_at_most (k1 + k2) (bind m f).
Proof.
  intros Hm Hf st. unfold bind.
  specialize (Hm st). destruct (m st) as [[a | e] s1]; simpl in *.
  - specialize (Hf a s1). lia.
  - lia.
Qed.

Lemma sends_try_except {A} (k1 k2 : nat) (m : M A) (catches : exn -> bool)
    (handler : exn -> M A) :
  sends_at_most k1 m -> (forall e, sends_at_most k2 (handler e)) ->
  sends_at_most (k1 + k2) (try_except m catches handler).
Proof.
  intros Hm Hh st. unfold try_except.
  specialize (Hm st). destruct (m st) as [[a | e] s1]; simpl in *.
  - lia.
  - destruct (catches e); simpl; [| lia]. specialize (Hh e s1). lia.
Qed.

Lemma sends_encode image_path : sends_at_most 0 (encode_image_to_base64 image_path).
Proof.
  intros st. rewrite encode_image_to_base64_spec.
  destruct (fs st !! image_path) as [[content |] |]; simpl; lia.
Qed.

Lemma sends_shutil_move src dst : sends_at_most 0 (shutil_move src dst).
Proof.
  intros st. unfold shutil_move. destruct (fs st !! src); simpl; lia.
Qed.

Lemma sends_cursor_execute_insert a b img_path c d f g h i j k :
  sends_at_most 0 (cursor_execute_insert a b img_path c d f g h i j k).
Proof.
  intros st.
  destruct (cursor_execute_insert_cases a b img_path c d f g h i j k st)
    as [(x & -> & _) | (d' & va & vb & vc & ve & vf & vg & vh & vi & vj & vk & _ & ->)];
    simpl; lia.
Qed.

Lemma sends_insert_product_info product_info img_path :
  sends_at_most 0 (insert_product_info product_info img_path).
Proof.
  unfold insert_product_info.
  apply (sends_bind 0 0); [apply sends_lift |]. intros _.
  apply (sends_bind 0 0); [apply sends_lift |]. intros d.
  apply (sends_bind 0 0); [apply sends_lift |]. intros k.
  apply (sends_try_except 0 0); [| intros; apply sends_logging].
  repeat (apply (sends_bind 0 0); [apply sends_lift |]; intros ?).
  apply (sends_bind 0 0); [apply sends_cursor_execute_insert |].
  intros _. apply sends_logging.
Qed.

Section Requests.

Variable json_loads : string -> option json.
Variable backend : nat -> string -> http_result.
Variable batch_dir : string.

Lemma sends_analyze_image image_base64 :
  sends_at_most 1 (analyze_image json_loads backend image_base64).
Proof.
  intros st.
  destruct (analyze_image_returns json_loads backend image_base64 st)
    as (v & evs & H & _).
  rewrite H. simpl. lia.
Qed.

(** The requests of a file: one when its name has an image extension. *)
Definition requests_of (filename : string) : nat :=
  if is_image filename then 1 else 0.

Lemma sends_process_file root filename :
  sends_at_most (requests_of filename)
    (process_file json_loads backend batch_dir root filename).
Proof.
  unfold process_file, requests_of.
  destruct (is_image filename).
  2: { apply (sends_bind 0 0); [apply sends_logging | intros; apply sends_ret]. }
  apply (sends_bind 0 1); [apply sends_logging |]. intros _.
  apply (sends_bind 0 1); [apply sends_logging |]. intros _.
  apply (sends_bind 0 1); [apply sends_encode |].
  intros [[| c enc] |];
    try (apply (sends_weaken 0); [lia | apply sends_logging]).
  apply (sends_bind 0 1); [apply sends_emit |]. intros _.
  apply (sends_bind 0 1); [apply sends_get_state |]. intros st.
  destruct (decide _); [| apply (sends_weaken 0); [lia | apply sends_logging]].
  apply (sends_bind 1 0); [apply sends_analyze_image |]. intros product_info.
  destruct (truthy product_info); [| apply sends_logging].
  apply (sends_try_except 0 0); [| intros; apply sends_logging].
  apply (sends_bind 0 0); [apply sends_shutil_move |]. intros _.
  apply (sends_bind 0 0); [apply sends_insert_product_info |].
  intros _. apply sends_logging.
Qed.

Definition requests_of_files (files : list string) : nat :=
  List.length (List.filter is_image files).

Lemma sends_process_files root files :
  sends_at_most (requests_of_files files)
    (process_files json_loads backend batch_dir root files).
Proof.
  induction files as [| f files IH]; [apply sends_ret |].
  cbn [process_files].
  replace (requests_of_files (f :: files))
    with (requests_of f + requests_of_files files)
    by (unfold requests_of_files, requests_of; simpl; by destruct (is_image f)).
  apply sends_bind; [apply sends_process_file | intros _; exact IH].
Qed.

(** The number of listed files with an image extension. *)
Definition images_listed (walk : list (string * list string)) : nat :=
  List.length (List.filter (fun job => is_image (snd job)) (walk_jobs walk)).

Lemma images_listed_cons root files walk :
  images_listed ((root, files) :: walk) =
  requests_of_files files + images_listed walk.
Proof.
  unfold images_listed, requests_of_files.
  change (walk_jobs ((root, files) :: walk))
    with (List.map (pair root) files ++ walk_jobs walk).
  rewrite List.filter_app, List.length_app. f_equal.
  induction files as [| f files IH]; [reflexivity |].
  simpl. destruct (is_image f); simpl; by rewrite IH.
Qed.

Lemma sends_process_walk walk :
  sends_at_most (images_listed walk)
    (process_walk json_loads backend batch_dir walk).
Proof.
  induction walk as [| [root files] walk IH]; [apply sends_ret |].
  cbn [process_walk]. rewrite images_listed_cons.
  apply (sends_bind 0); [apply sends_logging |]. intros _.
  apply sends_bind; [apply sends_process_files | intros _; exact IH].
Qed.

End Requests.

(** X20.  A run sends at most one request for each listed file with an image
    extension, whatever the backend answers and however the run ends: nothing
    is asked twice, and nothing is asked for the other files. *)
Theorem run_sends_at_most_one_request_per_image :
  forall json_loads backend timestamp walk st,
    calls st
    <= calls (snd (process_uploaded_images json_loads backend timestamp walk st))
    <= calls st + images_listed walk.
Proof.
  intros json_loads backend timestamp walk st.
  rewrite process_uploaded_images_unfold.
  pose proof (sends_process_walk json_loads backend
                (Path.join INVENTORY_IMAGES_DIR timestamp) walk
                (loop_start timestamp st)) as Hw.
  change (calls (loop_start timestamp st)) with (calls st) in Hw.
  destruct (process_walk _ _ _ _ _) as [[[] | e] s1]; cbn [snd] in *; exact Hw.
Qed.

(* ===================================================================== *)
(** ** What a run does: its events *)
(* ===================================================================== *)

(** A computation all of whose events satisfy [P]. *)
Definition emits {A} (P : event -> Prop) (m : M A) : Prop :=
  forall st, exists evs, trace (snd (m st)) = trace st ++ evs /\ Forall P evs.

Section Emits.

Variable P : event -> Prop.

Lemma emits_nothing {A} (m : M A) :
  (forall st, trace (snd (m st)) = trace st) -> emits P m.
Proof.
  intros H st. exists []. rewrite H, List.app_nil_r. by split.
Qed.

Lemma emits_ret {A} (a : A) : emits P (ret a).
Proof. by apply emits_nothing. Qed.

Lemma emits_lift {A} (r : result A) : emits P (lift r).
Proof. by apply emits_nothing. Qed.

Lemma emits_get_state : emits P get_state.
Proof. by apply emits_nothing. Qed.

Lemma emits_emit (e : event) : P e -> emits P (emit e).
Proof. intros He st. exists [e]. split; [reflexivity | by constructor]. Qed.

Lemma emits_bind {A B} (m : M A) (f : A -> M B) :
  emits P m -> (forall a, emits P (f a)) -> emits P (bind m f).
Proof.
  intros Hm Hf st. unfold bind.
  destruct (Hm st) as (evs & Ht & Hp). destruct (m st) as [[a | e] s1]; simpl in *.
  - destruct (Hf a s1) as (evs' & Ht' & Hp'). exists (evs ++ evs').
    rewrite Ht', Ht, <- List.app_assoc. split; [reflexivity | by apply Forall_app].
  - by exists evs.
Qed.

Lemma emits_try_except {A} (m : M A) (catches : exn -> bool)
    (handler : exn -> M A) :
  emits P m -> (forall e, emits P (handler e)) -> emits P (try_except m catches handler).
Proof.
  intros Hm Hh st. unfold try_except.
  destruct (Hm st) as (evs & Ht & Hp). destruct (m st) as [[a | e] s1]; simpl in *.
  - by exists evs.
  - destruct (catches e); simpl; [| by exists evs].
    destruct (Hh e s1) as (evs' & Ht' & Hp'). exists (evs ++ evs').
    rewrite Ht', Ht, <- List.app_assoc. split; [reflexivity | by apply Forall_app].
Qed.

End Emits.

Lemma emits_weaken {A} (P Q : event -> Prop) (m : M A) :
  (forall e, P e -> Q e) -> emits P m -> emits Q m.
Proof.
  intros H Hm st. destruct (Hm st) as (evs & Ht & Hp). exists evs.
  split; [exact Ht |]. eapply Forall_impl; [exact Hp | exact H].
Qed.

(** What the step of the file [filename] of [root] may do: log, make
    directories, send a request, open the file, move it to its destination,
    run the INSERT under its destination.  It does not wait. *)
Definition event_of_file (batch_dir root filename : string) (e : event) : Prop :=
  match e with
  | Log _ | MakeDirs _ | HttpPost _ _ => True
  | FileOpen path => path = Path.join root filename
  | Move src dst =>
      src = Path.join root filename
      /\ dst = new_image_path_of batch_dir root filename
  | SqlInsert img_path => img_path = new_image_path_of batch_dir root filename
  | Sleep => False
  end.

Lemma is_log_event_of_file batch_dir root filename e :
  is_log e -> event_of_file batch_dir root filename e.
Proof. by destruct e. Qed.

Section FileEvents.

Variable json_loads : string -> option json.
Variable backend : nat -> string -> http_result.
Variables batch_dir root filename : string.

Local Abbreviation P := (event_of_file batch_dir root filename).

Lemma emits_logging (l : log_entry) : emits P (logging l).
Proof. by apply emits_emit. Qed.

Lemma emits_encode : emits P (encode_image_to_base64 (Path.join root filename)).
Proof.
  intros st. rewrite encode_image_to_base64_spec.
  destruct (fs st !! Path.join root filename) as [[content |] |]; simpl;
    eexists; (split; [reflexivity |]); repeat constructor.
Qed.

Lemma emits_analyze_image image_base64 :
  emits P (analyze_image json_loads backend image_base64).
Proof.
  intros st.
  destruct (analyze_image_returns json_loads backend image_base64 st)
    as (v & evs & H & Hl).
  rewrite H. eexists. split; [reflexivity |].
  constructor; [exact I |]. constructor; [exact I |].
  eapply Forall_impl; [exact Hl | apply is_log_event_of_file].
Qed.

Lemma emits_shutil_move :
  emits P (shutil_move (Path.join root filename)
             (new_image_path_of batch_dir root filename)).
Proof.
  intros st. unfold shutil_move. destruct (fs st !! _); simpl.
  - eexists [_]. split; [reflexivity |]. constructor; [by split | constructor].
  - exists []. by rewrite List.app_nil_r.
Qed.

Lemma emits_cursor_execute_insert a b c d f g h i j k :
  emits P (cursor_execute_insert a b (new_image_path_of batch_dir root filename)
             c d f g h i j k).
Proof.
  unfold cursor_execute_insert.
  apply emits_bind; [by apply emits_emit |]. intros _.
  repeat (apply emits_bind; [apply emits_lift |]; intros ?).
  apply emits_bind; [apply emits_get_state |]. intros st.
  apply emits_bind; [apply emits_lift |]. intros d'.
  by apply emits_nothing.
Qed.

Lemma emits_insert_product_info product_info :
  emits P (insert_product_info product_info
             (new_image_path_of batch_dir root filename)).
Proof.
  unfold insert_product_info.
  apply emits_bind; [apply emits_lift |]. intros _.
  apply emits_bind; [apply emits_lift |]. intros d.
  apply emits_bind; [apply emits_lift |]. intros k.
  apply emits_try_except; [| intros; apply emits_logging].
  repeat (apply emits_bind; [apply emits_lift |]; intros ?).
  apply emits_bind; [apply emits_cursor_execute_insert |].
  intros _. apply emits_logging.
Qed.

Lemma emits_process_file :
  emits (fun e => if is_image filename then P e else is_log e)
    (process_file json_loads backend batch_dir root filename).
Proof.
  destruct (is_image filename) eqn:Himg.
  2: { intros st. rewrite process_file_not_image by assumption.
       eexists. split; [reflexivity | repeat constructor]. }
  unfold process_file. rewrite Himg.
  apply emits_bind; [apply emits_logging |]. intros _.
  apply emits_bind; [apply emits_logging |]. intros _.
  apply emits_bind; [apply emits_encode |].
  intros [[| c enc] |]; try apply emits_logging.
  apply emits_bind; [by apply emits_emit |]. intros _.
  apply emits_bind; [apply emits_get_state |]. intros st.
  destruct (decide _); [| apply emits_logging].
  apply emits_bind; [apply emits_analyze_image |]. intros product_info.
  destruct (truthy product_info); [| apply emits_logging].
  apply emits_try_except; [| intros; apply emits_logging].
  apply emits_bind; [apply emits_shutil_move |]. intros _.
  apply emits_bind; [apply emits_insert_product_info |].
  intros _. apply emits_logging.
Qed.

End FileEvents.

(** What a run over the listed files [jobs] may do: every file that is
    opened or moved is a listed file with an image extension, it is moved
    to its own destination, and an INSERT is run under the destination of
    such a file.  A run does not wait. *)
Definition event_of_run (batch_dir : string) (jobs : list (string * string))
    (e : event) : Prop :=
  match e with
  | Log _ | MakeDirs _ | HttpPost _ _ => True
  | Sleep => False
  | FileOpen path =>
      exists root filename,
        In (root, filename) jobs /\ is_image filename = true
        /\ path = Path.join root filename
  | Move src dst =>
      exists root filename,
        In (root, filename) jobs /\ is_image filename = true
        /\ src = Path.join root filename
        /\ dst = new_image_path_of batch_dir root filename
  | SqlInsert img_path =>
      exists root filename,
        In (root, filename) jobs /\ is_image filename = true
        /\ img_path = new_image_path_of batch_dir root filename
  end.

Section RunEvents.

Variable json_loads : string -> option json.
Variable backend : nat -> string -> http_result.
Variable batch_dir : string.

Lemma event_of_run_more jobs jobs' e :
  (forall job, In job jobs -> In job jobs') ->
  event_of_run batch_dir jobs e -> event_of_run batch_dir jobs' e.
Proof.
  intros H. destruct e; simpl; try tauto.
  - intros (r & f & Hin & Hrest). exists r, f. split; [by apply H | exact Hrest].
  - intros (r & f & Hin & Hrest). exists r, f. split; [by apply H | exact Hrest].
  - intros (r & f & Hin & Hrest). exists r, f. split; [by apply H | exact Hrest].
Qed.

Lemma event_of_file_run root filename jobs e :
  In (root, filename) jobs -> is_image filename = true ->
  event_of_file batch_dir root filename e -> event_of_run batch_dir jobs e.
Proof.
  intros Hin Himg. destruct e; simpl; try tauto.
  - intros ->. by exists root, filename.
  - intros [-> ->]. by exists root, filename.
  - intros ->. by exists root, filename.
Qed.

Lemma emits_process_files root files :
  emits (event_of_run batch_dir (List.map (pair root) files))
    (process_files json_loads backend batch_dir root files).
Proof.
  induction files as [| f files IH]; [apply emits_ret |].
  cbn [process_files]. apply emits_bind.
  - eapply emits_weaken; [| apply emits_process_file].
    intros e He. destruct (is_image f) eqn:Himg; [| by destruct e].
    eapply event_of_file_run; [by left | exact Himg | exact He].
  - intros _. eapply emits_weaken; [| exact IH].
    intros e. apply event_of_run_more. intros job Hj. by right.
Qed.

Lemma emits_process_walk walk :
  emits (event_of_run batch_dir (walk_jobs walk))
    (process_walk json_loads backend batch_dir walk).
Proof.
  induction walk as [| [root files] walk IH]; [apply emits_ret |].
  cbn [process_walk].
  change (walk_jobs ((root, files) :: walk))
    with (List.map (pair root) files ++ walk_jobs walk).
  apply emits_bind; [by apply emits_emit |]. intros _.
  apply emits_bind.
  - eapply emits_weaken; [| apply emits_process_files].
    intros e. apply event_of_run_more. intros job Hj. apply in_or_app. by left.
  - intros _. eapply emits_weaken; [| exact IH].
    intros e. apply event_of_run_more. intros job Hj. apply in_or_app. by right.
Qed.

End RunEvents.

(** X21.  What a run does, it does to the listed images: beyond its log
    entries, the directories it makes and the requests it sends, every file
    it opens is a listed file with an image extension, every move takes such
    a file to its own destination under the archive directory of the run, and
    every INSERT is run under the destination of such a file.  It opens and
    moves no other file, and it never waits. *)
Theorem run_acts_on_the_listed_images_only :
  forall json_loads backend timestamp walk st,
    exists evs,
      trace (snd (process_uploaded_images json_loads backend timestamp walk st)) =
        trace st ++ evs
      /\ Forall
           (event_of_run (Path.join INVENTORY_IMAGES_DIR timestamp) (walk_jobs walk))
           evs.
Proof.
  intros json_loads backend timestamp walk st.
  rewrite process_uploaded_images_unfold.
  destruct (emits_process_walk json_loads backend
              (Path.join INVENTORY_IMAGES_DIR timestamp) walk
              (loop_start timestamp st)) as (evs & Ht & Hp).
  destruct (process_walk _ _ _ _ _) as [[[] | e] s1]; cbn [snd] in *.
  - eexists. cbn [add_event trace]. rewrite Ht. unfold loop_start. cbn [after trace].
    rewrite <- !List.app_assoc. split; [reflexivity |].
    apply Forall_app. split; [repeat constructor |].
    apply Forall_app. split; [exact Hp | repeat constructor].
  - eexists. cbn [set_db trace]. rewrite Ht. unfold loop_start. cbn [after trace].
    rewrite <- !List.app_assoc. split; [reflexivity |].
    apply Forall_app. split; [repeat constructor | exact Hp].
Qed.

(* ===================================================================== *)
(** ** What a run keeps: every file, and a file for every new row *)
(* ===================================================================== *)

(** What a step does to the files and to the table. *)
Lemma insert_product_info_effect product_info img_path st :
  fs (snd (insert_product_info product_info img_path st)) = fs st
  /\ (db (snd (insert_product_info product_info img_path st)) = db st
      \/ exists r,
           image_url r = img_path
           /\ rows (db (snd (insert_product_info product_info img_path st))) =
                rows (db st) ++ [r]).
Proof.
  unfold insert_product_info, try_except.
  cbv [bind lift logging emit].
  destruct (check_required required_keys product_info) as [[] |]; [| by split; [| left]].
  destruct (list_field_to_string _ product_info "description"); [| by split; [| left]].
  destruct (list_field_to_string _ product_info "key_tags"); [| by split; [| left]].
  repeat match goal with
         | |- context [getitem product_info ?key] =>
             destruct (getitem product_info key) as [? | []];
             [| cbn [is_sqlite3_error]; by split; [| left] ..]
         end.
  match goal with
  | |- context [cursor_execute_insert ?a ?b ?q ?c ?e ?f ?g ?h ?i ?j ?k st] =>
      destruct (cursor_execute_insert_cases a b q c e f g h i j k st)
        as [(x & -> & _)
           | (d' & va & vb & vc & ve & vf & vg & vh & vi & vj & vk & Hd & ->)]
  end.
  - destruct (is_sqlite3_error x); by split; [| left].
  - apply sql_insert_Ok in Hd as (_ & _ & ->).
    split; [reflexivity |]. right. eexists. split; [| reflexivity]. reflexivity.
Qed.

Section Effect.

Variable json_loads : string -> option json.
Variable backend : nat -> string -> http_result.
Variables batch_dir root filename : string.

Lemma process_file_effect st :
  let st' := snd (process_file json_loads backend batch_dir root filename st) in
  fs st' = fs st /\ db st' = db st
  \/ is_image filename = true
     /\ exists content,
          fs st !! Path.join root filename = Some (File content)
          /\ fs st' =
               <[new_image_path_of batch_dir root filename := File content]>
                 (delete (Path.join root filename) (fs st))
          /\ (db st' = db st
              \/ exists r,
                   image_url r = new_image_path_of batch_dir root filename
                   /\ rows (db st') = rows (db st) ++ [r]).
Proof.
  cbv zeta.
  destruct (is_image filename) eqn:Himg;
    [| rewrite process_file_not_image by assumption; by left].
  destruct (fs st !! Path.join root filename) as [[[| b content] |] |] eqn:Hf.
  2: {
    destruct (decide (new_image_path_of batch_dir root filename ∈ existing_images st))
      as [Hin | Hnew].
    { rewrite (process_file_already_exists json_loads backend batch_dir root
                 filename st (b :: content)) by (assumption || discriminate).
      by left. }
    destruct (process_file_analyzed json_loads backend batch_dir root filename st
                (b :: content) Himg Hf ltac:(discriminate) Hnew)
      as (v & evs & Hv & _ & Hq).
    destruct (truthy v) eqn:Ht; [| rewrite Hq; by left].
    destruct (process_file_moves_then_inserts json_loads backend batch_dir root
                filename st (b :: content) v Himg Hf ltac:(discriminate) Hnew Hv Ht)
      as (logs & _ & Hm).
    rewrite Hm. right. split; [reflexivity |]. exists (b :: content).
    split; [reflexivity |].
    match goal with
    | |- context [insert_product_info v ?q ?s] =>
        destruct (insert_product_info_effect v q s) as [Hfs Hdb];
        destruct (insert_product_info v q s) as [[[] | e] s']
    end; cbn [snd] in *.
    - split; [exact Hfs | exact Hdb].
    - destruct (is_key_error e); split; (exact Hfs || exact Hdb). }
  all: destruct (process_file_not_encoded json_loads backend batch_dir root
                   filename st Himg) as (l & Hq & _);
    [ rewrite Hf; intros c [= <-] || intros c [=]; reflexivity
    | rewrite Hq; by left ].
Qed.

End Effect.

(** A relation that holds across the steps of the files holds across the
    loops. *)
Section Steps.

Variable json_loads : string -> option json.
Variable backend : nat -> string -> http_result.
Variable R : state -> state -> Prop.
Hypothesis HR : frame R.
Variable batch_dir : string.

Lemma process_files_steps root files :
  (forall filename, In filename files ->
     respects R (process_file json_loads backend batch_dir root filename)) ->
  respects R (process_files json_loads backend batch_dir root files).
Proof.
  induction files as [| filename files IH]; intros H; simpl.
  - by apply respects_ret.
  - apply respects_bind; [exact HR | apply H; by left |].
    intros _. apply IH. intros f Hf. apply H. by right.
Qed.

Lemma process_walk_steps walk :
  (forall root filename, In (root, filename) (walk_jobs walk) ->
     respects R (process_file json_loads backend batch_dir root filename)) ->
  respects R (process_walk json_loads backend batch_dir walk).
Proof.
  induction walk as [| [root files] walk IH]; intros H; simpl.
  - by apply respects_ret.
  - apply respects_bind; [exact HR | by apply respects_logging |]. intros _.
    apply respects_bind; [exact HR | |].
    + apply process_files_steps. intros f Hf. apply H.
      simpl. apply in_or_app. left. by apply in_map.
    + intros _. apply IH. intros r f Hf. apply H.
      simpl. apply in_or_app. by right.
Qed.

End Steps.

(** The rows after the first [rows0] are rows for destinations of listed
    images, each with a file at its image reference. *)
Definition new_rows_have_files (batch_dir : string) (jobs : list (string * string))
    (rows0 : list row) (s : state) : Prop :=
  exists l,
    rows (db s) = rows0 ++ l
    /\ Forall
         (fun r =>
            exists root filename content,
              In (root, filename) jobs /\ is_image filename = true
              /\ image_url r = new_image_path_of batch_dir root filename
              /\ fs s !! image_url r = Some (File content)) l.

Definition keeps_new_rows_with_files (batch_dir : string)
    (jobs : list (string * string)) (rows0 : list row) (s s' : state) : Prop :=
  new_rows_have_files batch_dir jobs rows0 s ->
  new_rows_have_files batch_dir jobs rows0 s'.

Lemma keeps_new_rows_with_files_frame batch_dir jobs rows0 :
  frame (keeps_new_rows_with_files batch_dir jobs rows0).
Proof.
  split; unfold keeps_new_rows_with_files.
  - intros s H. exact H.
  - intros a b c H1 H2 H. by apply H2, H1.
  - intros e s H. exact H.
  - intros n s H. exact H.
Qed.

Lemma process_file_keeps_new_rows_with_files json_loads backend batch_dir jobs
    rows0 root filename :
  In (root, filename) jobs ->
  (forall root' filename', In (root', filename') jobs ->
     Path.join root filename <> new_image_path_of batch_dir root' filename') ->
  respects (keeps_new_rows_with_files batch_dir jobs rows0)
    (process_file json_loads backend batch_dir root filename).
Proof.
  intros Hin Hsep st (l & Hrows & Hl).
  destruct (process_file_effect json_loads backend batch_dir root filename st)
    as [[Hfs Hdb] | (Himg & content & Hf & Hfs & Hdb)].
  - exists l. rewrite Hdb, Hfs. by split.
  - assert (Hold : Forall
                     (fun r =>
                        exists root0 filename0 content0,
                          In (root0, filename0) jobs /\ is_image filename0 = true
                          /\ image_url r =
                               new_image_path_of batch_dir root0 filename0
                          /\ fs (snd (process_file json_loads backend batch_dir
                                        root filename st)) !! image_url r =
                               Some (File content0)) l).
    { eapply Forall_impl; [exact Hl |].
      intros r (r0 & f0 & c0 & Hin0 & Himg0 & Hurl & Hfile).
      rewrite Hfs.
      destruct (decide (image_url r = new_image_path_of batch_dir root filename))
        as [He | Hne].
      - exists r0, f0, content. rewrite He at 2. rewrite lookup_insert_eq. by repeat split.
      - exists r0, f0, c0. rewrite lookup_insert_ne by congruence.
        rewrite lookup_delete_ne; [by repeat split |].
        rewrite Hurl. by apply Hsep. }
    destruct Hdb as [Hdb | (r & Hurl & Hdb)].
    + exists l. rewrite Hdb. by split.
    + exists (l ++ [r]). rewrite Hdb, Hrows, <- List.app_assoc. split; [reflexivity |].
      apply Forall_app. split; [exact Hold |]. constructor; [| constructor].
      exists root, filename, content. rewrite Hfs, Hurl, lookup_insert_eq.
      by repeat split.
Qed.

(** X22.  Every row a run adds has its file: after a run over a well-formed
    upload tree, however it ends, each row that was appended to the table has
    as its image reference the destination of a listed image, and a file is
    at that path.  (The converse fails: a file can be in the archive without
    a row.) *)
Theorem every_new_row_has_its_file :
  forall json_loads backend timestamp t st,
    wf_tree t = true ->
    is_timestamp timestamp = true ->
    exists l,
      rows (db (snd (process_uploaded_images json_loads backend timestamp
                       (os_walk UPLOADS_DIR t) st))) = rows (db st) ++ l
      /\ Forall
           (fun r =>
              exists root filename content,
                In (root, filename) (walk_jobs (os_walk UPLOADS_DIR t))
                /\ is_image filename = true
                /\ image_url r =
                     new_image_path_of (Path.join INVENTORY_IMAGES_DIR timestamp)
                       root filename
                /\ fs (snd (process_uploaded_images json_loads backend timestamp
                              (os_walk UPLOADS_DIR t) st)) !! image_url r =
                     Some (File content)) l.
Proof.
  intros json_loads backend timestamp t st Hwf Hts.
  rewrite process_uploaded_images_unfold.
  pose proof (process_walk_steps json_loads backend
                (keeps_new_rows_with_files
                   (Path.join INVENTORY_IMAGES_DIR timestamp)
                   (walk_jobs (os_walk UPLOADS_DIR t)) (rows (db st)))
                (keeps_new_rows_with_files_frame _ _ _)
                (Path.join INVENTORY_IMAGES_DIR timestamp) (os_walk UPLOADS_DIR t))
    as Hw.
  assert (Hstart : new_rows_have_files (Path.join INVENTORY_IMAGES_DIR timestamp)
                     (walk_jobs (os_walk UPLOADS_DIR t)) (rows (db st))
                     (loop_start timestamp st)).
  { exists []. split; [by rewrite List.app_nil_r | constructor]. }
  specialize (Hw (fun r f Hin =>
                    process_file_keeps_new_rows_with_files json_loads backend _ _ _
                      r f Hin
                      (fun r' f' Hin' =>
                         proj1 (tree_paths_separated timestamp t r' f' r f Hwf Hts
                                  Hin' Hin)))
                 (loop_start timestamp st) Hstart).
  destruct (process_walk _ _ _ _ _) as [[[] | e] s1]; cbn [snd] in *.
  - exact Hw.
  - exists []. split; [by rewrite List.app_nil_r | constructor].
Qed.

Lemma every_new_row_has_its_file_witness :
  List.length
    (rows (db (snd (sample_run "20240101-120000" sample_state)))) = 2
  /\ exists l,
       rows (db (snd (sample_run "20240101-120000" sample_state))) =
         rows (db sample_state) ++ l
       /\ Forall
            (fun r =>
               exists root filename content,
                 In (root, filename) (walk_jobs (os_walk UPLOADS_DIR sample_tree))
                 /\ is_image filename = true
                 /\ image_url r =
                      new_image_path_of
                        (Path.join INVENTORY_IMAGES_DIR "20240101-120000")
                        root filename
                 /\ fs (snd (sample_run "20240101-120000" sample_state))
                      !! image_url r = Some (File content)) l.
Proof.
  split; [vm_compute; reflexivity |].
  apply (every_new_row_has_its_file Json.loads
           (always (fenced "```json" sample_text)) "20240101-120000" sample_tree
           sample_state).
  - reflexivity.
  - reflexivity.
Defined.

(** The file [c] that was at [p] is still there, or [p] was a listed image
    and the file is at its destination. *)
Definition kept_or_archived (batch_dir : string) (jobs : list (string * string))
    (p : string) (c : file) (s : state) : Prop :=
  fs s !! p = Some c
  \/ exists root filename,
       In (root, filename) jobs /\ is_image filename = true
       /\ p = Path.join root filename
       /\ fs s !! p = None
       /\ fs s !! new_image_path_of batch_dir root filename = Some c.

Definition keeps_or_archives (batch_dir : string) (jobs : list (string * string))
    (p : string) (c : file) (s s' : state) : Prop :=
  kept_or_archived batch_dir jobs p c s -> kept_or_archived batch_dir jobs p c s'.

Lemma keeps_or_archives_frame batch_dir jobs p c :
  frame (keeps_or_archives batch_dir jobs p c).
Proof.
  split; unfold keeps_or_archives.
  - intros s H. exact H.
  - intros a b d H1 H2 H. by apply H2, H1.
  - intros e s H. exact H.
  - intros n s H. exact H.
Qed.

Lemma process_file_keeps_or_archives json_loads backend batch_dir jobs p c
    root filename :
  In (root, filename) jobs ->
  (forall r f r' f', In (r, f) jobs -> In (r', f') jobs ->
     Path.join r' f' <> new_image_path_of batch_dir r f) ->
  (forall r f r' f', In (r, f) jobs -> In (r', f') jobs ->
     new_image_path_of batch_dir r' f' = new_image_path_of batch_dir r f ->
     (r', f') = (r, f)) ->
  (forall r f, In (r, f) jobs -> is_image f = true ->
     new_image_path_of batch_dir r f <> p) ->
  respects (keeps_or_archives batch_dir jobs p c)
    (process_file json_loads backend batch_dir root filename).
Proof.
  intros Hin Hsep Hinj Hp st Hkept.
  destruct (process_file_effect json_loads backend batch_dir root filename st)
    as [[Hfs Hdb] | (Himg & content & Hf & Hfs & _)];
    unfold kept_or_archived; rewrite Hfs; [exact Hkept |].
  pose proof (Hsep root filename root filename Hin Hin) as Hsd.
  destruct Hkept as [Hc | (r & f & Hrf & Himg' & -> & Hnone & Hat)].
  - destruct (decide (p = Path.join root filename)) as [-> | Hne].
    + right. exists root, filename.
      rewrite Hf in Hc. injection Hc as <-.
      rewrite lookup_insert_ne by congruence.
      rewrite lookup_delete_eq, lookup_insert_eq. by repeat split.
    + left. rewrite lookup_insert_ne by (by apply Hp).
      by rewrite lookup_delete_ne by congruence.
  - right. exists r, f.
    assert (Hsrc : Path.join r f <> Path.join root filename) by congruence.
    split; [exact Hrf |]. split; [exact Himg' |]. split; [reflexivity |]. split.
    + rewrite lookup_insert_ne by (apply not_eq_sym; by apply Hsep).
      by rewrite lookup_delete_ne by congruence.
    + rewrite lookup_insert_ne.
      * rewrite lookup_delete_ne; [exact Hat |]. by apply Hsep.
      * intros He. apply Hinj in He; [| exact Hrf | exact Hin].
        injection He as -> ->. by apply Hsrc.
Qed.

(** X23.  A run loses no file.  Take a file that is at a path before a run
    over a well-formed upload tree, the path not being the destination of a
    listed image (where a moved image would replace it).  After the run,
    however it ends, the file is still at its path, or it was a listed image,
    it is no longer at its path and it is, with the same bytes, at its
    destination in the archive. *)
Theorem run_loses_no_file :
  forall json_loads backend timestamp t st p c,
    wf_tree t = true ->
    is_timestamp timestamp = true ->
    fs st !! p = Some c ->
    (forall root filename,
        In (root, filename) (walk_jobs (os_walk UPLOADS_DIR t)) ->
        is_image filename = true ->
        new_image_path_of (Path.join INVENTORY_IMAGES_DIR timestamp) root filename
        <> p) ->
    fs (snd (process_uploaded_images json_loads backend timestamp
               (os_walk UPLOADS_DIR t) st)) !! p = Some c
    \/ exists root filename,
         In (root, filename) (walk_jobs (os_walk UPLOADS_DIR t))
         /\ is_image filename = true
         /\ p = Path.join root filename
         /\ fs (snd (process_uploaded_images json_loads backend timestamp
                       (os_walk UPLOADS_DIR t) st)) !! p = None
         /\ fs (snd (process_uploaded_images json_loads backend timestamp
                       (os_walk UPLOADS_DIR t) st))
              !! new_image_path_of (Path.join INVENTORY_IMAGES_DIR timestamp)
                   root filename = Some c.
Proof.
  intros json_loads backend timestamp t st p c Hwf Hts Hc Hp.
  rewrite process_uploaded_images_unfold.
  pose proof (process_walk_steps json_loads backend
                (keeps_or_archives (Path.join INVENTORY_IMAGES_DIR timestamp)
                   (walk_jobs (os_walk UPLOADS_DIR t)) p c)
                (keeps_or_archives_frame _ _ _ _)
                (Path.join INVENTORY_IMAGES_DIR timestamp) (os_walk UPLOADS_DIR t))
    as Hw.
  assert (Hstep : forall root filename,
             In (root, filename) (walk_jobs (os_walk UPLOADS_DIR t)) ->
             respects
               (keeps_or_archives (Path.join INVENTORY_IMAGES_DIR timestamp)
                  (walk_jobs (os_walk UPLOADS_DIR t)) p c)
               (process_file json_loads backend
                  (Path.join INVENTORY_IMAGES_DIR timestamp) root filename)).
  { intros root filename Hin.
    apply process_file_keeps_or_archives; [exact Hin | | | exact Hp].
    - intros r f r' f' Hrf Hrf'.
      exact (proj1 (tree_paths_separated timestamp t r f r' f' Hwf Hts Hrf Hrf')).
    - intros r f r' f' Hrf Hrf' He.
      destruct (decide ((r', f') = (r, f))) as [Heq | Hne]; [exact Heq |].
      destruct (tree_paths_separated timestamp t r f r' f' Hwf Hts Hrf Hrf')
        as [_ Hs].
      destruct (Hs Hne) as [_ Hd]. by destruct Hd. }
  specialize (Hw Hstep (loop_start timestamp st) (or_introl Hc)).
  destruct (process_walk _ _ _ _ _) as [[[] | e] s1]; cbn [snd] in *; exact Hw.
Qed.

Lemma run_loses_no_file_witness :
  fs (snd (sample_run "20240101-120000" sample_state))
    !! "data/images/uploads/b/photo.jpg" = None
  /\ exists root filename,
       In (root, filename) (walk_jobs (os_walk UPLOADS_DIR sample_tree))
       /\ "data/images/uploads/b/photo.jpg" = Path.join root filename
       /\ fs (snd (sample_run "20240101-120000" sample_state))
            !! new_image_path_of
                 (Path.join INVENTORY_IMAGES_DIR "20240101-120000") root filename
          = Some (File (bytes "second image")).
Proof.
  assert (Hgone : fs (snd (sample_run "20240101-120000" sample_state))
                    !! "data/images/uploads/b/photo.jpg" = None)
    by (vm_compute; reflexivity).
  split; [exact Hgone |].
  destruct (run_loses_no_file Json.loads (always (fenced "```json" sample_text))
              "20240101-120000" sample_tree sample_state
              "data/images/uploads/b/photo.jpg" (File (bytes "second image")))
    as [Hstill | (root & filename & Hin & _ & Hp & _ & Hat)].
  - reflexivity.
  - reflexivity.
  - vm_compute. reflexivity.
  - intros root filename Hin _. vm_compute in Hin.
    destruct Hin as [[= <- <-] | [[= <- <-] | []]]; vm_compute; discriminate.
  - unfold sample_run in Hgone. rewrite Hgone in Hstill. discriminate.
  - exists root, filename. split; [exact Hin |]. split; [exact Hp | exact Hat].
Defined.

(* ===================================================================== *)
(** ** Facts about [initialize_database] *)
(* ===================================================================== *)

Lemma has_key_tags_snoc cols :
  existsb (String.eqb "key_tags") (cols ++ ["key_tags"]) = true.
Proof. rewrite existsb_app. simpl. apply orb_true_r. Qed.

(** [initialize_database] on a database with the table. *)
Lemma initialize_database_products t :
  initialize_database (Products t) =
    if existsb (String.eqb "key_tags") (columns t)
    then (Products t, [LogDatabaseInitialized])
    else if existsb (same_name "key_tags") (columns t)
    then (Products t, [LogDatabaseError])
    else (Products
            (Table (columns t ++ ["key_tags"])
               (List.map (fun r => r ++ [SNull]) (records t)) (counter t)),
          [LogDatabaseInitialized]).
Proof.
  unfold initialize_database. cbn [connect create_table_if_not_exists table_info].
  destruct (existsb (String.eqb "key_tags") (columns t)); cbn [negb]; [reflexivity |].
  cbn [alter_table_add_column].
  destruct (existsb (same_name "key_tags") (columns t)); reflexivity.
Qed.

(** X24.  Initializing twice is initializing once: on the file that
    [initialize_database] leaves, it changes nothing and logs what it logged
    the first time.  The table is created, and the column added, at most
    once. *)
Theorem initialize_database_twice_is_once :
  forall f,
    initialize_database (fst (initialize_database f)) = initialize_database f.
Proof.
  intros [| | t].
  - reflexivity.
  - reflexivity.
  - rewrite (initialize_database_products t).
    destruct (existsb (String.eqb "key_tags") (columns t)) eqn:H1.
    + cbn [fst]. by rewrite initialize_database_products, H1.
    + destruct (existsb (same_name "key_tags") (columns t)) eqn:H2.
      * cbn [fst]. by rewrite initialize_database_products, H1, H2.
      * cbn [fst]. rewrite initialize_database_products. cbn [columns].
        by rewrite has_key_tags_snoc.
Qed.

(** X25.  [initialize_database] never loses what the table holds: the columns
    stay, in their order, every row keeps its values, and the AUTOINCREMENT
    counter is the same.  The only change it can make to a table is a column
    [key_tags] added after the others, NULL in every row, and it makes it
    exactly when the table has no column of that name in any case of the
    letters. *)
Theorem initialize_database_keeps_the_rows :
  forall t,
    exists added,
      fst (initialize_database (Products t)) =
        Products
          (Table (columns t ++ added)
             (List.map (fun r => r ++ List.map (fun _ => SNull) added) (records t))
             (counter t))
      /\ added =
           if existsb (same_name "key_tags") (columns t) then [] else ["key_tags"].
Proof.
  intros t. rewrite initialize_database_products.
  assert (Hsame : existsb (String.eqb "key_tags") (columns t) = true ->
                  existsb (same_name "key_tags") (columns t) = true).
  { rewrite !existsb_exists. intros (c & Hin & Hc). exists c. split; [exact Hin |].
    apply String.eqb_eq in Hc as <-. apply String.eqb_refl. }
  assert (Hid : Products t =
                Products
                  (Table (columns t ++ [])
                     (List.map (fun r => r ++ List.map (fun _ : string => SNull) [])
                        (records t))
                     (counter t))).
  { destruct t as [cols recs n]. cbn [columns records counter List.map].
    rewrite List.app_nil_r. f_equal. f_equal.
    induction recs as [| r recs IH]; [reflexivity |].
    cbn [List.map]. by rewrite List.app_nil_r, <- IH. }
  destruct (existsb (String.eqb "key_tags") (columns t)) eqn:H1.
  - rewrite (Hsame eq_refl). exists []. split; [exact Hid | reflexivity].
  - destruct (existsb (same_name "key_tags") (columns t)) eqn:H2.
    + exists []. split; [exact Hid | reflexivity].
    + exists ["key_tags"]. split; reflexivity.
Qed.

(** X26.  [initialize_database] has two outcomes.  It logs its success, and
    then the file has a table [products] with a column named [key_tags]; or
    it logs an error, and then the file is as it was.  The second happens
    only when the database cannot be opened, or when the table has no column
    spelled [key_tags] but one that SQLite takes for the same name
    ([Key_Tags], say): the test of the script compares the names as they are
    spelled, the ALTER statement fails on the duplicate, and it does so at
    every start. *)
Theorem initialize_database_succeeds_or_leaves_the_file :
  forall f,
    (snd (initialize_database f) = [LogDatabaseInitialized]
     /\ exists t',
          fst (initialize_database f) = Products t'
          /\ In "key_tags" (columns t'))
    \/ (snd (initialize_database f) = [LogDatabaseError]
        /\ fst (initialize_database f) = f
        /\ (f = Unusable
            \/ exists t c,
                 f = Products t /\ ~ In "key_tags" (columns t)
                 /\ In c (columns t) /\ same_name "key_tags" c = true)).
Proof.
  intros [| | t].
  - right. split; [reflexivity |]. split; [reflexivity | by left].
  - left. split; [reflexivity |]. eexists. split; [reflexivity |].
    simpl. tauto.
  - rewrite initialize_database_products.
    destruct (existsb (String.eqb "key_tags") (columns t)) eqn:H1.
    + left. split; [reflexivity |]. exists t. split; [reflexivity |].
      apply existsb_exists in H1 as (c & Hin & Hc).
      apply String.eqb_eq in Hc as <-. exact Hin.
    + destruct (existsb (same_name "key_tags") (columns t)) eqn:H2.
      * right. split; [reflexivity |]. split; [reflexivity |]. right.
        apply existsb_exists in H2 as (c & Hin & Hc).
        exists t, c. split; [reflexivity |]. split; [| by split].
        intros Hk. assert (existsb (String.eqb "key_tags") (columns t) = true);
          [| congruence].
        apply existsb_exists. exists "key_tags". split; [exact Hk | reflexivity].
      * left. split; [reflexivity |]. eexists. split; [reflexivity |].
        cbn [columns]. apply in_or_app. right. by left.
Qed.

(* ===================================================================== *)
(** ** Facts about [main] *)
(* ===================================================================== *)

Lemma row_of_values_of_row r : row_of_values (values_of_row r) = Some r.
Proof. by destruct r. Qed.


Lemma rows_of_records_of_rows rs :
  rows_of_records (List.map values_of_row rs) = Some rs.
Proof.
  induction rs as [| r rs IH]; [reflexivity |].
  cbn [List.map rows_of_records]. by rewrite row_of_values_of_row, IH.
Qed.


(** The table of the CREATE statement and the file that holds it. *)
Lemma products_table_of_database d : products_table (file_of_database d) = Some d.
Proof.
  unfold products_table, file_of_database. cbn [columns records counter].
  rewrite bool_decide_eq_true_2 by reflexivity.
  rewrite rows_of_records_of_rows. by destruct d.
Qed.





Lemma completed_at_the_end started evs :
  last (started ++ [Startup LogFlagDetected] ++ List.map Ran evs ++
        [Startup LogMainCompleted])
  = Some (Startup LogMainCompleted).
Proof. rewrite !List.app_assoc. apply last_snoc. Qed.






(** X28.  The whole program on an image.  [main] is started with the flag, on
    a database file that [initialize_database] leaves with the table of the
    CREATE statement (a file without the table, or with the table with or
    without its [key_tags] column) and that has no row for the destination of
    the image; the image is a readable file of a well-formed upload tree, not
    empty, with an extension of the list, whose destination can be encoded
    and for which the extractor returns a record that can be stored.  When
    [main] completes, with an id left in the table, the database file holds
    exactly one row with the destination as its image reference, the file is
    at the destination and no longer at its place under the upload root, and
    the last entry of the log is that of the completion. *)
Theorem main_archives_and_records_a_valid_image :
  forall json_loads backend argv timestamp t m m' steps root filename content d,
    process_images_flag argv = true ->
    wf_tree t = true ->
    is_timestamp timestamp = true ->
    products_table (fst (initialize_database (database_file m))) = Some d ->
    In (root, filename) (walk_jobs (os_walk UPLOADS_DIR t)) ->
    is_image filename = true ->
    disk m !! Path.join root filename = Some (File content) ->
    content <> [] ->
    Str.encodable
      (new_image_path_of (Path.join INVENTORY_IMAGES_DIR timestamp) root filename)
      = true ->
    has_image_url
      (new_image_path_of (Path.join INVENTORY_IMAGES_DIR timestamp) root filename)
      (rows d) = false ->
    (forall n, exists kv,
        extraction json_loads backend n (b64encode content) = Ok (JObj kv)
        /\ storable kv = true) ->
    main json_loads backend argv timestamp (os_walk UPLOADS_DIR t) m =
      Some (Ok tt, m', steps) ->
    (forall d', products_table (database_file m') = Some d' -> ids_left d' = true) ->
    (exists d',
        products_table (database_file m') = Some d'
        /\ count_url
             (new_image_path_of (Path.join INVENTORY_IMAGES_DIR timestamp) root
                filename) (rows d') = 1)
    /\ disk m' !! Path.join root filename = None
    /\ disk m' !!
         new_image_path_of (Path.join INVENTORY_IMAGES_DIR timestamp) root filename
       = Some (File content)
    /\ last steps = Some (Startup LogMainCompleted).
Proof.
  intros json_loads backend argv timestamp t m m' steps root filename content d
    Hflag Hwf Hts Hd Hin Himg Hf Hne Henc Hurl Hex.
  unfold main. rewrite Hflag. unfold run_on. cbn [database_file disk sent].
  destruct (fst (initialize_database (database_file m))) as [| | t0] eqn:Hi;
    try discriminate.
  destruct (negb (existsb (same_name "image_url") (columns t0)));
    [discriminate |].
  rewrite Hd.
  destruct (process_uploaded_images _ _ _ _ _) as [[[] | e] s] eqn:Hr;
    cbn [fst snd]; [| discriminate].
  intros [= <- <-] Hids.
  cbn [database_file disk] in *.
  specialize (Hids (db s) (products_table_of_database (db s))).
  destruct (tree_image_run json_loads backend timestamp t _ s root filename content
              Hwf Hts Hr Hids Hin Himg Hf Hne Henc Hurl Hex) as (C1 & C2 & C3).
  split; [exists (db s); split; [apply products_table_of_database | exact C1] |].
  split; [exact C2 |]. split; [exact C3 |].
  exact (completed_at_the_end (Startup LogMainStart :: _) (trace s)).
Qed.

(** The machine of the scenario at its first start: no database yet. *)
Definition fresh_machine : machine := Machine NoProducts sample_fs 0.

(** The machine and the steps of an outcome of [main]. *)
Definition machine_of (o : option (result unit * machine * list step)) : machine :=
  match o with
  | Some (_, m, _) => m
  | None => Machine Unusable ∅ 0
  end.

Definition steps_of (o : option (result unit * machine * list step)) : list step :=
  match o with
  | Some (_, _, steps) => steps
  | None => []
  end.

Lemma main_archives_and_records_a_valid_image_witness :
  let outcome :=
    main Json.loads (always (fenced "```json" sample_text))
      ["main.py"; "--process-images"] "20240101-120000"
      (os_walk UPLOADS_DIR sample_tree) fresh_machine in
  outcome = Some (Ok tt, machine_of outcome, steps_of outcome)
  /\ (exists d',
         products_table (database_file (machine_of outcome)) = Some d'
         /\ count_url sample_destination (rows d') = 1)
  /\ disk (machine_of outcome) !! "data/images/uploads/a/photo.jpg" = None
  /\ disk (machine_of outcome) !! sample_destination =
       Some (File (bytes "first image")).
Proof.
  cbv zeta.
  match goal with
  | |- ?o = _ /\ _ =>
      assert (Hm : o = Some (Ok tt, machine_of o, steps_of o))
        by (vm_compute; reflexivity)
  end.
  split; [exact Hm |].
  assert (Hdest : new_image_path_of
                    (Path.join INVENTORY_IMAGES_DIR "20240101-120000")
                    "data/images/uploads/a" "photo.jpg" = sample_destination)
    by (vm_compute; reflexivity).
  match type of Hm with
  | _ = Some (_, ?m', ?steps) =>
      destruct (main_archives_and_records_a_valid_image Json.loads
                  (always (fenced "```json" sample_text))
                  ["main.py"; "--process-images"] "20240101-120000" sample_tree
                  fresh_machine m' steps "data/images/uploads/a" "photo.jpg"
                  (bytes "first image") (Database [] 0))
        as (H1 & H2 & H3 & _)
  end.
  - reflexivity.
  - reflexivity.
  - reflexivity.
  - reflexivity.
  - vm_compute. tauto.
  - reflexivity.
  - vm_compute. reflexivity.
  - discriminate.
  - vm_compute. reflexivity.
  - reflexivity.
  - intros n. exists sample_record. split; [apply sample_extraction | reflexivity].
  - exact Hm.
  - intros d' Hd'. vm_compute in Hd'. injection Hd' as <-. reflexivity.
  - rewrite Hdest in H1, H3. split; [exact H1 |]. split; [exact H2 | exact H3].
Defined.
